(** * USB device monitor of BitVisor: descriptor parser and device registry

    A shallow embedding of [drivers/usb/usb_device.c]: the walk over the
    records of a CONFIG response ([extract_config_descriptors]), the
    installation of the parsed tree ([parse_descriptor]), the device chain of
    a host ([free_device], [new_usb_device]) and the port reset reaction
    ([handle_port_reset]).

    Memory is explicit.  Devices and configuration arrays live in finite maps
    from addresses to values, pointers are addresses and [NULL] is address 0.
    Every function that dereferences a pointer returns a [result]: [Ok] with
    its value, or [Fault] when the C code would leave defined behaviour (a
    dereference of an address that holds no object, a read or a copy past the
    end of an array, a failed ASSERT).  Loops run on fuel; [OutOfFuel] is
    the outcome of a loop that has not come to its end within the fuel. *)

From Stdlib Require Import ZArith NArith List Lia Bool.
From Stdlib Require Import Strings.Byte.
From stdpp Require Import base option list gmap.

Local Open Scope nat_scope.

(** ** Outcomes *)

Inductive result (A : Type) : Type :=
| Ok (a : A)
| Fault
| OutOfFuel.
Arguments Ok {A} a.
Arguments Fault {A}.
Arguments OutOfFuel {A}.

#[global] Instance result_ret : MRet result := fun A a => Ok a.
#[global] Instance result_bind : MBind result := fun A B f m =>
  match m with
  | Ok a => f a
  | Fault => Fault
  | OutOfFuel => OutOfFuel
  end.

Definition of_option {A} (o : option A) : result A :=
  match o with
  | Some a => Ok a
  | None => Fault
  end.

(** ** Bytes and structure images *)

Definition u8 (b : byte) : nat := Byte.to_nat b.

Definition byte_of_nat (n : nat) : byte :=
  default x00 (Byte.of_nat (n mod 256)).

(** The byte at offset [i] of a structure image; a structure is cleared when
    it is allocated, so an offset that was never written reads 0. *)
Definition byte_at (img : list byte) (i : nat) : nat := u8 (nth i img x00).

(** [memcpy] out of the response buffer: [n] bytes at offset [off]. *)
Definition read_bytes (buf : list byte) (off n : nat) : result (list byte) :=
  if decide (off + n ≤ length buf) then Ok (take n (drop off buf)) else Fault.

Definition read_u8 (buf : list byte) (off : nat) : result nat :=
  of_option (u8 <$> buf !! off).

(** Descriptor types (spec, external interfaces). *)
Definition USB_DT_DEVICE : nat := 1.
Definition USB_DT_CONFIG : nat := 2.
Definition USB_DT_STRING : nat := 3.
Definition USB_DT_INTERFACE : nat := 4.
Definition USB_DT_ENDPOINT : nat := 5.

(** Modelled from the spec: usb.h, which declares the descriptor structures
    and their sizes, is not among the sources.  The device descriptor is the
    fixed 18-byte record, the bare configuration header has 9 bytes; the
    interface and endpoint structures hold at least the standard 9 and 7
    descriptor bytes of the wire format (scenario S1), and a record is
    taken to fit its structure when it is no longer than that. *)
Definition USB_DT_DEVICE_SIZE : nat := 18.
Definition USB_DT_CONFIG_SIZE : nat := 9.
Definition USB_DT_INTERFACE_SIZE : nat := 9.
Definition USB_DT_ENDPOINT_SIZE : nat := 7.

(** The descriptor part of a structure of [size] bytes after [memset 0] and a
    [memcpy] of the record [bs] to its start.  A record longer than the
    descriptor part would overwrite the pointer fields that follow it. *)
Definition struct_of_wire (size : nat) (bs : list byte) : result (list byte) :=
  if decide (length bs ≤ size)
  then Ok (bs ++ replicate (size - length bs) x00)
  else Fault.

(** ** The descriptor tree *)

(** Modelled from the spec: the structures are declared in usb.h.  A
    configuration owns one interface container, the container the array of
    alternate settings, an alternate setting its array of endpoints; each
    level has an extra buffer with its length.  The descriptor part of a
    structure is kept as its bytes. *)
Record usb_endpoint_descriptor := mk_endpoint {
  e_image : list byte;
  e_extra : list byte;
  e_extralen : nat
}.

Record usb_interface_descriptor := mk_interface_descriptor {
  i_image : list byte;
  endpoint : list usb_endpoint_descriptor;
  i_extra : list byte;
  i_extralen : nat
}.

Record usb_interface := mk_interface {
  altsetting : list usb_interface_descriptor;
  num_altsetting : nat
}.

Record usb_config_descriptor := mk_config {
  c_image : list byte;
  interface : usb_interface;
  c_extra : list byte;
  c_extralen : nat
}.

(** Fields of the wire format, by offset; x86 is little-endian. *)
Definition bLength (img : list byte) : nat := byte_at img 0.
Definition bNumInterfaces (c : usb_config_descriptor) : nat := byte_at (c_image c) 4.
Definition bNumEndpoints (i : usb_interface_descriptor) : nat := byte_at (i_image i) 4.
Definition wMaxPacketSize (e : usb_endpoint_descriptor) : nat :=
  byte_at (e_image e) 4 + 256 * byte_at (e_image e) 5.
Definition bMaxPacketSize0 (descriptor : list byte) : nat := byte_at descriptor 7.

Definition set_wMaxPacketSize (v : nat) (e : usb_endpoint_descriptor) :=
  mk_endpoint (<[4 := byte_of_nat v]> (<[5 := byte_of_nat (v / 256)]> (e_image e)))
              (e_extra e) (e_extralen e).

Definition zalloc_usb_endpoint_descriptor : usb_endpoint_descriptor :=
  mk_endpoint (replicate USB_DT_ENDPOINT_SIZE x00) [] 0.

Definition zalloc_usb_interface : usb_interface := mk_interface [] 0.

(** An array pointer is modelled by the array it points to; every array the
    code allocates has at least one unit, so [NULL] is the empty list. *)

(** ** tack_on

    [tack_on src src_n new new_n newsize unitsize] allocates a cleared array
    of [src_n + new_n] units, copies the first [src_n] units of [src] (and
    frees [src]), then copies [newsize] bytes of [new] behind them.  Here
    [new] is already the list of the [new_n] units those bytes make up. *)
Definition tack_on {A} (src : list A) (src_n : nat) (new : list A) : result (list A) :=
  if decide (src_n ≤ length src) then Ok (take src_n src ++ new) else Fault.

(** ** extract_config_descriptors *)

Record extract_state := mk_extract {
  x_cdesc : list usb_config_descriptor;
  x_odesc : list byte;
  odesclen : nat;
  cdescp : option nat;
  idescp : option (nat * nat);
  n_cdesc : nat;
  n_idesc : nat;
  n_edesc : nat;
  last_bDescriptorType : nat;
  parsed : nat
}.

Definition extract_init : extract_state :=
  mk_extract [] [] 0 None None 0 0 0 0 0.

Definition set_altsetting (alts : list usb_interface_descriptor) (n : nat)
    (c : usb_config_descriptor) : usb_config_descriptor :=
  mk_config (c_image c) (mk_interface alts n) (c_extra c) (c_extralen c).

Definition set_alts (f : list usb_interface_descriptor -> list usb_interface_descriptor)
    (c : usb_config_descriptor) : usb_config_descriptor :=
  mk_config (c_image c)
            (mk_interface (f (altsetting (interface c))) (num_altsetting (interface c)))
            (c_extra c) (c_extralen c).

Definition set_endpoint (eps : list usb_endpoint_descriptor)
    (i : usb_interface_descriptor) : usb_interface_descriptor :=
  mk_interface_descriptor (i_image i) eps (i_extra i) (i_extralen i).

Definition set_c_extra (ex : list byte) (n : nat) (c : usb_config_descriptor) :=
  mk_config (c_image c) (interface c) ex n.

Definition set_i_extra (ex : list byte) (n : nat) (i : usb_interface_descriptor) :=
  mk_interface_descriptor (i_image i) (endpoint i) ex n.

(** The interface record a cursor [(ci, ai)] points to. *)
Definition deref_idescp (cd : list usb_config_descriptor) (p : nat * nat)
    : result usb_interface_descriptor :=
  c ← of_option (cd !! p.1);
  of_option (altsetting (interface c) !! p.2).

Definition update_idescp (f : usb_interface_descriptor -> usb_interface_descriptor)
    (p : nat * nat) (cd : list usb_config_descriptor) : list usb_config_descriptor :=
  alter (set_alts (alter f p.2)) p.1 cd.

(** After the switch: [buf_p += bLength; parsed += bLength;
    last_bDescriptorType = bDescriptorType]. *)
Definition advance (len ty : nat) (st : extract_state) : extract_state :=
  mk_extract (x_cdesc st) (x_odesc st) (odesclen st) (cdescp st) (idescp st)
             (n_cdesc st) (n_idesc st) (n_edesc st) ty (parsed st + len).

(** The record reaches the branches as the outcome of the [memcpy] that
    takes it out of the buffer; a branch that stores nothing does not copy
    and so does not read the record. *)
Definition on_config (rec : result (list byte)) (st : extract_state)
    : result extract_state :=
  bs ← rec;
  img ← struct_of_wire USB_DT_CONFIG_SIZE bs;
  cd ← tack_on (x_cdesc st) (n_cdesc st) [mk_config img zalloc_usb_interface [] 0];
  Ok (mk_extract cd (x_odesc st) (odesclen st) (Some (n_cdesc st)) (idescp st)
                 (S (n_cdesc st)) 0 0 (last_bDescriptorType st) (parsed st)).

Definition on_interface (rec : result (list byte)) (st : extract_state)
    : result extract_state :=
  match cdescp st with
  | None => Ok st
  | Some ci =>
      c ← of_option (x_cdesc st !! ci);
      bs ← rec;
      img ← struct_of_wire USB_DT_INTERFACE_SIZE bs;
      alts ← tack_on (altsetting (interface c)) (n_idesc st)
                     [mk_interface_descriptor img [] [] 0];
      Ok (mk_extract (alter (set_altsetting alts (S (n_idesc st))) ci (x_cdesc st))
                     (x_odesc st) (odesclen st) (cdescp st) (Some (ci, n_idesc st))
                     (n_cdesc st) (S (n_idesc st)) 0
                     (last_bDescriptorType st) (parsed st))
  end.

Definition on_endpoint (rec : result (list byte)) (st : extract_state)
    : result extract_state :=
  match idescp st with
  | None => Ok st
  | Some p =>
      i ← deref_idescp (x_cdesc st) p;
      bs ← rec;
      img ← struct_of_wire USB_DT_ENDPOINT_SIZE bs;
      eps ← tack_on (endpoint i) (n_edesc st) [mk_endpoint img [] 0];
      Ok (mk_extract (update_idescp (set_endpoint eps) p (x_cdesc st))
                     (x_odesc st) (odesclen st) (cdescp st) (idescp st)
                     (n_cdesc st) (n_idesc st) (S (n_edesc st))
                     (last_bDescriptorType st) (parsed st))
  end.

(** The [default] branch: a record of any other type goes where the type of
    the record before it says.  After an ENDPOINT record the [break] comes
    first and the record is stored nowhere. *)
Definition on_other (rec : result (list byte)) (st : extract_state)
    : result extract_state :=
  match last_bDescriptorType st with
  | 2 =>
      ci ← of_option (cdescp st);
      c ← of_option (x_cdesc st !! ci);
      bs ← rec;
      ex ← tack_on (c_extra c) (c_extralen c) bs;
      Ok (mk_extract (alter (set_c_extra ex (c_extralen c + length bs)) ci (x_cdesc st))
                     (x_odesc st) (odesclen st) (cdescp st) (idescp st)
                     (n_cdesc st) (n_idesc st) (n_edesc st)
                     (last_bDescriptorType st) (parsed st))
  | 4 =>
      p ← of_option (idescp st);
      i ← deref_idescp (x_cdesc st) p;
      bs ← rec;
      ex ← tack_on (i_extra i) (i_extralen i) bs;
      Ok (mk_extract (update_idescp (set_i_extra ex (i_extralen i + length bs)) p (x_cdesc st))
                     (x_odesc st) (odesclen st) (cdescp st) (idescp st)
                     (n_cdesc st) (n_idesc st) (n_edesc st)
                     (last_bDescriptorType st) (parsed st))
  | 5 => Ok st
  | _ =>
      bs ← rec;
      od ← tack_on (x_odesc st) (odesclen st) bs;
      Ok (mk_extract (x_cdesc st) od (odesclen st + length bs) (cdescp st) (idescp st)
                     (n_cdesc st) (n_idesc st) (n_edesc st)
                     (last_bDescriptorType st) (parsed st))
  end.

(** The switch on the type of the record. *)
Definition on_record (ty : nat) (rec : result (list byte)) (st : extract_state)
    : result extract_state :=
  match ty with
  | 2 => on_config rec st
  | 4 => on_interface rec st
  | 5 => on_endpoint rec st
  | _ => on_other rec st
  end.

(** One turn of the do-while loop; [None] is the [break] at a record of
    length 0, which comes before the type of the record is read. *)
Definition extract_step (buf : list byte) (st : extract_state)
    : result (option extract_state) :=
  len ← read_u8 buf (parsed st);
  if decide (len = 0) then Ok None
  else
    ty ← read_u8 buf (parsed st + 1);
    st' ← on_record ty (read_bytes buf (parsed st) len) st;
    Ok (Some (advance len ty st')).

Fixpoint extract_loop (fuel : nat) (buf : list byte) (len : nat) (st : extract_state)
    : result extract_state :=
  match fuel with
  | 0 => OutOfFuel
  | S fuel' =>
      r ← extract_step buf st;
      match r with
      | None => Ok st
      | Some st' =>
          if decide (parsed st' < len) then extract_loop fuel' buf len st' else Ok st'
      end
  end.

(** Returns the length it was given (not the number of bytes walked), the
    configuration array and the bucket of other descriptors. *)
Definition extract_config_descriptors (buf : list byte) (len : nat)
    : result (nat * list usb_config_descriptor * list byte) :=
  if decide (len = 0) then Ok (0, [], [])
  else
    st ← extract_loop len buf len extract_init;
    Ok (len, x_cdesc st, x_odesc st).

(** ** Devices, hooks and the host *)

Definition NULL : N := 0%N.

(** Modelled from the spec: the device, hook, bus and host structures are
    declared in headers that are not among the sources; the fields are those
    the functions use.  A device that is not in the registry is detached;
    one in the registry is addressed or configured. *)
Inductive ud_status := UD_STATUS_ADDRESSED | UD_STATUS_CONFIGURED.

(** The class handle of a device: whether it has a [remove] callback. *)
Record usb_device_handle := mk_handle { remove : bool }.

Record usb_device := mk_device {
  devnum : nat;
  portno : N;
  bStatus : ud_status;
  descriptor : list byte;
  config : N;
  handle : option usb_device_handle;
  next : N;
  prev : N
}.

Inductive hook_callback := cb_new_usb_device | cb_device_state_change | cb_other (id : nat).

(** A hook on a phase chain: its own address, the address it matches, its
    callback and the back-link to a device ([NULL] for a host-wide hook). *)
Record usb_hook := mk_hook {
  hk_addr : N;
  hk_devadr : nat;
  hk_callback : hook_callback;
  hk_dev : N
}.

Record usb_bus := mk_bus { bus_device : N }.

(** [hook] holds one chain per phase, in registration order; [bus] is the bus
    view of this host, when it has one. *)
Record usb_host := mk_host {
  device : N;
  hook : list (list usb_hook);
  last_changed_port : N;
  bus : option usb_bus
}.

(** Modelled from the spec: a callback returns one of PASS, DISCARD and
    REWRITE. *)
Inductive hook_verdict := USB_HOOK_PASS | USB_HOOK_DISCARD | USB_HOOK_REWRITE.

(** The memory the functions work on: the host, the devices and the
    configuration arrays by address, the next address the allocator hands
    out, and the devices whose class handle has run its [remove]. *)
Record world := mk_world {
  w_host : usb_host;
  w_dev : gmap N usb_device;
  w_cfg : gmap N (list usb_config_descriptor);
  w_brk : N;
  w_removed : list N
}.

Definition set_host (h : usb_host) (w : world) : world :=
  mk_world h (w_dev w) (w_cfg w) (w_brk w) (w_removed w).
Definition set_dev (m : gmap N usb_device) (w : world) : world :=
  mk_world (w_host w) m (w_cfg w) (w_brk w) (w_removed w).
Definition set_cfg (m : gmap N (list usb_config_descriptor)) (w : world) : world :=
  mk_world (w_host w) (w_dev w) m (w_brk w) (w_removed w).

Definition set_next (p : N) (d : usb_device) : usb_device :=
  mk_device (devnum d) (portno d) (bStatus d) (descriptor d) (config d) (handle d) p (prev d).
Definition set_prev (p : N) (d : usb_device) : usb_device :=
  mk_device (devnum d) (portno d) (bStatus d) (descriptor d) (config d) (handle d) (next d) p.
Definition set_config (p : N) (d : usb_device) : usb_device :=
  mk_device (devnum d) (portno d) (bStatus d) (descriptor d) p (handle d) (next d) (prev d).
Definition set_descriptor (img : list byte) (d : usb_device) : usb_device :=
  mk_device (devnum d) (portno d) (bStatus d) img (config d) (handle d) (next d) (prev d).
Definition set_bStatus (s : ud_status) (d : usb_device) : usb_device :=
  mk_device (devnum d) (portno d) s (descriptor d) (config d) (handle d) (next d) (prev d).

(** ** Freeing a descriptor tree *)

(** Reads [edesc[i].extra] for every [i < n]. *)
Definition free_endpoint_descriptors (edesc : list usb_endpoint_descriptor) (n : nat)
    : result unit :=
  match edesc with
  | [] => Ok ()
  | _ => if decide (n ≤ length edesc) then Ok () else Fault
  end.

Fixpoint free_each_interface (idesc : list usb_interface_descriptor) : result unit :=
  match idesc with
  | [] => Ok ()
  | i :: rest =>
      _ ← free_endpoint_descriptors (endpoint i) (bNumEndpoints i);
      free_each_interface rest
  end.

Definition free_interface_descriptors (idesc : list usb_interface_descriptor) (n : nat)
    : result unit :=
  match idesc with
  | [] => Ok ()
  | _ => if decide (n ≤ length idesc) then free_each_interface (take n idesc) else Fault
  end.

Fixpoint free_each_config (cdesc : list usb_config_descriptor) : result unit :=
  match cdesc with
  | [] => Ok ()
  | c :: rest =>
      _ ← free_interface_descriptors (altsetting (interface c))
                                     (num_altsetting (interface c));
      free_each_config rest
  end.

(** [free_config_descriptors cdesc n]: the trees under the first [n]
    configurations of the array at [cdesc], then the array itself. *)
Definition free_config_descriptors (w : world) (cdesc : N) (n : nat) : result world :=
  if decide (cdesc = NULL) then Ok w
  else
    t ← of_option (w_cfg w !! cdesc);
    _ ← (if decide (n ≤ length t) then free_each_config (take n t) else Fault);
    Ok (set_cfg (delete cdesc (w_cfg w)) w).

(** ** Hooks *)

(** Modelled from the spec: usb_hook.h and usb_hook.c are not among the
    sources.  The phase count is a fixed small integer, today three (SETUP,
    DATA, REPLY); the functions number the phases from 1. *)
Definition USB_HOOK_NUM_PHASE : nat := 3.
Definition USB_HOOK_REPLY : nat := 3.

Definition phase_chain (h : usb_host) (phase : nat) : list usb_hook :=
  default [] (hook h !! phase).

Definition set_hook (hk : list (list usb_hook)) (h : usb_host) : usb_host :=
  mk_host (device h) hk (last_changed_port h) (bus h).

(** Modelled from the spec: usb_hook_unregister is not among the sources.
    It takes the hook off the chain of its phase; the chain keeps the other
    hooks in their order. *)
Definition usb_hook_unregister (h : usb_host) (phase : nat) (hk : usb_hook) : usb_host :=
  set_hook (alter (filter (fun x => hk_addr x ≠ hk_addr hk)) (phase - 1) (hook h)) h.

(** Modelled from the spec: usb_hook_register is not among the sources.  A
    chain is walked in registration order, so the new hook goes to its end. *)
Definition usb_hook_register (h : usb_host) (phase : nat) (hk : usb_hook) : usb_host :=
  set_hook (alter (fun chain => chain ++ [hk]) (phase - 1) (hook h)) h.

(** The walk of [free_device] over one phase chain: [next_hook] is taken
    before the hook is unregistered, so the walk visits the hooks the chain
    had when it started. *)
Definition unhook_phase (dev : N) (h : usb_host) (phase : nat) : usb_host :=
  fold_left (fun h hk =>
               if decide (hk_dev hk = dev) then usb_hook_unregister h (phase + 1) hk else h)
            (phase_chain h phase) h.

Definition unhook_device (dev : N) (h : usb_host) : usb_host :=
  fold_left (unhook_phase dev) (seq 0 USB_HOOK_NUM_PHASE) h.

(** ** The device chain *)

Definition deref (w : world) (p : N) : result usb_device := of_option (w_dev w !! p).

(** Modelled from the spec: get_device_by_address and get_device_by_port are
    declared in usb_device.h, which is not among the sources; both are a scan
    of the chain from the head of the host. *)
Fixpoint scan_chain (fuel : nat) (w : world) (P : usb_device -> bool) (p : N) : result N :=
  if decide (p = NULL) then Ok NULL
  else match fuel with
       | 0 => OutOfFuel
       | S fuel' =>
           d ← deref w p;
           if P d then Ok p else scan_chain fuel' w P (next d)
       end.

Definition get_device_by_address (w : world) (address : nat) : result N :=
  scan_chain (size (w_dev w)) w (fun d => bool_decide (devnum d = address)) (device (w_host w)).

Definition get_device_by_port (w : world) (port : N) : result N :=
  scan_chain (size (w_dev w)) w (fun d => bool_decide (portno d = port)) (device (w_host w)).

(** Modelled from the spec: usb_get_bus is not among the sources; the bus of
    a host is the externally visible view whose [device] mirrors the head of
    the chain, and [bus->host] is the host itself. *)
Definition usb_get_bus (h : usb_host) : option usb_bus := bus h.

Definition set_device (p : N) (h : usb_host) : usb_host :=
  mk_host p (hook h) (last_changed_port h) (bus h).
Definition set_last_changed_port (p : N) (h : usb_host) : usb_host :=
  mk_host (device h) (hook h) p (bus h).

(** [bus->device = bus->host->device], when the host has a bus. *)
Definition mirror_bus (h : usb_host) : usb_host :=
  match usb_get_bus h with
  | Some _ => mk_host (device h) (hook h) (last_changed_port h) (Some (mk_bus (device h)))
  | None => h
  end.

Definition run_remove (dev : N) (d : usb_device) (w : world) : world :=
  match handle d with
  | Some hd => if remove hd
               then mk_world (w_host w) (w_dev w) (w_cfg w) (w_brk w) (w_removed w ++ [dev])
               else w
  | None => w
  end.

(** The unlinking part of [free_device]. *)
Definition unlink_device (w : world) (dev : N) (d : usb_device) : result world :=
  w1 ← (if decide (device (w_host w) = dev)
        then Ok (set_host (mirror_bus (set_device (next d) (w_host w))) w)
        else if decide (prev d = NULL) then Fault
        else p ← deref w (prev d);
             Ok (set_dev (<[prev d := set_next (next d) p]> (w_dev w)) w));
  if decide (next d = NULL) then Ok w1
  else n ← deref w1 (next d);
       Ok (set_dev (<[next d := set_prev (prev d) n]> (w_dev w1)) w1).

Definition free_device (w : world) (dev : N) : result (nat * world) :=
  let w0 := set_host (unhook_device dev (w_host w)) w in
  d ← deref w0 dev;
  w1 ← (if decide (config d = NULL) then Ok w0
        else free_config_descriptors w0 (config d) 1);
  let w2 := run_remove dev d w1 in
  w3 ← unlink_device w2 dev d;
  Ok (0, set_dev (delete dev (w_dev w3)) w3).

(** ** Port status *)

Definition u64_add (a b : N) : N := ((a + b) mod 2 ^ 64)%N.

Definition handle_connect_status (w : world) (portno : N) (status : N)
    : result (nat * world) :=
  w1 ← (if decide (N.land status 2 = 0%N) then Ok w
        else dev ← get_device_by_port w (u64_add portno 1);
             if decide (dev = NULL) then Ok w
             else '(_, w') ← free_device w dev; Ok w');
  if decide (N.land status 1 = 0%N) then Ok (0, w1)
  else Ok (0, set_host (set_last_changed_port (u64_add portno 1) (w_host w1)) w1).

(** [flag] is 16 bits wide: the shifted value is cut to them.  The shift is
    done on an int, and is undefined from 31 bits on. *)
Definition handle_port_reset (w : world) (portno : N) (status : N) (offset : nat)
    : result (nat * world) :=
  if decide (31 ≤ offset) then Fault
  else
    let flag := (N.shiftl 1 (N.of_nat offset) mod 2 ^ 16)%N in
    if decide (N.land status flag = 0%N) then Ok (0, w)
    else
      dev ← get_device_by_port w (u64_add portno 1);
      if decide (dev = NULL) then Ok (1, w)
      else
        let w1 := set_host (set_last_changed_port (u64_add portno 1) (w_host w)) w in
        '(_, w2) ← free_device w1 dev;
        Ok (0, w2).

(** ** parse_descriptor *)

(** The units a copy of [n] units reads from the array [arr]. *)
Definition read_units {A} (arr : list A) (n : nat) : result (list A) :=
  if decide (n ≤ length arr) then Ok (take n arr) else Fault.

(** The configuration array the walk has built is placed at the address the
    allocator hands out next. *)
Definition alloc_cfg (t : list usb_config_descriptor) (w : world) : N * world :=
  (w_brk w, mk_world (w_host w) (w_dev w) (<[w_brk w := t]> (w_cfg w))
                     (N.succ (w_brk w)) (w_removed w)).

(** "add a descriptor for endpoint-0": the endpoint array of the first
    alternate setting of the first configuration is replaced by a cleared
    endpoint that carries [bMaxPacketSize0], followed by the first
    [bNumEndpoints] units of the old array. *)
Definition add_endpoint0 (maxpkt : nat) (t : list usb_config_descriptor)
    : result (list usb_config_descriptor) :=
  match t with
  | [] => Ok t
  | c :: _ =>
      match altsetting (interface c) with
      | [] => Ok t
      | idesc :: _ =>
          match endpoint idesc with
          | [] => Ok t
          | _ =>
              let edesc := set_wMaxPacketSize maxpkt zalloc_usb_endpoint_descriptor in
              new ← read_units (endpoint idesc) (bNumEndpoints idesc);
              eps ← tack_on [edesc] 1 new;
              Ok (update_idescp (set_endpoint eps) (0, 0) t)
          end
      end
  end.

Definition parse_config (w : world) (buf : list byte) (len : nat) (dev : N)
    (d : usb_device) : result world :=
  '(l_cdesc, t, _) ← extract_config_descriptors buf len;
  match t with
  | [] => Ok w
  | c :: _ =>
      let '(cdesc, w1) := alloc_cfg t w in
      if decide (bNumInterfaces c ≠ 0 ∧ l_cdesc ≤ USB_DT_CONFIG_SIZE)
      then free_config_descriptors w1 cdesc 1
      else
        w2 ← (if decide (config d = NULL) then Ok w1
              else free_config_descriptors w1 (config d) 1);
        let w3 := set_dev (<[dev := set_config cdesc d]> (w_dev w2)) w2 in
        t' ← add_endpoint0 (bMaxPacketSize0 (descriptor d)) t;
        Ok (set_cfg (<[cdesc := t']> (w_cfg w3)) w3)
  end.

(** [memcpy (&dev->descriptor, ddesc, l_ddesc)]: [len] bytes, whatever [len]
    is; more than the descriptor holds would run into the fields behind it. *)
Definition parse_device (w : world) (buf : list byte) (len : nat) (dev : N)
    (d : usb_device) : result world :=
  src ← read_bytes buf 0 len;
  if decide (len ≤ length (descriptor d))
  then Ok (set_dev (<[dev := set_descriptor (src ++ drop len (descriptor d)) d]> (w_dev w)) w)
  else Fault.

Definition parse_descriptor (w : world) (desc : nat) (buf : list byte) (len : nat)
    (dev : N) : result (hook_verdict * world) :=
  d ← deref w dev;
  w' ← match desc with
       | 1 => parse_device w buf len dev d
       | 2 => parse_config w buf len dev d
       | _ => Ok w
       end;
  Ok (USB_HOOK_PASS, w').

(** ** device_state_change *)

(** The hook on the SetConfiguration reply: [dev] is [urb->dev]. *)
Definition device_state_change (w : world) (dev : N) : result (hook_verdict * world) :=
  if decide (dev = NULL) then Ok (USB_HOOK_PASS, w)
  else
    d ← deref w dev;
    Ok (USB_HOOK_PASS,
        set_dev (<[dev := set_bStatus UD_STATUS_CONFIGURED d]> (w_dev w)) w).

(** ** new_usb_device *)

(** Modelled from the spec: the setup packet has bmRequestType, bRequest,
    wValue (little-endian), wIndex, wLength; the accessor comes from a macro
    of usb.h. *)
Definition get_wValue_from_setup (setup : list byte) : nat :=
  byte_at setup 2 + 256 * byte_at setup 3.

(** usb_open, usb_get_descriptor and usb_get_descriptor_early talk to the
    device and are not among the sources; what the device answers is an
    input of the model.  An answer to one GetDescriptor request is the
    return value and the bytes written to the start of the cleared 255-byte
    buffer. *)
Record response := mk_response { ret : Z; data : list byte }.

Definition buffer_of (r : response) : list byte :=
  take 255 (data r ++ replicate 255 x00).

Record responses := mk_responses {
  device8 : response;
  device18 : response;
  config255 : response
}.

Definition zalloc_usb_device : usb_device :=
  mk_device 0 0%N UD_STATUS_ADDRESSED (replicate USB_DT_DEVICE_SIZE x00) NULL None NULL NULL.

(** "confirm the address is new" and "confirm the port is new": both calls
    pass [devadr] where [free_device] takes the device. *)
Definition evict_collisions (w : world) (devadr : nat) : result world :=
  dev ← get_device_by_address w devadr;
  w1 ← (if decide (dev = NULL) then Ok w
        else '(_, w') ← free_device w (N.of_nat devadr); Ok w');
  dev ← get_device_by_port w1 (last_changed_port (w_host w1));
  if decide (dev = NULL) then Ok w1
  else '(_, w') ← free_device w1 (N.of_nat devadr); Ok w'.

(** The new device, filled in and linked at the head of the chain.  There is
    one host, so [dev->host] is left out; the port registration of
    HANDLE_USBHUB is not compiled in. *)
Definition link_new_device (w : world) (devadr : nat) : result (N * world) :=
  let dev := w_brk w in
  let d := mk_device devadr (last_changed_port (w_host w)) UD_STATUS_ADDRESSED
                     (descriptor zalloc_usb_device) NULL None (device (w_host w)) NULL in
  devs ← (if decide (next d = NULL) then Ok (w_dev w)
          else n ← deref w (next d);
               Ok (<[next d := set_prev dev n]> (w_dev w)));
  Ok (dev, mk_world (set_device dev (w_host w)) (<[dev := d]> devs) (w_cfg w)
                    (N.succ (w_brk w)) (w_removed w)).

(** Modelled from the spec: usb_init, usb_find_busses and usb_find_devices
    are not among the sources; insertion mirrors the head of the chain to
    the bus view of the host. *)
Definition usb_find_devices (w : world) : world :=
  set_host (mirror_bus (w_host w)) w.

Definition fetch_descriptor (desc : nat) (r : response) (dev : N) (w : world)
    : result world :=
  if decide (0 < ret r)%Z
  then '(_, w') ← parse_descriptor w desc (buffer_of r) (Z.to_nat (ret r)) dev; Ok w'
  else Ok w.

Definition new_usb_device (w : world) (setup : list byte) (io : responses)
    : result (hook_verdict * world) :=
  let devadr := Nat.land (get_wValue_from_setup setup mod 256) 127 in
  w1 ← evict_collisions w devadr;
  '(dev, w2) ← link_new_device w1 devadr;
  let w3 := usb_find_devices w2 in
  w4 ← fetch_descriptor USB_DT_DEVICE (device18 io) dev w3;
  w5 ← fetch_descriptor USB_DT_CONFIG (config255 io) dev w4;
  let hk := mk_hook (w_brk w5) devadr cb_device_state_change dev in
  let w6 := mk_world (usb_hook_register (w_host w5) USB_HOOK_REPLY hk)
                     (w_dev w5) (w_cfg w5) (N.succ (w_brk w5)) (w_removed w5) in
  Ok (USB_HOOK_PASS, w6).

(** ** Concrete inputs *)

Definition bytes (l : list nat) : list byte := map byte_of_nat l.

(** A device at address 3 on port 1 whose device descriptor has been read
    (bMaxPacketSize0 = 8), alone on its host. *)
Definition mouse : usb_device :=
  mk_device 3 1%N UD_STATUS_ADDRESSED
            (bytes [18;1;0;2;0;0;0;8;109;4;119;192;0;114;1;2;0;1])
            NULL None NULL NULL.

Definition one_device : world :=
  mk_world (mk_host 4096%N [[]; []; [mk_hook 8192%N 0 cb_new_usb_device NULL;
                                      mk_hook 8193%N 3 cb_device_state_change 4096%N]]
                    2%N (Some (mk_bus 4096%N)))
           {[ 4096%N := mouse ]} ∅ 8194%N [].

(** A second device, at address 5 on port 2, linked in front of the first. *)
Definition keyboard : usb_device :=
  mk_device 5 2%N UD_STATUS_ADDRESSED
            (bytes [18;1;16;1;0;0;0;8;0;0;0;0;0;0;0;0;0;1])
            NULL None 4096%N NULL.

Definition two_devices : world :=
  mk_world (mk_host 8194%N [[]; []; [mk_hook 8192%N 0 cb_new_usb_device NULL;
                                      mk_hook 8193%N 3 cb_device_state_change 4096%N;
                                      mk_hook 8195%N 5 cb_device_state_change 8194%N]]
                    2%N (Some (mk_bus 8194%N)))
           (<[ 8194%N := keyboard ]> {[ 4096%N := set_prev 8194%N mouse ]})
           ∅ 8196%N [].

(** The claim that a DEVICE response of any length [len] puts its first
    [min len 18] bytes into [dev.descriptor] and leaves the rest as it was. *)
Definition copies_min_len_18 (w : world) (buf : list byte) (len : nat) (dev : N) : Prop :=
  exists d w' d',
    w_dev w !! dev = Some d /\
    parse_descriptor w USB_DT_DEVICE buf len dev = Ok (USB_HOOK_PASS, w') /\
    w_dev w' !! dev = Some d' /\
    descriptor d' = take (len `min` 18) buf ++ drop (len `min` 18) (descriptor d).

(** ** The registry invariant *)

(** [dchain m before p l]: following [next] from [p] visits the devices [l]
    and ends at [NULL]; every device but the first has the device visited
    before it as [prev], and so has the first when [before] names one. *)
Inductive dchain (m : gmap N usb_device) : option N -> N -> list N -> Prop :=
| dchain_nil before : dchain m before NULL []
| dchain_cons before p d l :
    p <> NULL ->
    m !! p = Some d ->
    (forall q, before = Some q -> prev d = q) ->
    dchain m (Some p) (next d) l ->
    dchain m before p (p :: l).

(** The bus view shows the head of the chain. *)
Definition mirror_ok (h : usb_host) : Prop :=
  forall b, bus h = Some b -> bus_device b = device h.

(** The link invariant as the spec words it, for the devices [l] of the
    chain of a host: a device that is not the head is the [next] of its
    [prev], and a device with a [next] is the [prev] of it. *)
Definition link_invariant (w : world) (l : list N) : Prop :=
  forall p d, p ∈ l -> w_dev w !! p = Some d ->
    (p <> device (w_host w) ->
       exists dp, w_dev w !! prev d = Some dp /\ next dp = p) /\
    (next d <> NULL ->
       exists dn, w_dev w !! next d = Some dn /\ prev dn = p).

(** The allocator hands out addresses that hold nothing yet. *)
Definition heap_ok (w : world) : Prop :=
  w_brk w <> NULL /\
  (forall p, is_Some (w_dev w !! p) -> (0 < p < w_brk w)%N) /\
  (forall p, is_Some (w_cfg w !! p) -> (0 < p < w_brk w)%N).

Definition registry_ok (w : world) (l : list N) : Prop :=
  dchain (w_dev w) None (device (w_host w)) l /\ mirror_ok (w_host w).

(** The configuration array at [p], if any, can be handed to
    [free_config_descriptors (p, 1)]: it is there, and the walk over the
    endpoints of its first configuration stays inside the arrays. *)
Definition config_freeable (w : world) (p : N) : Prop :=
  p = NULL \/
  exists t, w_cfg w !! p = Some t /\ 1 <= length t /\ free_each_config (take 1 t) = Ok ().

(** Two device maps with the same devices and the same links. *)
Definition same_links (m m' : gmap N usb_device) : Prop :=
  forall q, (fun d => (next d, prev d)) <$> m' !! q = (fun d => (next d, prev d)) <$> m !! q.

(** The address a SET_ADDRESS setup packet assigns. *)
Definition set_address_devadr (setup : list byte) : nat :=
  Nat.land (get_wValue_from_setup setup mod 256) 127.

(** No device of the chain [l] has the address [devadr] or sits on the
    last-changed port. *)
Definition no_collision (w : world) (l : list N) (devadr : nat) : Prop :=
  forall q d, q ∈ l -> w_dev w !! q = Some d ->
    devnum d <> devadr /\ portno d <> last_changed_port (w_host w).

(** A SET_ADDRESS 5 setup packet and the answers of a device with an empty
    configuration response. *)
Definition set_address_5 : list byte := bytes [0; 5; 5; 0; 0; 0; 0; 0].
Definition set_address_3 : list byte := bytes [0; 5; 3; 0; 0; 0; 0; 0].

Definition keyboard_answers : responses :=
  mk_responses (mk_response 8 (bytes [18;1;16;1;0;0;0;8]))
               (mk_response 18 (bytes [18;1;16;1;0;0;0;8;0;0;0;0;0;0;0;0;0;1]))
               (mk_response 0 []).

(** ** Streams of records *)

(** A record of the wire format: its type and the bytes after its two-byte
    header.  [wire] is the record as it travels: bLength, bDescriptorType,
    body. *)
Record desc_record := mk_record { r_type : byte; r_body : list byte }.

Definition r_len (r : desc_record) : nat := 2 + length (r_body r).

Definition wire (r : desc_record) : list byte :=
  byte_of_nat (r_len r) :: r_type r :: r_body r.

Definition stream (rs : list desc_record) : list byte := concat (map wire rs).

(** bLength is one byte. *)
Definition valid_record (r : desc_record) : Prop := r_len r <= 255.

(** What one turn of the loop does with a record, and the walk over a list
    of records. *)
Definition feed (r : desc_record) (st : extract_state) : result extract_state :=
  st' ← on_record (u8 (r_type r)) (Ok (wire r)) st;
  Ok (advance (r_len r) (u8 (r_type r)) st').

Fixpoint feed_all (rs : list desc_record) (st : extract_state) : result extract_state :=
  match rs with
  | [] => Ok st
  | r :: rs' => st' ← feed r st; feed_all rs' st'
  end.

Definition record (ty : nat) (body : list nat) : desc_record :=
  mk_record (byte_of_nat ty) (bytes body).

(** The CONFIG response of the spec's boundary case: a bare configuration
    header that claims one interface. *)
Definition bare_config : list byte := bytes [9; 2; 9; 0; 1; 1; 0; 128; 50].

(** The CONFIG response of scenario S1: CONFIG, INTERFACE, HID, ENDPOINT. *)
Definition mouse_config : list desc_record :=
  [ record 2 [34; 0; 1; 1; 0; 128; 50];
    record 4 [0; 0; 1; 3; 1; 2; 0];
    record 33 [16; 1; 0; 1; 34; 52; 0];
    record 5 [129; 3; 4; 0; 10] ].

(** The tree the walk builds from [bare_config]. *)
Definition bare_config_tree : usb_config_descriptor :=
  mk_config bare_config zalloc_usb_interface [] 0.

(** The device of [one_device] after a first CONFIG response has been
    installed at address 6000. *)
Definition configured : world :=
  mk_world (w_host one_device)
           {[ 4096%N := set_config 6000%N mouse ]}
           {[ 6000%N := [bare_config_tree] ]} 8194%N [].

(** The claim that the tree built from the records [rs] before a record of
    length 0 is what dev.config points to after the response is parsed. *)
Definition installs_records_before_zero
    (w : world) (rs : list desc_record) (rest : list byte) (len : nat) (dev : N) : Prop :=
  exists st d w' d' t',
    w_dev w !! dev = Some d /\
    feed_all rs extract_init = Ok st /\
    parse_descriptor w USB_DT_CONFIG (stream rs ++ x00 :: rest) len dev
      = Ok (USB_HOOK_PASS, w') /\
    w_dev w' !! dev = Some d' /\
    add_endpoint0 (bMaxPacketSize0 (descriptor d)) (x_cdesc st) = Ok t' /\
    w_cfg w' !! config d' = Some t'.

(** The configuration record of scenario S5, and the state of the walk
    after it. *)
Definition config_of_mouse : desc_record := record 2 [34; 0; 1; 1; 0; 128; 50].

Definition after_config_of_mouse : extract_state :=
  mk_extract [mk_config (wire config_of_mouse) zalloc_usb_interface [] 0]
             [] 0 (Some 0) None 1 0 0 2 9.

(** A configuration record of 8 bytes that claims one interface. *)
Definition short_config : desc_record := record 2 [9; 0; 1; 1; 0; 128].

(** ** Bytes attributed by the walk *)

(** The bytes a structure holds of its record: the copy takes bLength
    bytes, and the first of them is bLength itself. *)
Definition stored_endpoint (e : usb_endpoint_descriptor) : nat :=
  bLength (e_image e) + e_extralen e.

Definition stored_interface (i : usb_interface_descriptor) : nat :=
  bLength (i_image i) + i_extralen i + sum_list_with stored_endpoint (endpoint i).

Definition stored_config (c : usb_config_descriptor) : nat :=
  bLength (c_image c) + c_extralen c
  + sum_list_with stored_interface (altsetting (interface c)).

(** All configuration, interface and endpoint records, all extra buffers,
    and the other bucket. *)
Definition stored (t : list usb_config_descriptor) (odesc : list byte) : nat :=
  sum_list_with stored_config t + length odesc.

(** The claim that the walk over the stream [B] attributes every byte. *)
Definition attributes_every_byte (B : list byte) : Prop :=
  exists l t o,
    extract_config_descriptors B (length B) = Ok (l, t, o) /\
    stored t o = length B.

(** Where a walk stands, as far as the place of the next record goes: is a
    configuration open, has it an alternate setting, and the type of the
    record before. *)
Record shape := mk_shape { open_cfg : bool; open_itf : bool; last_ty : nat }.

(** The next record has a place: a CONFIG record always; an INTERFACE
    record under an open configuration; an ENDPOINT record under an
    alternate setting of the open configuration; each no longer than the
    descriptor part of its structure.  A record of another type has a place
    unless it comes directly after an ENDPOINT record. *)
Definition place (s : shape) (r : desc_record) : option shape :=
  match u8 (r_type r) with
  | 2 => if decide (r_len r <= USB_DT_CONFIG_SIZE)
         then Some (mk_shape true false 2) else None
  | 4 => if decide (open_cfg s = true /\ r_len r <= USB_DT_INTERFACE_SIZE)
         then Some (mk_shape true true 4) else None
  | 5 => if decide (open_itf s = true /\ r_len r <= USB_DT_ENDPOINT_SIZE)
         then Some (mk_shape (open_cfg s) (open_itf s) 5) else None
  | ty => if decide (last_ty s = 5) then None
          else Some (mk_shape (open_cfg s) (open_itf s) ty)
  end.

Fixpoint places (s : shape) (rs : list desc_record) : option shape :=
  match rs with
  | [] => Some s
  | r :: rs' => match place s r with
                | Some s' => places s' rs'
                | None => None
                end
  end.

Definition every_record_placed (rs : list desc_record) : Prop :=
  is_Some (places (mk_shape false false 0) rs).

(** An INTERFACE record with no configuration before it. *)
Definition orphan_interface : desc_record := record 4 [0; 0; 1; 3; 1; 2; 0].

(** What the cursors and counters of the walk look like when every record
    so far had its place: the cursors point to the last configuration and
    to its last alternate setting, the counters are the lengths of the
    arrays, and the bytes stored are the bytes walked. *)
Definition walk_inv (s : shape) (st : extract_state) : Prop :=
  n_cdesc st = length (x_cdesc st) /\
  odesclen st = length (x_odesc st) /\
  last_bDescriptorType st = last_ty s /\
  stored (x_cdesc st) (x_odesc st) = parsed st /\
  (last_ty s = 2 -> open_cfg s = true) /\
  (last_ty s = 4 -> open_itf s = true) /\
  (if open_cfg s
   then exists cs c,
          x_cdesc st = cs ++ [c] /\
          cdescp st = Some (length cs) /\
          c_extralen c = length (c_extra c) /\
          n_idesc st = length (altsetting (interface c)) /\
          (if open_itf s
           then exists alts i,
                  altsetting (interface c) = alts ++ [i] /\
                  idescp st = Some (length cs, length alts) /\
                  i_extralen i = length (i_extra i) /\
                  n_edesc st = length (endpoint i)
           else True)
   else open_itf s = false).

(** ** Endpoint 0 *)

(** The claim that, in the tree dev.config points to, every alternate
    setting of every configuration starts with an endpoint that carries
    bMaxPacketSize0. *)
Definition endpoint0_in_every_altsetting (w : world) (dev : N) : Prop :=
  exists d t,
    w_dev w !! dev = Some d /\
    w_cfg w !! config d = Some t /\
    forall c i, c ∈ t -> i ∈ altsetting (interface c) ->
      exists e0 eps, endpoint i = e0 :: eps /\
                     wMaxPacketSize e0 = bMaxPacketSize0 (descriptor d).

(** A configuration with two interfaces of one endpoint each; the endpoints
    have wMaxPacketSize 64. *)
Definition config_of_two : desc_record := record 2 [32; 0; 2; 1; 0; 128; 50].
Definition interface_a : desc_record := record 4 [0; 0; 1; 3; 1; 1; 0].
Definition endpoint_a : desc_record := record 5 [129; 3; 64; 0; 10].
Definition interface_b : desc_record := record 4 [1; 0; 1; 3; 1; 2; 0].
Definition endpoint_b : desc_record := record 5 [130; 3; 64; 0; 10].

Definition two_interfaces : list desc_record :=
  [config_of_two; interface_a; endpoint_a; interface_b; endpoint_b].


(** The endpoint structure the walk makes of an ENDPOINT record. *)
Definition endpoint_of_record (r : desc_record) : usb_endpoint_descriptor :=
  mk_endpoint (wire r ++ replicate (USB_DT_ENDPOINT_SIZE - r_len r) x00) [] 0.

(** The state of the walk at the end of [two_interfaces]. *)
Definition after_two_interfaces : extract_state :=
  mk_extract
    [mk_config (wire config_of_two)
       (mk_interface
          [mk_interface_descriptor (wire interface_a) [endpoint_of_record endpoint_a] [] 0;
           mk_interface_descriptor (wire interface_b) [endpoint_of_record endpoint_b] [] 0]
          2) [] 0]
    [] 0 (Some 0) (Some (0, 1)) 1 2 1 5 41.

(** The first configuration of the tree [t] has the image [cimg]; its first
    alternate setting has the image [img] and the endpoint array [eps]. *)
Definition first_altsetting (t : list usb_config_descriptor)
    (cimg img : list byte) (eps : list usb_endpoint_descriptor) : Prop :=
  exists c cs i alts,
    t = c :: cs /\ altsetting (interface c) = i :: alts /\
    c_image c = cimg /\ i_image i = img /\ endpoint i = eps.

(** The walk has left the first alternate setting of the first
    configuration behind: no cursor will reach it again. *)
Definition past_first_altsetting (cimg img : list byte)
    (eps : list usb_endpoint_descriptor) (st : extract_state) : Prop :=
  first_altsetting (x_cdesc st) cimg img eps /\
  1 <= n_cdesc st /\
  (cdescp st = Some 0 -> 1 <= n_idesc st) /\
  idescp st <> Some (0, 0).

(** The state of the walk after a CONFIG record, an INTERFACE record and
    the ENDPOINT records that make up [eps]: one configuration with one
    alternate setting, and both cursors on them. *)
Definition first_altsetting_state (cimg iimg : list byte)
    (eps : list usb_endpoint_descriptor) (last parsed_ : nat) : extract_state :=
  mk_extract [mk_config cimg (mk_interface [mk_interface_descriptor iimg eps [] 0] 1) [] 0]
             [] 0 (Some 0) (Some (0, 0)) 1 1 (length eps) last parsed_.

Definition image_of_record (size : nat) (r : desc_record) : list byte :=
  wire r ++ replicate (size - r_len r) x00.

(** A host with no device, with the hook that watches for SetAddress. *)
Definition empty_host : world :=
  mk_world (mk_host NULL [[]; []; [mk_hook 8192%N 0 cb_new_usb_device NULL]]
                    0%N (Some (mk_bus NULL)))
           ∅ ∅ 8193%N [].

(** The answers of the mouse of scenario S1. *)
Definition mouse_answers : responses :=
  mk_responses (mk_response 8 (bytes [18;1;0;2;0;0;0;8]))
               (mk_response 18 (bytes [18;1;0;2;0;0;0;8;109;4;119;192;0;114;1;2;0;1]))
               (mk_response 34 (stream mouse_config)).

(** The same host after a connect on port 1. *)
Definition port1_connected : world :=
  mk_world (mk_host NULL [[]; []; [mk_hook 8192%N 0 cb_new_usb_device NULL]]
                    1%N (Some (mk_bus NULL)))
           ∅ ∅ 8193%N [].

(** ** Records outside the three standard types *)

(** A record that is neither a CONFIG, nor an INTERFACE, nor an ENDPOINT
    record: it takes the [default] branch of the switch. *)
Definition other_type (r : desc_record) : Prop :=
  u8 (r_type r) <> 2 /\ u8 (r_type r) <> 4 /\ u8 (r_type r) <> 5.

(** The state of the walk after a CONFIG record, an INTERFACE record and a
    record [o] of another type: the record is the extra of the alternate
    setting. *)
Definition interface_extra_state (cimg iimg : list byte) (o : desc_record)
    (parsed_ : nat) : extract_state :=
  mk_extract [mk_config cimg
                (mk_interface [mk_interface_descriptor iimg [] (wire o) (r_len o)] 1) [] 0]
             [] 0 (Some 0) (Some (0, 0)) 1 1 0 (u8 (r_type o)) parsed_.

(** The state of the walk when a second CONFIG record has followed the
    first alternate setting and its endpoints [eps]: the configuration
    cursor is on the new configuration, the interface cursor still on the
    alternate setting of the first one. *)
Definition second_config_state (cimg iimg : list byte)
    (eps : list usb_endpoint_descriptor) (cimg2 : list byte) (parsed_ : nat)
    : extract_state :=
  mk_extract [mk_config cimg (mk_interface [mk_interface_descriptor iimg eps [] 0] 1) [] 0;
              mk_config cimg2 zalloc_usb_interface [] 0]
             [] 0 (Some 1) (Some (0, 0)) 2 0 0 2 parsed_.

(** ** What a device is, apart from its links *)

Definition ident (d : usb_device)
    : nat * N * ud_status * list byte * N * option usb_device_handle :=
  (devnum d, portno d, bStatus d, descriptor d, config d, handle d).

(** Two device maps with the same devices, each with the same fields apart
    from [next] and [prev]. *)
Definition same_ids (m m' : gmap N usb_device) : Prop :=
  forall q, ident <$> m' !! q = ident <$> m !! q.

(** [dev->handle && dev->handle->remove] *)
Definition has_remove (d : usb_device) : bool :=
  match handle d with
  | Some hd => remove hd
  | None => false
  end.

(** Every hook of a chain is an object of its own. *)
Definition hooks_distinct (h : usb_host) : Prop :=
  forall phase, NoDup (hk_addr <$> phase_chain h phase).

(** ** Addresses and ports in the registry *)

(** No two devices of the chain [l] share an address or a port. *)
Definition unique_ids (w : world) (l : list N) : Prop :=
  forall p q dp dq, p ∈ l -> q ∈ l -> p <> q ->
    w_dev w !! p = Some dp -> w_dev w !! q = Some dq ->
    devnum dp <> devnum dq /\ portno dp <> portno dq.

(** The hooks of the host are objects of the heap, and so are the devices
    they point back to. *)
Definition hooks_in_heap (w : world) : Prop :=
  forall phase hk, hk ∈ phase_chain (w_host w) phase ->
    (hk_addr hk < w_brk w)%N /\ (hk_dev hk < w_brk w)%N.

(** The hook new_usb_device registers for the device [dev]. *)
Definition set_configuration_hook (a : N) (devadr : nat) (dev : N) : usb_hook :=
  mk_hook a devadr cb_device_state_change dev.

(** ** usb_init_device_monitor *)

(** The hook that watches for SetAddress: it matches every address and has
    no device as back-link. *)
Definition usb_init_device_monitor (w : world) : world :=
  let hk := mk_hook (w_brk w) 0 cb_new_usb_device NULL in
  mk_world (usb_hook_register (w_host w) USB_HOOK_REPLY hk)
           (w_dev w) (w_cfg w) (N.succ (w_brk w)) (w_removed w).

(** ** dprintf_port *)

(** Modelled from the spec: USB_HUB_SHIFT comes from a header that is not
    among the sources; a port identifier packs its hub-port numbers into
    bytes, the nearest upstream port in the least significant one, so the
    shift from one to the next is 8 bits. *)
Definition USB_HUB_SHIFT : N := 8.

(** What [dprintf] is given: a number for "%d", or the text "-". *)
Inductive port_token := port_number (n : N) | port_dash.

(** The turns of the loop for the indices below [i], from [i - 1] down
    to 0. *)
Fixpoint dprintf_port_loop (i : nat) (port : N) : list port_token :=
  match i with
  | 0 => []
  | S i' =>
      port_number (N.land (N.shiftr port (USB_HUB_SHIFT * N.of_nat i')) 255)
      :: (if decide (i' ≠ 0) then [port_dash] else [])
      ++ dprintf_port_loop i' port
  end.

(** USB_HUB_LIMIT, the number of turns of the loop, is a macro of the same
    header; neither the sources nor the spec give its value, so it is an
    argument here.  Up to 8 every shift stays below the 64 bits of the
    identifier. *)
Definition dprintf_port (USB_HUB_LIMIT : nat) (port : N) : list port_token :=
  dprintf_port_loop USB_HUB_LIMIT port.

(** The port identifier a printed path stands for: the numbers are its
    bytes, the most significant one first. *)
Definition port_of_path (path : list port_token) : N :=
  fold_left (fun acc t => match t with
                          | port_number n => (acc * 256 + n)%N
                          | port_dash => acc
                          end) path 0%N.

(** The numbers of a printed path. *)
Definition path_numbers (path : list port_token) : list N :=
  omap (fun t => match t with port_number n => Some n | port_dash => None end) path.

(** ** The first alternate setting, whatever surrounds it *)

(** A CONFIG record has been walked and no INTERFACE record yet: one
    configuration with the image [cimg] and no alternate setting. *)
Definition config_open (cimg : list byte) (st : extract_state) : Prop :=
  (exists cex, x_cdesc st = [mk_config cimg zalloc_usb_interface cex (length cex)]) /\
  cdescp st = Some 0 /\ idescp st = None /\
  n_cdesc st = 1 /\ n_idesc st = 0 /\
  odesclen st = length (x_odesc st) /\
  last_bDescriptorType st <> 4.

(** The walk is inside the first alternate setting of the first
    configuration: the images are [cimg] and [iimg], the endpoints parsed so
    far are [eps], and both cursors are on them. *)
Definition first_altsetting_open (cimg iimg : list byte)
    (eps : list usb_endpoint_descriptor) (st : extract_state) : Prop :=
  (exists cex iex,
     x_cdesc st
     = [mk_config cimg
          (mk_interface [mk_interface_descriptor iimg eps iex (length iex)] 1)
          cex (length cex)]) /\
  cdescp st = Some 0 /\ idescp st = Some (0, 0) /\
  n_cdesc st = 1 /\ n_idesc st = 1 /\ n_edesc st = length eps /\
  odesclen st = length (x_odesc st).

(** The ENDPOINT records among [rs], as the walk stores them, in wire
    order. *)
Definition endpoints_of (rs : list desc_record) : list usb_endpoint_descriptor :=
  map endpoint_of_record (filter (fun r => u8 (r_type r) = 5) rs).

(** The claim that a CONFIG response is dropped when its first
    configuration claims interfaces and the bytes the walk has parsed are
    at most the 9 bytes of a bare configuration header: dev.config and the
    configuration arrays stay as they were. *)
Definition discards_by_parsed_length (w : world) (buf : list byte) (len : nat)
    (dev : N) : Prop :=
  forall st c cs d,
    extract_loop len buf len extract_init = Ok st ->
    x_cdesc st = c :: cs ->
    bNumInterfaces c <> 0 ->
    parsed st <= USB_DT_CONFIG_SIZE ->
    w_dev w !! dev = Some d ->
    exists w',
      parse_descriptor w USB_DT_CONFIG buf len dev = Ok (USB_HOOK_PASS, w') /\
      w_dev w' !! dev = Some d /\ w_cfg w' = w_cfg w.

(** * Properties *)

Lemma bind_Ok {A B} (m : result A) (f : A -> result B) (b : B) :
  m ≫= f = Ok b -> exists a, m = Ok a /\ f a = Ok b.
Proof. destruct m as [a| |]; simpl; intros H; try discriminate. by exists a. Qed.

Lemma of_option_Ok {A} (o : option A) (a : A) : of_option o = Ok a <-> o = Some a.
Proof. destruct o; simpl; split; congruence. Qed.

(** ** Descriptor types the parser is not interested in *)

(** C10: for a descriptor type other than DEVICE and CONFIG, parse_descriptor
    returns USB_HOOK_PASS and leaves the whole memory as it was: no field of
    the device changes, and no configuration array is allocated, replaced or
    freed. *)
Theorem parse_descriptor_other_type_unchanged
    (w : world) (desc : nat) (buf : list byte) (len : nat) (dev : N) (d : usb_device) :
  w_dev w !! dev = Some d ->
  desc <> USB_DT_DEVICE ->
  desc <> USB_DT_CONFIG ->
  parse_descriptor w desc buf len dev = Ok (USB_HOOK_PASS, w).
Proof.
  intros Hd H1 H2. unfold parse_descriptor, deref. rewrite Hd. simpl.
  destruct desc as [|[|[|desc]]]; try reflexivity.
  - by destruct H1.
  - by destruct H2.
Qed.

Lemma parse_descriptor_other_type_unchanged_witness :
  parse_descriptor one_device USB_DT_STRING (bytes [4; 3; 9; 4]) 4 4096%N
    = Ok (USB_HOOK_PASS, one_device).
Proof.
  apply (parse_descriptor_other_type_unchanged one_device USB_DT_STRING
           (bytes [4; 3; 9; 4]) 4 4096%N mouse).
  - reflexivity.
  - discriminate.
  - discriminate.
Defined.

(** ** The DEVICE descriptor *)

(** C6, as stated, fails: a response of 19 bytes is copied in full, past the
    end of the 18-byte descriptor; nothing cuts the length to 18. *)
Lemma device_response_of_19_bytes_not_cut :
  ~ copies_min_len_18 one_device (replicate 19 x01) 19 4096%N.
Proof.
  intros (d & w' & d' & _ & H & _). vm_compute in H. discriminate H.
Qed.

(** C6, amended: a DEVICE response of [len <= 18] bytes is copied into the
    first [len] bytes of dev.descriptor; the bytes of dev.descriptor from
    [len] on, the other fields of the device and the rest of the memory stay
    as they were. *)
Theorem parse_descriptor_device_copies_len
    (w : world) (buf : list byte) (len : nat) (dev : N) (d : usb_device) :
  w_dev w !! dev = Some d ->
  length (descriptor d) = USB_DT_DEVICE_SIZE ->
  len <= USB_DT_DEVICE_SIZE ->
  len <= length buf ->
  exists img,
    parse_descriptor w USB_DT_DEVICE buf len dev
      = Ok (USB_HOOK_PASS, set_dev (<[dev := set_descriptor img d]> (w_dev w)) w) /\
    length img = USB_DT_DEVICE_SIZE /\
    take len img = take len buf /\
    drop len img = drop len (descriptor d).
Proof.
  intros Hd H18 Hlen Hbuf.
  exists (take len buf ++ drop len (descriptor d)).
  split; [|split; [|split]].
  - unfold parse_descriptor, deref. rewrite Hd. simpl.
    unfold parse_device, read_bytes. simpl.
    rewrite decide_True by lia. simpl.
    rewrite decide_True by lia. reflexivity.
  - rewrite length_app, length_take, length_drop. lia.
  - rewrite take_app_length' by (rewrite length_take; lia). reflexivity.
  - rewrite drop_app_length' by (rewrite length_take; lia). reflexivity.
Qed.

Lemma parse_descriptor_device_copies_len_witness :
  exists img,
    parse_descriptor one_device USB_DT_DEVICE (bytes [18;1;16;1;0;0;0;64]) 8 4096%N
      = Ok (USB_HOOK_PASS,
            set_dev (<[4096%N := set_descriptor img mouse]> (w_dev one_device)) one_device) /\
    length img = USB_DT_DEVICE_SIZE /\
    take 8 img = take 8 (bytes [18;1;16;1;0;0;0;64]) /\
    drop 8 img = drop 8 (descriptor mouse).
Proof.
  apply (parse_descriptor_device_copies_len one_device (bytes [18;1;16;1;0;0;0;64])
           8 4096%N mouse).
  - reflexivity.
  - reflexivity.
  - unfold USB_DT_DEVICE_SIZE. lia.
  - simpl. lia.
Defined.

(** ** The device chain *)

Section Chain.
Context (m : gmap N usb_device).

Lemma dchain_weaken before p l : dchain m before p l -> dchain m None p l.
Proof.
  intros H. destruct H; [constructor|].
  econstructor; eauto. intros q Hq. discriminate Hq.
Qed.

Lemma dchain_functional b1 b2 p l1 l2 :
  dchain m b1 p l1 -> dchain m b2 p l2 -> l1 = l2.
Proof.
  intros H1. revert b2 l2.
  induction H1 as [b|b p d l Hp Hd Hb Hl IH]; intros b2 l2 H2.
  - inversion H2; subst; [reflexivity|congruence].
  - inversion H2 as [|? ? d' l' ? Hd' ? Hl']; subst; [congruence|].
    assert (d' = d) by congruence. subst d'.
    f_equal. eapply IH; eauto.
Qed.

Lemma dchain_split before p l q :
  dchain m before p l -> q ∈ l ->
  exists l1 l2, l = l1 ++ q :: l2 /\ dchain m None q (q :: l2).
Proof.
  induction 1 as [b|b p d l Hp Hd Hb Hl IH]; intros Hq.
  - by apply elem_of_nil in Hq.
  - apply elem_of_cons in Hq as [->|Hq].
    + exists [], l. split; [reflexivity|].
      econstructor; eauto. intros ? ?; discriminate.
    + destruct (IH Hq) as (l1 & l2 & -> & Hc).
      exists (p :: l1), l2. split; [reflexivity|exact Hc].
Qed.

Lemma dchain_NoDup before p l : dchain m before p l -> NoDup l.
Proof.
  induction 1 as [b|b p d l Hp Hd Hb Hl IH]; [constructor|].
  constructor; [|exact IH].
  intros Hin.
  destruct (dchain_split _ _ _ _ Hl Hin) as (l1 & l2 & -> & Hc).
  assert (Hc' : dchain m b p (p :: l1 ++ p :: l2)) by (econstructor; eauto).
  pose proof (dchain_functional _ _ _ _ _ Hc Hc') as Heq.
  apply (f_equal length) in Heq. simpl in Heq.
  rewrite length_app in Heq. simpl in Heq. lia.
Qed.

Lemma dchain_lookup before p l q :
  dchain m before p l -> q ∈ l -> q <> NULL /\ is_Some (m !! q).
Proof.
  induction 1 as [b|b p d l Hp Hd Hb Hl IH]; intros Hq.
  - by apply elem_of_nil in Hq.
  - apply elem_of_cons in Hq as [->|Hq]; eauto.
Qed.

Lemma dchain_length before p l : dchain m before p l -> length l <= size m.
Proof.
  intros H.
  rewrite <- (size_dom (D := gset N)). unfold size, set_size. simpl.
  apply submseteq_length, NoDup_submseteq; [by eapply dchain_NoDup|].
  intros q Hq. apply elem_of_elements, elem_of_dom.
  by eapply dchain_lookup.
Qed.
End Chain.

(** A scan that meets no device with the property walks the whole chain and
    returns [NULL]. *)
Lemma scan_chain_none (w : world) (P : usb_device -> bool) before p l fuel :
  dchain (w_dev w) before p l ->
  (forall q d, q ∈ l -> w_dev w !! q = Some d -> P d = false) ->
  length l <= fuel ->
  scan_chain fuel w P p = Ok NULL.
Proof.
  intros H. revert fuel.
  induction H as [b|b p d l Hp Hd Hb Hl IH]; intros fuel HP Hfuel.
  - destruct fuel; reflexivity.
  - destruct fuel as [|fuel]; simpl in Hfuel; [lia|].
    simpl. rewrite decide_False by done.
    unfold deref. rewrite Hd. simpl.
    rewrite (HP p d (list_elem_of_here _ _) Hd).
    apply IH; [|lia].
    intros q dq Hq. apply HP. by apply list_elem_of_further.
Qed.

Lemma get_device_by_port_none (w : world) (port : N) (l : list N) :
  registry_ok w l ->
  (forall q d, q ∈ l -> w_dev w !! q = Some d -> portno d <> port) ->
  get_device_by_port w port = Ok NULL.
Proof.
  intros [Hc _] Hport. unfold get_device_by_port.
  eapply scan_chain_none; [exact Hc| |by eapply dchain_length].
  intros q d Hq Hd. apply bool_decide_eq_false. by eapply Hport.
Qed.

Lemma get_device_by_address_none (w : world) (address : nat) (l : list N) :
  registry_ok w l ->
  (forall q d, q ∈ l -> w_dev w !! q = Some d -> devnum d <> address) ->
  get_device_by_address w address = Ok NULL.
Proof.
  intros [Hc _] Hadr. unfold get_device_by_address.
  eapply scan_chain_none; [exact Hc| |by eapply dchain_length].
  intros q d Hq Hd. apply bool_decide_eq_false. by eapply Hadr.
Qed.

(** ** Port reset *)

Lemma reset_flag_set (status : N) (offset : nat) :
  offset < 16 ->
  N.testbit status (N.of_nat offset) = true ->
  N.land status (N.shiftl 1 (N.of_nat offset) mod 2 ^ 16) <> 0%N.
Proof.
  intros Hlt Hbit Hz.
  rewrite N.shiftl_1_l in Hz.
  rewrite N.mod_small in Hz by (apply N.pow_lt_mono_r; lia).
  apply (f_equal (fun x => N.testbit x (N.of_nat offset))) in Hz.
  rewrite N.land_spec, Hbit, N.pow2_bits_true, N.bits_0 in Hz.
  discriminate Hz.
Qed.

(** C9: when the reset bit of the status word is set and no device of the
    chain is on the port, handle_port_reset returns (the value 1) and leaves
    the registry, the last-changed port and the rest of the memory as they
    were. *)
Theorem handle_port_reset_unknown_port
    (w : world) (l : list N) (portno_ : N) (status : N) (offset : nat) :
  registry_ok w l ->
  (forall q d, q ∈ l -> w_dev w !! q = Some d -> portno d <> u64_add portno_ 1) ->
  offset < 16 ->
  N.testbit status (N.of_nat offset) = true ->
  handle_port_reset w portno_ status offset = Ok (1, w).
Proof.
  intros Hreg Hport Hoff Hbit. unfold handle_port_reset.
  rewrite decide_False by lia.
  rewrite decide_False by (by apply reset_flag_set).
  rewrite (get_device_by_port_none w _ l Hreg Hport). reflexivity.
Qed.

Lemma one_device_ok : registry_ok one_device [4096%N].
Proof.
  split.
  - eapply (dchain_cons _ _ _ mouse); [done|reflexivity|intros ? ?; discriminate|].
    apply dchain_nil.
  - intros b Hb. injection Hb as <-. reflexivity.
Qed.

Lemma handle_port_reset_unknown_port_witness :
  handle_port_reset one_device 5%N 512%N 9 = Ok (1, one_device).
Proof.
  apply (handle_port_reset_unknown_port one_device [4096%N] 5%N 512%N 9).
  - exact one_device_ok.
  - intros q d Hq Hd. apply list_elem_of_singleton in Hq. subst q.
    vm_compute in Hd. injection Hd as <-. discriminate.
  - lia.
  - reflexivity.
Defined.

(** ** Hooks of a freed device *)

Lemma phase_chain_unregister (h : usb_host) (phase : nat) (hk : usb_hook) (ph : nat) :
  phase_chain (usb_hook_unregister h (phase + 1) hk) ph
  = if decide (ph = phase)
    then filter (fun x => hk_addr x <> hk_addr hk) (phase_chain h ph)
    else phase_chain h ph.
Proof.
  unfold phase_chain, usb_hook_unregister. simpl.
  replace (phase + 1 - 1) with phase by lia.
  destruct (decide (ph = phase)) as [->|Hne].
  - rewrite list_lookup_alter_eq. by destruct (hook h !! phase).
  - by rewrite list_lookup_alter_ne.
Qed.

Lemma unhook_fold (dev : N) (phase : nat) (snap : list usb_hook) (h : usb_host) :
  let h' := fold_left (fun h hk => if decide (hk_dev hk = dev)
                                 then usb_hook_unregister h (phase + 1) hk else h) snap h in
  device h' = device h /\ bus h' = bus h /\
  last_changed_port h' = last_changed_port h /\
  (forall ph x, x ∈ phase_chain h' ph -> x ∈ phase_chain h ph) /\
  (forall x hk, x ∈ phase_chain h' phase -> hk ∈ snap -> hk_dev hk = dev ->
                hk_addr x <> hk_addr hk).
Proof.
  revert h. induction snap as [|hk0 snap IH]; intros h; simpl.
  - repeat split; try done. intros x hk _ Hhk. by apply elem_of_nil in Hhk.
  - set (h1 := if decide (hk_dev hk0 = dev)
               then usb_hook_unregister h (phase + 1) hk0 else h).
    destruct (IH h1) as (Hdev & Hbus & Hport & Hsub & Hclean).
    assert (Hsub1 : forall ph x, x ∈ phase_chain h1 ph -> x ∈ phase_chain h ph).
    { intros ph x. unfold h1. destruct (decide (hk_dev hk0 = dev)); [|done].
      rewrite phase_chain_unregister. destruct (decide (ph = phase)); [|done].
      intros Hx. by apply list_elem_of_filter in Hx as [_ Hx]. }
    assert (Hf : device h1 = device h /\ bus h1 = bus h
                 /\ last_changed_port h1 = last_changed_port h).
    { unfold h1. by destruct (decide (hk_dev hk0 = dev)). }
    destruct Hf as (Hf1 & Hf2 & Hf3).
    repeat split; try congruence.
    + intros ph x Hx. by apply Hsub1, Hsub.
    + intros x hk Hx Hhk Hdevhk.
      apply elem_of_cons in Hhk as [->|Hhk]; [|by eapply Hclean].
      apply Hsub in Hx. unfold h1 in Hx.
      rewrite decide_True in Hx by done.
      rewrite phase_chain_unregister, decide_True in Hx by done.
      by apply list_elem_of_filter in Hx as [Hx _].
Qed.

Lemma unhook_phase_spec (dev : N) (h : usb_host) (phase : nat) :
  let h' := unhook_phase dev h phase in
  device h' = device h /\ bus h' = bus h /\
  last_changed_port h' = last_changed_port h /\
  (forall ph x, x ∈ phase_chain h' ph -> x ∈ phase_chain h ph) /\
  (forall x, x ∈ phase_chain h' phase -> hk_dev x <> dev).
Proof.
  destruct (unhook_fold dev phase (phase_chain h phase) h)
    as (Hdev & Hbus & Hport & Hsub & Hclean).
  unfold unhook_phase. repeat split; try done.
  intros x Hx Hd. by eapply (Hclean x x Hx); [apply Hsub|..].
Qed.

Lemma unhook_device_spec (dev : N) (h : usb_host) :
  let h' := unhook_device dev h in
  device h' = device h /\ bus h' = bus h /\
  last_changed_port h' = last_changed_port h /\
  (forall phase x, phase < USB_HOOK_NUM_PHASE -> x ∈ phase_chain h' phase -> hk_dev x <> dev).
Proof.
  unfold unhook_device, USB_HOOK_NUM_PHASE. simpl.
  destruct (unhook_phase_spec dev h 0) as (A1 & A2 & A3 & A4 & A5).
  set (h1 := unhook_phase dev h 0) in *.
  destruct (unhook_phase_spec dev h1 1) as (B1 & B2 & B3 & B4 & B5).
  set (h2 := unhook_phase dev h1 1) in *.
  destruct (unhook_phase_spec dev h2 2) as (C1 & C2 & C3 & C4 & C5).
  set (h3 := unhook_phase dev h2 2) in *.
  repeat split; try congruence.
  intros phase x Hphase Hx.
  destruct phase as [|[|[|phase]]]; [| | |lia].
  - by apply A5, B4, C4.
  - by apply B5, C4.
  - by apply C5.
Qed.

(** ** Unlinking a device *)

Lemma dchain_ext (m m' : gmap N usb_device) before p l :
  dchain m before p l ->
  (forall q, q ∈ l -> m' !! q = m !! q) ->
  dchain m' before p l.
Proof.
  induction 1 as [b|b p d l Hp Hd Hb Hl IH]; intros Hagree; [constructor|].
  econstructor; eauto.
  - rewrite Hagree; [done|apply list_elem_of_here].
  - apply IH. intros q Hq. apply Hagree. by apply list_elem_of_further.
Qed.

Lemma dchain_tail (m : gmap N usb_device) before p d l :
  dchain m before p (p :: l) -> m !! p = Some d ->
  dchain m (Some p) (next d) l /\
  (l = [] /\ next d = NULL \/ exists l', l = next d :: l' /\ next d <> NULL).
Proof.
  intros H Hd. inversion H as [|? ? d' ? Hp Hd' Hb Hl]; subst.
  assert (d' = d) by congruence. subst d'.
  split; [done|].
  inversion Hl; subst; [by left|right; eauto].
Qed.

(** Taking [dev] out from inside a chain: the device before it gets the
    [next] of [dev], the device after it the [prev] of [dev]. *)
Lemma dchain_unlink (m : gmap N usb_device) before p l1 dev l2 d :
  dchain m before p (l1 ++ dev :: l2) ->
  l1 <> [] ->
  m !! dev = Some d ->
  exists dp,
    m !! prev d = Some dp /\ prev d <> NULL /\ prev d ∈ l1 /\
    forall m' : gmap N usb_device,
      m' !! prev d = Some (set_next (next d) dp) ->
      (forall dn, next d <> NULL -> m !! next d = Some dn ->
                  m' !! next d = Some (set_prev (prev d) dn)) ->
      (forall q, q <> dev -> q <> prev d -> q <> next d -> m' !! q = m !! q) ->
      dchain m' before p (l1 ++ l2).
Proof.
  intros Hc. pose proof (dchain_NoDup _ _ _ _ Hc) as Hnd. revert before p Hc Hnd.
  induction l1 as [|a l1 IH]; intros before p Hc Hnd Hne Hd; [done|].
  simpl in Hc. inversion Hc as [|? ? da ? Ha Hda Hb Hl]; subst.
  simpl in Hnd. apply NoDup_cons in Hnd as [Ha_notin Hnd].
  destruct l1 as [|b l1].
  - (* [a] is the device before [dev] *)
    simpl in *.
    inversion Hl as [|? ? d' ? Hdev Hd' Hprev Hl2]; subst.
    assert (d' = d) by congruence. subst d'.
    pose proof (Hprev a eq_refl) as Hpa.
    destruct (dchain_tail _ _ _ _ _ Hl Hd) as [_ Hcases].
    apply NoDup_cons in Hnd as [Hdev_notin Hnd2].
    exists da. rewrite Hpa. repeat split; [done|done|apply list_elem_of_here|].
    intros m' Hm'a Hm'n Hm'q.
    econstructor; [done|exact Hm'a|exact Hb|]. simpl.
    destruct Hcases as [[-> Hnull]|(l2' & -> & Hnn)].
    + rewrite Hnull. constructor.
    + inversion Hl2 as [|? ? dn ? _ Hdn Hpn Hl3]; subst.
      econstructor; [done|by apply Hm'n| |].
      * intros q Hq. injection Hq as <-. reflexivity.
      * simpl. eapply dchain_ext; [exact Hl3|].
        intros q Hq. apply Hm'q.
        -- intros ->. apply Hdev_notin. by apply list_elem_of_further.
        -- intros ->. apply Ha_notin.
           by apply list_elem_of_further, list_elem_of_further.
        -- intros ->. apply NoDup_cons in Hnd2 as [Hn _]. done.
  - (* the device before [dev] is further on *)
    destruct (IH (Some a) (next da) Hl Hnd) as (dp & Hdp & Hpn & Hpin & Hrest);
      [done|done|].
    exists dp. repeat split; [done|done|by apply list_elem_of_further|].
    intros m' Hm'p Hm'n Hm'q.
    assert (Hdev_in : dev ∈ (b :: l1) ++ dev :: l2)
      by (apply elem_of_app; right; apply list_elem_of_here).
    assert (Hprev_in : prev d ∈ (b :: l1) ++ dev :: l2)
      by (apply elem_of_app; by left).
    destruct (dchain_split _ _ _ _ _ Hl Hdev_in) as (k1 & k2 & Hk & Hcdev).
    destruct (dchain_tail _ _ _ _ _ Hcdev Hd) as [Hctail Hcases].
    assert (Hnext : next d = NULL \/ next d ∈ (b :: l1) ++ dev :: l2).
    { destruct Hcases as [[_ ?]|(l' & -> & _)]; [by left|right].
      rewrite Hk. apply elem_of_app. right.
      apply list_elem_of_further, list_elem_of_here. }
    econstructor; [done| |exact Hb|].
    + rewrite Hm'q; [done| | |].
      * intros ->. done.
      * intros ->. done.
      * intros Heq. destruct Hnext as [Hn|Hn]; [congruence|]. by rewrite <- Heq in Hn.
    + change ((a :: b :: l1) ++ l2) with (a :: ((b :: l1) ++ l2)).
      by apply Hrest.
Qed.

Lemma dchain_drop (m : gmap N usb_device) before p l1 q l2 :
  dchain m before p (l1 ++ q :: l2) -> exists b, dchain m b q (q :: l2).
Proof.
  revert before p. induction l1 as [|a l1 IH]; intros before p H; simpl in H.
  - inversion H; subst. eexists. econstructor; eauto.
  - inversion H; subst. eauto.
Qed.

Lemma mirror_bus_ok (h : usb_host) : mirror_ok (mirror_bus h).
Proof.
  unfold mirror_ok, mirror_bus, usb_get_bus.
  destruct (bus h) as [b0|] eqn:Hb; simpl.
  - intros b Heq. injection Heq as <-. reflexivity.
  - rewrite Hb. intros b Heq. discriminate Heq.
Qed.

Lemma mirror_bus_fields (h : usb_host) :
  device (mirror_bus h) = device h /\ hook (mirror_bus h) = hook h /\
  last_changed_port (mirror_bus h) = last_changed_port h.
Proof. unfold mirror_bus. by destruct (usb_get_bus h). Qed.

(** The links [free_device] rewrites take [dev] out of the chain and keep
    the chain of the other devices and the bus view in shape. *)
Lemma unlink_device_ok (w : world) (dev : N) (d : usb_device) (l1 l2 : list N) :
  registry_ok w (l1 ++ dev :: l2) ->
  w_dev w !! dev = Some d ->
  exists w3,
    unlink_device w dev d = Ok w3 /\
    registry_ok (set_dev (delete dev (w_dev w3)) w3) (l1 ++ l2) /\
    hook (w_host w3) = hook (w_host w) /\
    last_changed_port (w_host w3) = last_changed_port (w_host w) /\
    w_cfg w3 = w_cfg w /\ w_brk w3 = w_brk w /\ w_removed w3 = w_removed w.
Proof.
  intros [Hc Hm] Hd.
  pose proof (dchain_NoDup _ _ _ _ Hc) as Hnd.
  destruct (dchain_drop _ _ _ _ _ _ Hc) as [b Hcdev].
  destruct (dchain_tail _ _ _ _ _ Hcdev Hd) as [Hctail Hcases].
  apply NoDup_app in Hnd as (Hnd1 & Hsep & Hnd2).
  apply NoDup_cons in Hnd2 as [Hdev2 Hnd2].
  assert (Hdev1 : dev ∉ l1).
  { intros Hin. apply (Hsep _ Hin), list_elem_of_here. }
  unfold unlink_device.
  destruct l1 as [|a l1].
  - (* [dev] is the head *)
    simpl in Hc.
    assert (Hhead : device (w_host w) = dev) by (inversion Hc; congruence).
    rewrite decide_True by done. clear Hhead. simpl.
    destruct (mirror_bus_fields (set_device (next d) (w_host w))) as (F1 & F2 & F3).
    destruct Hcases as [[-> Hnull]|(l2' & -> & Hnext)].
    + rewrite decide_True by done.
      eexists. split; [reflexivity|]. simpl.
      repeat split; try done.
      * simpl. rewrite F1. simpl. rewrite Hnull. constructor.
      * apply mirror_bus_ok.
    + rewrite decide_False by done.
      inversion Hctail as [|? ? dn ? _ Hdn _ Hl3]; subst.
      unfold deref. simpl. rewrite Hdn. simpl.
      eexists. split; [reflexivity|]. simpl.
      repeat split; try done.
      * simpl. rewrite F1. simpl.
        apply NoDup_cons in Hnd2 as [Hn2 _].
        assert (Hne : next d <> dev).
        { intros Heq. apply Hdev2. rewrite Heq. apply list_elem_of_here. }
        econstructor; [done| |intros ? ?; discriminate|].
        -- rewrite lookup_delete_ne by done. apply lookup_insert_eq.
        -- simpl. eapply dchain_ext; [exact Hl3|].
           intros q Hq.
           rewrite lookup_delete_ne, lookup_insert_ne; [done| |].
           ++ intros Heq. apply Hn2. by rewrite Heq.
           ++ intros Heq. apply Hdev2. rewrite Heq. by apply list_elem_of_further.
      * apply mirror_bus_ok.
  - (* [dev] has a device before it *)
    simpl in Hc.
    assert (Hhead : device (w_host w) = a) by (inversion Hc; congruence).
    assert (Hne : device (w_host w) <> dev).
    { rewrite Hhead. intros ->. apply Hdev1, list_elem_of_here. }
    rewrite decide_False by done. clear Hhead Hne.
    destruct (dchain_unlink _ _ _ (a :: l1) dev l2 d Hc) as
      (dp & Hdp & Hpn & Hpin & Hrest); [done|done|].
    rewrite decide_False by done.
    unfold deref. rewrite Hdp. simpl.
    assert (Hpd : prev d <> dev) by (intros Heq; apply Hdev1; by rewrite <- Heq).
    destruct Hcases as [[-> Hnull]|(l2' & -> & Hnext)].
    + rewrite decide_True by done.
      eexists. split; [reflexivity|]. simpl.
      repeat split; try done. simpl.
      apply Hrest.
      * rewrite lookup_delete_ne by done. apply lookup_insert_eq.
      * intros dn Hnn. congruence.
      * intros q Hq1 Hq2 _. by rewrite lookup_delete_ne, lookup_insert_ne.
    + rewrite decide_False by done.
      assert (Hnp : next d <> prev d).
      { intros Heq. apply (Hsep _ Hpin). rewrite <- Heq.
        apply list_elem_of_further, list_elem_of_here. }
      assert (Hnd' : next d <> dev).
      { intros Heq. apply Hdev2. rewrite <- Heq at 1. apply list_elem_of_here. }
      inversion Hctail as [|? ? dn ? _ Hdn _ Hl3]; subst.
      simpl. rewrite lookup_insert_ne by done. rewrite Hdn. simpl.
      eexists. split; [reflexivity|]. simpl.
      repeat split; try done. simpl.
      apply Hrest.
      * rewrite lookup_delete_ne, lookup_insert_ne by done. apply lookup_insert_eq.
      * intros dn' _ Hdn'. assert (dn' = dn) by congruence. subst dn'.
        rewrite lookup_delete_ne by done. apply lookup_insert_eq.
      * intros q Hq1 Hq2 Hq3.
        by rewrite lookup_delete_ne, !lookup_insert_ne.
Qed.

Lemma registry_ok_frame (w w' : world) (l : list N) :
  w_dev w' = w_dev w ->
  device (w_host w') = device (w_host w) ->
  bus (w_host w') = bus (w_host w) ->
  registry_ok w l -> registry_ok w' l.
Proof.
  intros Hdev Hhead Hbus [Hc Hm]. split.
  - by rewrite Hdev, Hhead.
  - unfold mirror_ok. by rewrite Hbus, Hhead.
Qed.

(** The chain predicate gives the link invariant in the words of the spec. *)
Lemma dchain_prev_next (m : gmap N usb_device) before h l p d :
  dchain m before h l -> p ∈ l -> p <> h -> m !! p = Some d ->
  exists dp, m !! prev d = Some dp /\ next dp = p.
Proof.
  induction 1 as [b|b h dh l Hh Hdh Hb Hl IH]; intros Hin Hne Hd.
  - by apply elem_of_nil in Hin.
  - apply elem_of_cons in Hin as [->|Hin]; [done|].
    destruct (decide (p = next dh)) as [->|Hne'].
    + inversion Hl as [|? ? d' ? _ Hd' Hprev _]; subst.
      * by apply elem_of_nil in Hin.
      * assert (d' = d) by congruence. subst d'.
        exists dh. by rewrite (Hprev h eq_refl).
    + by apply IH.
Qed.

Lemma registry_link_invariant (w : world) (l : list N) :
  registry_ok w l -> link_invariant w l.
Proof.
  intros [Hc _] p d Hin Hd. split.
  - intros Hne. by eapply dchain_prev_next.
  - intros Hnext.
    destruct (dchain_split _ _ _ _ _ Hc Hin) as (l1 & l2 & _ & Hcp).
    destruct (dchain_tail _ _ _ _ _ Hcp Hd) as [Htail _].
    inversion Htail as [|? ? dn ? _ Hdn Hprev _]; subst; [congruence|].
    exists dn. by rewrite (Hprev p eq_refl).
Qed.

Lemma registry_next_in_chain (w : world) (l : list N) (q : N) (dq : usb_device) :
  registry_ok w l -> q ∈ l -> w_dev w !! q = Some dq ->
  next dq = NULL \/ next dq ∈ l.
Proof.
  intros [Hc _] Hin Hd.
  destruct (dchain_split _ _ _ _ _ Hc Hin) as (l1 & l2 & -> & Hcq).
  destruct (dchain_tail _ _ _ _ _ Hcq Hd) as [_ [[_ ?]|(l' & -> & _)]]; [by left|right].
  apply elem_of_app. right. apply list_elem_of_further, list_elem_of_here.
Qed.

Lemma free_config_descriptors_ok (w : world) (p : N) :
  config_freeable w p -> p <> NULL ->
  free_config_descriptors w p 1 = Ok (set_cfg (delete p (w_cfg w)) w).
Proof.
  intros [?|(t & Ht & Hlen & Hfree)] Hp; [done|].
  unfold free_config_descriptors. rewrite decide_False by done.
  rewrite Ht. simpl. rewrite decide_True by done. by rewrite Hfree.
Qed.

(** ** free_device *)

(** C5: free_device on a device of the chain returns 0; afterwards no hook
    on any phase chain of the host has the device as back-link, the device
    is gone from memory and from the chain, no device left in the chain
    points to it, and head, prev/next links and bus view are consistent. *)
Theorem free_device_unlinks_device_and_hooks
    (w : world) (l1 l2 : list N) (dev : N) (d : usb_device) :
  registry_ok w (l1 ++ dev :: l2) ->
  w_dev w !! dev = Some d ->
  config_freeable w (config d) ->
  exists w',
    free_device w dev = Ok (0, w') /\
    (forall phase hk, phase < USB_HOOK_NUM_PHASE ->
       hk ∈ phase_chain (w_host w') phase -> hk_dev hk <> dev) /\
    registry_ok w' (l1 ++ l2) /\
    link_invariant w' (l1 ++ l2) /\
    (dev ∉ l1 ++ l2) /\
    w_dev w' !! dev = None /\
    (forall q dq, q ∈ l1 ++ l2 -> w_dev w' !! q = Some dq ->
       next dq <> dev /\ (q <> device (w_host w') -> prev dq <> dev)).
Proof.
  intros Hreg Hd Hfree.
  destruct (unhook_device_spec dev (w_host w)) as (U1 & U2 & U3 & U4).
  set (w0 := set_host (unhook_device dev (w_host w)) w).
  assert (Hw1 : exists w1,
             (if decide (config d = NULL) then Ok w0
              else free_config_descriptors w0 (config d) 1) = Ok w1 /\
             w_host w1 = w_host w0 /\ w_dev w1 = w_dev w).
  { destruct (decide (config d = NULL)) as [Hn|Hn]; [by exists w0|].
    eexists. split; [by apply free_config_descriptors_ok|]. done. }
  destruct Hw1 as (w1 & Hw1 & Hh1 & Hd1).
  set (w2 := run_remove dev d w1).
  assert (Hw2 : w_host w2 = w_host w0 /\ w_dev w2 = w_dev w).
  { unfold w2, run_remove. destruct (handle d) as [[[]]|]; by simpl. }
  destruct Hw2 as [Hh2 Hd2].
  assert (Hreg2 : registry_ok w2 (l1 ++ dev :: l2)).
  { eapply registry_ok_frame; [exact Hd2| | |exact Hreg]; by rewrite Hh2. }
  destruct (unlink_device_ok w2 dev d l1 l2 Hreg2) as
    (w3 & Hw3 & Hreg3 & Hhook3 & _); [by rewrite Hd2|].
  set (w' := set_dev (delete dev (w_dev w3)) w3) in *.
  assert (Hnotin : dev ∉ l1 ++ l2).
  { destruct Hreg as [Hc _]. pose proof (dchain_NoDup _ _ _ _ Hc) as Hnd.
    apply NoDup_app in Hnd as (_ & Hsep & Hnd2).
    apply NoDup_cons in Hnd2 as [Hdev2 _].
    intros Hin. apply elem_of_app in Hin as [Hin|Hin]; [|done].
    apply (Hsep _ Hin), list_elem_of_here. }
  assert (Hnn : dev <> NULL).
  { destruct Hreg as [Hc _].
    eapply (dchain_lookup _ _ _ _ dev Hc).
    apply elem_of_app. right. apply list_elem_of_here. }
  exists w'. split; [|split; [|split; [|split; [|split; [|split]]]]].
  - unfold free_device. fold w0. unfold deref.
    replace (w_dev w0) with (w_dev w) by done. rewrite Hd. simpl.
    rewrite Hw1. simpl. fold w2. rewrite Hw3. reflexivity.
  - intros phase hk Hphase Hin. apply (U4 phase hk Hphase).
    unfold phase_chain in *. simpl in Hin. by rewrite Hhook3, Hh2 in Hin.
  - exact Hreg3.
  - by apply registry_link_invariant.
  - exact Hnotin.
  - apply lookup_delete_eq.
  - intros q dq Hin Hq. split.
    + destruct (registry_next_in_chain w' _ q dq Hreg3 Hin Hq) as [Hz|Hz]; congruence.
    + intros Hne Heq.
      destruct (registry_link_invariant w' _ Hreg3 q dq Hin Hq) as [Hp _].
      destruct (Hp Hne) as (dp & Hdp & _).
      rewrite Heq in Hdp. simpl in Hdp. by rewrite lookup_delete_eq in Hdp.
Qed.

Lemma two_devices_ok : registry_ok two_devices ([8194%N] ++ 4096%N :: []).
Proof.
  split.
  - eapply (dchain_cons _ _ _ keyboard); [done|reflexivity|intros ? ?; discriminate|].
    eapply (dchain_cons _ _ _ (set_prev 8194%N mouse)); [done|reflexivity| |].
    + intros q Hq. injection Hq as <-. reflexivity.
    + apply dchain_nil.
  - intros b Hb. injection Hb as <-. reflexivity.
Qed.

Lemma free_device_unlinks_device_and_hooks_witness :
  exists w',
    free_device two_devices 4096%N = Ok (0, w') /\
    (forall phase hk, phase < USB_HOOK_NUM_PHASE ->
       hk ∈ phase_chain (w_host w') phase -> hk_dev hk <> 4096%N) /\
    registry_ok w' ([8194%N] ++ []) /\
    link_invariant w' ([8194%N] ++ []) /\
    (4096%N ∉ [8194%N] ++ []) /\
    w_dev w' !! 4096%N = None /\
    (forall q dq, q ∈ [8194%N] ++ [] -> w_dev w' !! q = Some dq ->
       next dq <> 4096%N /\ (q <> device (w_host w') -> prev dq <> 4096%N)).
Proof.
  apply (free_device_unlinks_device_and_hooks two_devices [8194%N] [] 4096%N
           (set_prev 8194%N mouse)).
  - exact two_devices_ok.
  - reflexivity.
  - left. reflexivity.
Defined.

(** ** What the parser leaves alone *)

Ltac run := cbv beta iota delta [mbind result_bind mret result_ret of_option alloc_cfg].

Ltac bind_inv H :=
  let a := fresh "r" in
  let H1 := fresh H in
  apply bind_Ok in H as (a & H1 & H).

Lemma same_links_refl (m : gmap N usb_device) : same_links m m.
Proof. by intros q. Qed.

Lemma same_links_trans (m1 m2 m3 : gmap N usb_device) :
  same_links m1 m2 -> same_links m2 m3 -> same_links m1 m3.
Proof. intros H1 H2 q. by rewrite H2, H1. Qed.

Lemma same_links_insert (m : gmap N usb_device) (p : N) (d d' : usb_device) :
  m !! p = Some d -> next d' = next d -> prev d' = prev d ->
  same_links m (<[p := d']> m).
Proof.
  intros Hd Hn Hp q. destruct (decide (p = q)) as [<-|Hne].
  - rewrite lookup_insert_eq, Hd. simpl. by rewrite Hn, Hp.
  - by rewrite lookup_insert_ne.
Qed.

Lemma dchain_same_links (m m' : gmap N usb_device) before p l :
  same_links m m' -> dchain m before p l -> dchain m' before p l.
Proof.
  intros Hs. induction 1 as [b|b p d l Hp Hd Hb Hl IH]; [constructor|].
  pose proof (Hs p) as Hq. rewrite Hd in Hq. simpl in Hq.
  destruct (m' !! p) as [d'|] eqn:Hd'; [|discriminate].
  simpl in Hq. injection Hq as Hn Hpv.
  econstructor; eauto.
  - intros q Hbq. rewrite Hpv. by apply Hb.
  - by rewrite Hn.
Qed.

Lemma free_config_descriptors_frame (w w' : world) (p : N) (n : nat) :
  free_config_descriptors w p n = Ok w' ->
  w_host w' = w_host w /\ w_dev w' = w_dev w /\ w_brk w' = w_brk w /\
  w_removed w' = w_removed w /\
  w_cfg w' = (if decide (p = NULL) then w_cfg w else delete p (w_cfg w)).
Proof.
  unfold free_config_descriptors. intros H.
  destruct (decide (p = NULL)); [by injection H as <-|].
  bind_inv H. bind_inv H. by injection H as <-.
Qed.

Lemma parse_config_frame (w w' : world) buf len dev d :
  w_dev w !! dev = Some d ->
  parse_config w buf len dev d = Ok w' ->
  w_host w' = w_host w /\ same_links (w_dev w) (w_dev w') /\
  w_removed w' = w_removed w.
Proof.
  intros Hd H. unfold parse_config in H.
  bind_inv H. destruct r as [[l_cdesc t] od].
  destruct t as [|c t]; [injection H as <-; split; [done|split; [apply same_links_refl|done]]|].
  simpl in H. destruct (decide _) in H.
  - apply free_config_descriptors_frame in H as (-> & -> & _ & -> & _).
    split; [done|split; [apply same_links_refl|done]].
  - bind_inv H. bind_inv H. injection H as <-. simpl.
    assert (Hr : w_host r = w_host w /\ w_dev r = w_dev w /\ w_removed r = w_removed w).
    { destruct (decide (config d = NULL)); [by injection H1 as <-|].
      by apply free_config_descriptors_frame in H1 as (-> & -> & _ & -> & _). }
    destruct Hr as (-> & -> & ->). split; [done|split; [|done]].
    by apply (same_links_insert _ _ d).
Qed.

Lemma parse_descriptor_frame (w w' : world) desc buf len dev v :
  parse_descriptor w desc buf len dev = Ok (v, w') ->
  w_host w' = w_host w /\ same_links (w_dev w) (w_dev w') /\
  w_removed w' = w_removed w.
Proof.
  unfold parse_descriptor. intros H. bind_inv H. rename r into d.
  apply of_option_Ok in H0. bind_inv H. injection H as _ <-.
  destruct desc as [|[|[|desc]]].
  - injection H1 as <-. split; [done|split; [apply same_links_refl|done]].
  - unfold parse_device in H1. bind_inv H1.
    destruct (decide _) in H1; [|discriminate].
    injection H1 as <-. simpl. split; [done|split; [|done]].
    by apply (same_links_insert _ _ d).
  - by eapply parse_config_frame.
  - injection H1 as <-. split; [done|split; [apply same_links_refl|done]].
Qed.

Lemma fetch_descriptor_frame (w w' : world) desc r dev :
  fetch_descriptor desc r dev w = Ok w' ->
  w_host w' = w_host w /\ same_links (w_dev w) (w_dev w').
Proof.
  unfold fetch_descriptor. intros H.
  destruct (decide _) in H.
  - bind_inv H. destruct r0 as [v w1]. injection H as <-.
    apply parse_descriptor_frame in H0 as (? & ? & _). done.
  - injection H as <-. split; [done|apply same_links_refl].
Qed.

(** ** Insertion of a new device *)

Lemma evict_collisions_none (w : world) (l : list N) (devadr : nat) :
  registry_ok w l -> no_collision w l devadr ->
  evict_collisions w devadr = Ok w.
Proof.
  intros Hreg Hno. unfold evict_collisions.
  rewrite (get_device_by_address_none w devadr l Hreg)
    by (intros q d Hq Hd; by apply (Hno q d)).
  simpl.
  rewrite (get_device_by_port_none w _ l Hreg)
    by (intros q d Hq Hd; by apply (Hno q d)).
  reflexivity.
Qed.

Lemma link_new_device_ok (w : world) (l : list N) (devadr : nat) :
  registry_ok w l -> heap_ok w ->
  exists w2,
    link_new_device w devadr = Ok (w_brk w, w2) /\
    device (w_host w2) = w_brk w /\
    dchain (w_dev w2) None (w_brk w) (w_brk w :: l) /\
    bus (w_host w2) = bus (w_host w) /\
    hook (w_host w2) = hook (w_host w).
Proof.
  intros [Hc Hm] (Hnn & Hdev & _). unfold link_new_device. simpl.
  assert (Hfresh : forall q, q ∈ l -> q <> w_brk w).
  { intros q Hq ->.
    destruct (dchain_lookup _ _ _ _ _ Hc Hq) as [_ Hs].
    apply Hdev in Hs. lia. }
  pose proof (dchain_NoDup _ _ _ _ Hc) as Hnd.
  destruct l as [|h l'].
  - assert (Hhead : device (w_host w) = NULL) by (by inversion Hc).
    rewrite decide_True by done. simpl.
    eexists. split; [reflexivity|]. simpl. repeat split; try done.
    econstructor; [done|apply lookup_insert_eq|intros ? ?; discriminate|].
    simpl. rewrite Hhead. constructor.
  - assert (Hhead : device (w_host w) = h) by (by inversion Hc).
    destruct (dchain_lookup _ _ _ _ h Hc) as [Hh [dh Hdh]]; [apply list_elem_of_here|].
    rewrite Hhead in *.
    destruct (dchain_tail _ _ _ _ _ Hc Hdh) as [Hl' _].
    rewrite decide_False by done.
    unfold deref. rewrite Hdh. simpl.
    eexists. split; [reflexivity|]. simpl. repeat split; try done.
    apply NoDup_cons in Hnd as [Hnotin _].
    assert (Hne : w_brk w <> h).
    { intros Heq. apply (Hfresh h); [apply list_elem_of_here|done]. }
    econstructor; [done|apply lookup_insert_eq|intros ? ?; discriminate|].
    simpl. econstructor; [done| | |].
    + rewrite lookup_insert_ne by done. apply lookup_insert_eq.
    + intros q Hq. injection Hq as <-. reflexivity.
    + simpl. eapply dchain_ext; [exact Hl'|].
      intros q Hq. rewrite !lookup_insert_ne; [done| |].
      * intros Heq. apply Hnotin. by rewrite Heq.
      * intros Heq. apply (Hfresh q); [by apply list_elem_of_further|done].
Qed.


Lemma one_device_heap_ok : heap_ok one_device.
Proof.
  split; [done|split].
  - intros p [d Hd]. simpl in Hd.
    destruct (decide (p = 4096%N)) as [->|Hne]; [done|].
    by rewrite lookup_singleton_ne in Hd.
  - intros p [t Ht]. simpl in Ht. by rewrite lookup_empty in Ht.
Qed.


(** On that input new_usb_device does return: the new device is the head,
    the old head follows it and points back to it, and the bus view shows
    the new head. *)
Example new_usb_device_enumerates :
  exists w' d_new d_old,
    new_usb_device one_device set_address_5 keyboard_answers = Ok (USB_HOOK_PASS, w') /\
    device (w_host w') = 8194%N /\
    bus (w_host w') = Some (mk_bus 8194%N) /\
    w_dev w' !! 8194%N = Some d_new /\ next d_new = 4096%N /\
    devnum d_new = 5 /\ portno d_new = 2%N /\
    w_dev w' !! 4096%N = Some d_old /\ prev d_old = 8194%N.
Proof.
  vm_compute. do 3 eexists. repeat split.
Qed.

(** ** Collisions at SET_ADDRESS *)

Lemma scan_chain_some (w : world) (P : usb_device -> bool) before p l fuel :
  dchain (w_dev w) before p l ->
  (exists q d, q ∈ l /\ w_dev w !! q = Some d /\ P d = true) ->
  length l <= fuel ->
  exists q, scan_chain fuel w P p = Ok q /\ q <> NULL /\ q ∈ l.
Proof.
  intros H. revert fuel.
  induction H as [b|b p d l Hp Hd Hb Hl IH]; intros fuel (q & dq & Hq & Hdq & HP) Hfuel.
  - by apply elem_of_nil in Hq.
  - destruct fuel as [|fuel]; simpl in Hfuel; [lia|].
    simpl. rewrite decide_False by done.
    unfold deref. rewrite Hd. simpl.
    destruct (P d) eqn:HPd.
    + exists p. split; [done|split; [done|apply list_elem_of_here]].
    + apply elem_of_cons in Hq as [->|Hq]; [congruence|].
      destruct (IH fuel) as (q' & Hs & Hn & Hin); [by eauto|lia|].
      exists q'. split; [done|split; [done|by apply list_elem_of_further]].
Qed.

Lemma free_device_no_object (w : world) (p : N) :
  w_dev w !! p = None -> free_device w p = Fault.
Proof. intros H. unfold free_device, deref. simpl. by rewrite H. Qed.

(** C3: the code does not do what the claim says.  When the chain holds a
    device with the address of the SET_ADDRESS packet, new_usb_device finds
    it, but hands free_device the address number in place of the device it
    has found; no device lives at that number, so the call faults and the
    incumbent is neither freed nor taken out of the registry. *)
Theorem new_usb_device_address_collision_faults
    (w : world) (l : list N) (setup : list byte) (io : responses) :
  registry_ok w l ->
  (exists q d, q ∈ l /\ w_dev w !! q = Some d /\ devnum d = set_address_devadr setup) ->
  w_dev w !! N.of_nat (set_address_devadr setup) = None ->
  (exists q, get_device_by_address w (set_address_devadr setup) = Ok q /\ q ∈ l) /\
  new_usb_device w setup io = Fault.
Proof.
  intros [Hc _] (q & d & Hq & Hd & Hadr) Hnone.
  destruct (scan_chain_some w (fun d => bool_decide (devnum d = set_address_devadr setup))
              None (device (w_host w)) l (size (w_dev w)) Hc) as (q' & Hs & Hn & Hin).
  { exists q, d. split; [done|split; [done|by apply bool_decide_eq_true]]. }
  { by eapply dchain_length. }
  fold (get_device_by_address w (set_address_devadr setup)) in Hs.
  split; [by exists q'|].
  unfold new_usb_device. fold (set_address_devadr setup).
  unfold evict_collisions. rewrite Hs. simpl.
  rewrite decide_False by done.
  by rewrite (free_device_no_object w _ Hnone).
Qed.

Lemma new_usb_device_address_collision_faults_witness :
  (exists q, get_device_by_address one_device (set_address_devadr set_address_3) = Ok q
             /\ q ∈ [4096%N]) /\
  new_usb_device one_device set_address_3 keyboard_answers = Fault.
Proof.
  apply (new_usb_device_address_collision_faults one_device [4096%N] set_address_3
           keyboard_answers).
  - exact one_device_ok.
  - exists 4096%N, mouse. split; [apply list_elem_of_here|split; reflexivity].
  - reflexivity.
Defined.

(** ** The walk, record by record *)

Lemma u8_byte_of_nat (n : nat) : n <= 255 -> u8 (byte_of_nat n) = n.
Proof.
  intros Hn. unfold u8, byte_of_nat.
  rewrite Nat.mod_small by lia.
  pose proof (Byte.to_of_nat_option_map n) as H.
  destruct (Byte.of_nat n) as [b|] eqn:Hb; simpl in *.
  - destruct (n <=? 255); congruence.
  - apply Nat.leb_le in Hn. rewrite Hn in H. discriminate H.
Qed.

Lemma length_wire (r : desc_record) : length (wire r) = r_len r.
Proof. reflexivity. Qed.

Lemma length_stream_cons (r : desc_record) (rs : list desc_record) :
  length (stream (r :: rs)) = r_len r + length (stream rs).
Proof. unfold stream. simpl. rewrite length_app. reflexivity. Qed.

Lemma on_record_parsed ty rec st st' :
  on_record ty rec st = Ok st' -> parsed st' = parsed st.
Proof.
  unfold on_record, on_config, on_interface, on_endpoint, on_other.
  intros H.
  repeat match type of H with
         | match ?x with _ => _ end = _ => destruct x eqn:?
         | _ ≫= _ = Ok _ => bind_inv H
         | Ok _ = Ok _ => injection H as <-
         | (let (_, _) := ?x in _) = _ => destruct x eqn:?
         end; try reflexivity; try discriminate.
Qed.

Lemma feed_parsed r st st' :
  feed r st = Ok st' -> parsed st' = parsed st + r_len r.
Proof.
  unfold feed. intros H. bind_inv H. injection H as <-. simpl.
  by rewrite (on_record_parsed _ _ _ _ H0).
Qed.

(** At the start of a record the loop does what [feed] does. *)
Lemma extract_step_record (pre post : list byte) (r : desc_record) (st : extract_state) :
  valid_record r ->
  parsed st = length pre ->
  extract_step (pre ++ wire r ++ post) st = (st' ← feed r st; Ok (Some st')).
Proof.
  intros Hv Hp. unfold extract_step, read_u8, read_bytes. rewrite Hp.
  assert (H0 : (pre ++ wire r ++ post) !! length pre = Some (byte_of_nat (r_len r))).
  { rewrite lookup_app_r by lia. by rewrite Nat.sub_diag. }
  assert (H1 : (pre ++ wire r ++ post) !! (length pre + 1) = Some (r_type r)).
  { rewrite lookup_app_r by lia.
    by replace (length pre + 1 - length pre) with 1 by lia. }
  rewrite H0, H1. simpl.
  rewrite u8_byte_of_nat by exact Hv.
  rewrite decide_False by (unfold r_len; lia). simpl.
  rewrite decide_True
    by (rewrite length_app; simpl; rewrite length_app; unfold r_len; simpl; lia).
  simpl. rewrite drop_app_length.
  change (byte_of_nat (r_len r) :: r_type r :: r_body r ++ post) with (wire r ++ post).
  rewrite take_app_length' by apply length_wire.
  unfold feed. by destruct (on_record _ _ _).
Qed.

(** At a record of length 0 the loop stops. *)
Lemma extract_step_zero (pre post : list byte) (st : extract_state) :
  parsed st = length pre ->
  extract_step (pre ++ x00 :: post) st = Ok None.
Proof.
  intros Hp. unfold extract_step, read_u8. rewrite Hp.
  assert (H0 : (pre ++ x00 :: post) !! length pre = Some x00).
  { rewrite lookup_app_r by lia. by rewrite Nat.sub_diag. }
  by rewrite H0.
Qed.

(** A buffer that holds the records [rs] and then a record of length 0,
    with [len] reaching past the records: the loop walks [rs] and stops. *)
Lemma extract_loop_until_zero (rs : list desc_record) :
  forall (pre post : list byte) (len fuel : nat) (st : extract_state),
    Forall valid_record rs ->
    parsed st = length pre ->
    length pre + length (stream rs) < len ->
    length rs < fuel ->
    extract_loop fuel (pre ++ stream rs ++ x00 :: post) len st = feed_all rs st.
Proof.
  induction rs as [|r rs IH]; intros pre post len fuel st Hv Hp Hlen Hfuel.
  - destruct fuel as [|fuel]; [simpl in Hfuel; lia|].
    simpl. by rewrite extract_step_zero.
  - destruct fuel as [|fuel]; [simpl in Hfuel; lia|].
    apply Forall_cons in Hv as [Hr Hv].
    rewrite length_stream_cons in Hlen. simpl in Hfuel.
    cbn [extract_loop feed_all].
    replace (stream (r :: rs) ++ x00 :: post)
      with (wire r ++ (stream rs ++ x00 :: post))
      by (unfold stream; simpl; by rewrite <- app_assoc).
    rewrite extract_step_record by done.
    destruct (feed r st) as [st1| |] eqn:Hfeed; try reflexivity.
    cbv beta iota delta [mbind result_bind].
    pose proof (feed_parsed _ _ _ Hfeed) as Hp1.
    rewrite decide_True by lia.
    rewrite app_assoc.
    apply IH; [done| | |lia].
    + rewrite length_app, length_wire. lia.
    + rewrite length_app, length_wire. lia.
Qed.

(** A buffer of [len] bytes that the records [rs] fill exactly: the loop
    walks [rs] and stops at the end. *)
Lemma extract_loop_exact (rs : list desc_record) :
  forall (pre post : list byte) (len fuel : nat) (st : extract_state),
    rs <> [] ->
    Forall valid_record rs ->
    parsed st = length pre ->
    len = length pre + length (stream rs) ->
    length rs <= fuel ->
    extract_loop fuel (pre ++ stream rs ++ post) len st = feed_all rs st.
Proof.
  induction rs as [|r rs IH]; intros pre post len fuel st Hne Hv Hp Hlen Hfuel; [done|].
  destruct fuel as [|fuel]; [simpl in Hfuel; lia|].
  apply Forall_cons in Hv as [Hr Hv].
  rewrite length_stream_cons in Hlen. simpl in Hfuel.
  cbn [extract_loop feed_all].
  replace (stream (r :: rs) ++ post) with (wire r ++ (stream rs ++ post))
    by (unfold stream; simpl; by rewrite <- app_assoc).
  rewrite extract_step_record by done.
  destruct (feed r st) as [st1| |] eqn:Hfeed; try reflexivity.
  cbv beta iota delta [mbind result_bind].
  pose proof (feed_parsed _ _ _ Hfeed) as Hp1.
  destruct rs as [|r2 rs].
  - rewrite decide_False by (unfold r_len in *; simpl in *; lia). reflexivity.
  - rewrite decide_True
      by (rewrite length_stream_cons in Hlen; unfold r_len in *; lia).
    rewrite app_assoc.
    apply IH; [done|done| | |lia].
    + rewrite length_app, length_wire. lia.
    + rewrite length_app, length_wire. lia.
Qed.

Lemma length_stream_ge (rs : list desc_record) : length rs <= length (stream rs).
Proof.
  induction rs as [|r rs IH]; [done|].
  rewrite length_stream_cons. unfold r_len. simpl. lia.
Qed.

(** The records [rs] and nothing else: the result is that of the walk over
    [rs]. *)
Lemma extract_exact (rs : list desc_record) (post : list byte) :
  Forall valid_record rs ->
  extract_config_descriptors (stream rs ++ post) (length (stream rs))
  = (st ← feed_all rs extract_init; Ok (length (stream rs), x_cdesc st, x_odesc st)).
Proof.
  intros Hv. unfold extract_config_descriptors.
  destruct rs as [|r rs]; [reflexivity|].
  rewrite decide_False by (rewrite length_stream_cons; unfold r_len; lia).
  rewrite (extract_loop_exact (r :: rs) [] post); try done.
  apply length_stream_ge.
Qed.

(** The records [rs], then a record of length 0 inside the first [len]
    bytes: the result is again that of the walk over [rs]. *)
Lemma extract_until_zero (rs : list desc_record) (post : list byte) (len : nat) :
  Forall valid_record rs ->
  length (stream rs) < len ->
  extract_config_descriptors (stream rs ++ x00 :: post) len
  = (st ← feed_all rs extract_init; Ok (len, x_cdesc st, x_odesc st)).
Proof.
  intros Hv Hlen. unfold extract_config_descriptors.
  rewrite decide_False by lia.
  rewrite (extract_loop_until_zero rs [] post); try done.
  pose proof (length_stream_ge rs). lia.
Qed.

Lemma extract_config_descriptors_len buf len l t o :
  extract_config_descriptors buf len = Ok (l, t, o) -> l = len.
Proof.
  unfold extract_config_descriptors. intros H.
  destruct (decide (len = 0)) as [->|_].
  - by injection H as <- _ _.
  - bind_inv H. by injection H as <- _ _.
Qed.

(** ** Installing the parsed tree *)

(** What parse_descriptor does with the tree the walk has built. *)
Lemma parse_descriptor_config_cases
    (w : world) (buf : list byte) (len : nat) (dev : N) (d : usb_device)
    (l : nat) (t : list usb_config_descriptor) (o : list byte) :
  w_dev w !! dev = Some d ->
  heap_ok w ->
  extract_config_descriptors buf len = Ok (l, t, o) ->
  match t with
  | [] => parse_descriptor w USB_DT_CONFIG buf len dev = Ok (USB_HOOK_PASS, w)
  | c :: _ =>
      (bNumInterfaces c <> 0 /\ len <= USB_DT_CONFIG_SIZE ->
       free_each_config [c] = Ok () ->
       parse_descriptor w USB_DT_CONFIG buf len dev
       = Ok (USB_HOOK_PASS,
             mk_world (w_host w) (w_dev w) (w_cfg w) (N.succ (w_brk w)) (w_removed w))) /\
      (~ (bNumInterfaces c <> 0 /\ len <= USB_DT_CONFIG_SIZE) ->
       config_freeable w (config d) ->
       forall t', add_endpoint0 (bMaxPacketSize0 (descriptor d)) t = Ok t' ->
       parse_descriptor w USB_DT_CONFIG buf len dev
       = Ok (USB_HOOK_PASS,
             mk_world (w_host w)
                      (<[dev := set_config (w_brk w) d]> (w_dev w))
                      (<[w_brk w := t']> (delete (config d) (w_cfg w)))
                      (N.succ (w_brk w)) (w_removed w)))
  end.
Proof.
  intros Hd (Hnn & Hdevs & Hcfgs) Hx.
  pose proof (extract_config_descriptors_len _ _ _ _ _ Hx) as ->.
  assert (Hfresh : w_cfg w !! w_brk w = None).
  { destruct (w_cfg w !! w_brk w) eqn:E; [|done].
    assert (0 < w_brk w < w_brk w)%N by (apply Hcfgs; eauto). lia. }
  unfold parse_descriptor, deref. rewrite Hd. run.
  unfold parse_config. rewrite Hx. run.
  destruct t as [|c t]; [reflexivity|]. split.
  - intros Hinc Hfree. rewrite decide_True by done.
    unfold free_config_descriptors. cbn [w_brk w_cfg fst snd].
    rewrite decide_False by done.
    rewrite lookup_insert_eq. run. rewrite decide_True by (simpl; lia).
    change (take 1 (c :: t)) with [c]. rewrite Hfree. run.
    unfold set_cfg. cbn [w_host w_dev w_cfg w_brk w_removed].
    by rewrite delete_insert_id.
  - intros Hinc Hold t' Hep. rewrite decide_False by done.
    destruct (decide (config d = NULL)) as [Hnull|Hnull].
    + run. rewrite Hep. run. unfold set_cfg, set_dev.
      cbn [w_host w_dev w_cfg w_brk w_removed].
      rewrite insert_insert_eq.
      assert (Hz : w_cfg w !! config d = None).
      { destruct (w_cfg w !! config d) eqn:E; [|done].
        assert (0 < config d < w_brk w)%N by (apply Hcfgs; eauto).
        rewrite Hnull in *. unfold NULL in *. lia. }
      by rewrite (delete_id _ _ Hz).
    + destruct Hold as [?|(told & Htold & Hlen & Hfree)]; [done|].
      assert (Hne : w_brk w <> config d).
      { intros Heq. rewrite <- Heq in Htold. congruence. }
      unfold free_config_descriptors. cbn [w_host w_dev w_cfg w_brk w_removed].
      rewrite decide_False by done.
      rewrite lookup_insert_ne by done. rewrite Htold. run.
      rewrite decide_True by done. rewrite Hfree. run.
      rewrite Hep. run. unfold set_cfg, set_dev.
      cbn [w_host w_dev w_cfg w_brk w_removed].
      rewrite delete_insert_ne by done.
      by rewrite insert_insert_eq.
Qed.



(** The boundary case of the spec: a 9-byte CONFIG response that claims one
    interface is dropped, and a device that had a tree keeps it. *)
Example bare_config_is_discarded :
  exists w',
    parse_descriptor configured USB_DT_CONFIG bare_config 9 4096%N
      = Ok (USB_HOOK_PASS, w') /\
    w_dev w' = w_dev configured /\ w_cfg w' = w_cfg configured.
Proof.
  eexists. split; [vm_compute; reflexivity|]. split; reflexivity.
Qed.

(** The other case: the response of scenario S1 replaces the tree of the
    device; the old array at 6000 is gone, the new one is at 8194. *)
Example mouse_config_replaces_tree :
  exists w' t,
    parse_descriptor configured USB_DT_CONFIG (stream mouse_config) 34 4096%N
      = Ok (USB_HOOK_PASS, w') /\
    w_dev w' !! 4096%N = Some (set_config 8194%N mouse) /\
    w_cfg w' !! 6000%N = None /\
    w_cfg w' !! 8194%N = Some t /\
    length t = 1.
Proof.
  do 2 eexists. split; [vm_compute; reflexivity|].
  repeat split; reflexivity.
Qed.

(** ** Records of length 0 *)

Lemma feed_all_parsed (rs : list desc_record) (st st' : extract_state) :
  feed_all rs st = Ok st' -> parsed st' = parsed st + length (stream rs).
Proof.
  revert st. induction rs as [|r rs IH]; intros st H.
  - injection H as <-. simpl. lia.
  - simpl in H. bind_inv H. rewrite (IH _ H), (feed_parsed _ _ _ H0).
    rewrite length_stream_cons. lia.
Qed.

(** C7, as stated, fails: an 8-byte configuration record that claims one
    interface, then a record of length 0, in a response of 9 bytes.  The
    walk stops at the record of length 0 with a tree of one configuration,
    and parse_descriptor drops that tree as incomplete: dev.config stays
    NULL. *)
Lemma short_config_before_zero_not_installed :
  ~ installs_records_before_zero one_device [short_config] [] 9 4096%N.
Proof.
  intros (st & d & w' & d' & t' & _ & _ & Hp & Hd' & _ & Hcfg).
  vm_compute in Hp. injection Hp as <-.
  vm_compute in Hd'. injection Hd' as <-.
  vm_compute in Hcfg. discriminate Hcfg.
Qed.

(** C7, amended: when the records [rs] are followed by a record of length 0
    inside the response, the walk stops there: it returns the tree and the
    other bucket of the walk over [rs], which has consumed exactly the bytes
    of [rs], and the same as for a response that ends after [rs].  With no
    configuration before the record of length 0, dev.config stays as it
    was.  When the first configuration claims bNumInterfaces > 0 and the
    response length is at most 9, the partial tree is dropped as incomplete:
    it is freed (given that the walk over it stays inside its arrays) and
    dev.config and the old tree stay as they were.  Otherwise, given that
    the old tree of the device can be freed and that the endpoint-0 step on
    the partial tree succeeds, the partial tree with endpoint 0 added is
    installed as dev.config. *)
Theorem walk_stops_at_zero_length_record
    (w : world) (rs : list desc_record) (rest : list byte) (len : nat)
    (dev : N) (d : usb_device) (st : extract_state) :
  Forall valid_record rs ->
  length (stream rs) < len ->
  w_dev w !! dev = Some d ->
  heap_ok w ->
  feed_all rs extract_init = Ok st ->
  extract_config_descriptors (stream rs ++ x00 :: rest) len
    = Ok (len, x_cdesc st, x_odesc st) /\
  parsed st = length (stream rs) /\
  extract_config_descriptors (stream rs) (length (stream rs))
    = Ok (length (stream rs), x_cdesc st, x_odesc st) /\
  match x_cdesc st with
  | [] =>
      parse_descriptor w USB_DT_CONFIG (stream rs ++ x00 :: rest) len dev
        = Ok (USB_HOOK_PASS, w)
  | c :: _ =>
      (bNumInterfaces c <> 0 /\ len <= USB_DT_CONFIG_SIZE ->
       free_each_config [c] = Ok () ->
       exists w',
         parse_descriptor w USB_DT_CONFIG (stream rs ++ x00 :: rest) len dev
           = Ok (USB_HOOK_PASS, w') /\
         w_dev w' = w_dev w /\ w_cfg w' = w_cfg w) /\
      (~ (bNumInterfaces c <> 0 /\ len <= USB_DT_CONFIG_SIZE) ->
       config_freeable w (config d) ->
       forall t', add_endpoint0 (bMaxPacketSize0 (descriptor d)) (x_cdesc st) = Ok t' ->
       exists w',
         parse_descriptor w USB_DT_CONFIG (stream rs ++ x00 :: rest) len dev
           = Ok (USB_HOOK_PASS, w') /\
         w_dev w' !! dev = Some (set_config (w_brk w) d) /\
         w_cfg w' !! w_brk w = Some t')
  end.
Proof.
  intros Hv Hlen Hd Hheap Hst.
  assert (Hx : extract_config_descriptors (stream rs ++ x00 :: rest) len
               = Ok (len, x_cdesc st, x_odesc st)).
  { rewrite extract_until_zero by done. by rewrite Hst. }
  split; [exact Hx|]. split; [|split].
  - by rewrite (feed_all_parsed _ _ _ Hst).
  - rewrite <- (app_nil_r (stream rs)) at 1.
    rewrite extract_exact by done. by rewrite Hst.
  - pose proof (parse_descriptor_config_cases w _ len dev d _ _ _ Hd Hheap Hx) as Hcases.
    destruct (x_cdesc st) as [|c t]; [exact Hcases|].
    destruct Hcases as [Hdiscard Hinstall]. split.
    + intros Hinc Hfree. eexists. split; [by apply Hdiscard|done].
    + intros Hinc Hold t' Hep. eexists. split; [by apply Hinstall|].
      cbn [w_dev w_cfg]. split; apply lookup_insert_eq.
Qed.

(** ** Bytes attributed by the walk *)


Ltac proj :=
  cbn [x_cdesc x_odesc odesclen cdescp idescp n_cdesc n_idesc n_edesc
       last_bDescriptorType parsed advance open_cfg open_itf last_ty
       c_image interface c_extra c_extralen i_image endpoint i_extra i_extralen
       altsetting num_altsetting e_image e_extra e_extralen
       set_altsetting set_alts set_endpoint set_c_extra set_i_extra
       zalloc_usb_interface fst snd sum_list_with length].

Lemma alter_last {A} (f : A -> A) (l : list A) (x : A) :
  alter f (length l) (l ++ [x]) = l ++ [f x].
Proof.
  rewrite <- (Nat.add_0_r (length l)) at 1. by rewrite alter_app_r.
Qed.

Lemma lookup_last {A} (l : list A) (x : A) : (l ++ [x]) !! length l = Some x.
Proof. by apply list_lookup_middle. Qed.

Lemma tack_on_all {A} (src new : list A) :
  tack_on src (length src) new = Ok (src ++ new).
Proof. unfold tack_on. rewrite decide_True by done. by rewrite firstn_all. Qed.

Lemma struct_of_wire_record (size : nat) (r : desc_record) :
  valid_record r -> r_len r <= size ->
  exists img, struct_of_wire size (wire r) = Ok img /\ bLength img = r_len r.
Proof.
  intros Hv Hsize. unfold struct_of_wire.
  rewrite decide_True by (by rewrite length_wire).
  eexists. split; [reflexivity|].
  unfold bLength, byte_at. simpl. by apply u8_byte_of_nat.
Qed.

Lemma on_record_other ty rec st :
  ty <> 2 -> ty <> 4 -> ty <> 5 -> on_record ty rec st = on_other rec st.
Proof. intros. by destruct ty as [|[|[|[|[|[|ty]]]]]]. Qed.

Lemma place_other s r :
  u8 (r_type r) <> 2 -> u8 (r_type r) <> 4 -> u8 (r_type r) <> 5 ->
  place s r = if decide (last_ty s = 5) then None
              else Some (mk_shape (open_cfg s) (open_itf s) (u8 (r_type r))).
Proof. intros. unfold place. by destruct (u8 (r_type r)) as [|[|[|[|[|[|ty]]]]]]. Qed.

Lemma on_other_bucket rec st :
  last_bDescriptorType st <> 2 -> last_bDescriptorType st <> 4 ->
  last_bDescriptorType st <> 5 ->
  on_other rec st
  = (bs ← rec;
     od ← tack_on (x_odesc st) (odesclen st) bs;
     Ok (mk_extract (x_cdesc st) od (odesclen st + length bs) (cdescp st) (idescp st)
                    (n_cdesc st) (n_idesc st) (n_edesc st)
                    (last_bDescriptorType st) (parsed st))).
Proof.
  intros. unfold on_other.
  by destruct (last_bDescriptorType st) as [|[|[|[|[|[|ty]]]]]].
Qed.

Lemma stored_snoc cs c o :
  stored (cs ++ [c]) o = sum_list_with stored_config cs + stored_config c + length o.
Proof. unfold stored. rewrite sum_list_with_app. simpl. lia. Qed.

(** A CONFIG record. *)
Lemma feed_config s st r :
  walk_inv s st -> valid_record r -> u8 (r_type r) = 2 ->
  r_len r <= USB_DT_CONFIG_SIZE ->
  exists st', feed r st = Ok st' /\ walk_inv (mk_shape true false 2) st'.
Proof.
  intros (Hn & Ho & Hl & Hs & _) Hv Hty Hlen.
  unfold feed. rewrite Hty. cbn [on_record]. unfold on_config. run.
  destruct (struct_of_wire_record _ r Hv Hlen) as (img & -> & Himg). run.
  rewrite Hn, tack_on_all. run.
  eexists. split; [reflexivity|].
  assert (Hnew : stored_config (mk_config img zalloc_usb_interface [] 0) = r_len r).
  { unfold stored_config. proj. lia. }
  unfold walk_inv. proj.
  rewrite length_app, stored_snoc, Hnew. proj.
  unfold stored in Hs.
  split_and!; try done; try lia.
  exists (x_cdesc st), (mk_config img zalloc_usb_interface [] 0).
  by split_and!.
Qed.

(** An INTERFACE record under an open configuration. *)
Lemma feed_interface s st r :
  walk_inv s st -> valid_record r -> u8 (r_type r) = 4 ->
  open_cfg s = true -> r_len r <= USB_DT_INTERFACE_SIZE ->
  exists st', feed r st = Ok st' /\ walk_inv (mk_shape true true 4) st'.
Proof.
  intros (Hn & Ho & Hl & Hs & _ & _ & Hopen) Hv Hty Hcfg Hlen.
  rewrite Hcfg in Hopen. destruct Hopen as (cs & c & Hcd & Hcp & Hcx & Hni & _).
  unfold feed. rewrite Hty. cbn [on_record]. unfold on_interface.
  rewrite Hcp, Hcd, lookup_last. run.
  destruct (struct_of_wire_record _ r Hv Hlen) as (img & -> & Himg). run.
  rewrite Hni, tack_on_all. run.
  eexists. split; [reflexivity|].
  rewrite alter_last.
  set (c' := set_altsetting _ _ c).
  assert (Hnew : stored_config c' = stored_config c + r_len r).
  { unfold c', stored_config. proj. rewrite sum_list_with_app. proj.
    unfold stored_interface at 2. proj. lia. }
  unfold walk_inv. proj.
  rewrite Hcd, stored_snoc in Hs.
  rewrite Hcd, length_app in Hn. cbn [length] in Hn.
  rewrite !length_app, stored_snoc, Hnew. proj.
  split_and!; try done; try lia.
  exists cs, c'. split; [reflexivity|]. unfold c'. proj.
  split_and!; try done.
  - rewrite length_app. cbn [length]. lia.
  - eexists (altsetting (interface c)), _. by split_and!.
Qed.

(** An ENDPOINT record under an alternate setting of the open
    configuration. *)
Lemma feed_endpoint s st r :
  walk_inv s st -> valid_record r -> u8 (r_type r) = 5 ->
  open_itf s = true -> r_len r <= USB_DT_ENDPOINT_SIZE ->
  exists st', feed r st = Ok st' /\
              walk_inv (mk_shape (open_cfg s) (open_itf s) 5) st'.
Proof.
  intros (Hn & Ho & Hl & Hs & _ & _ & Hopen) Hv Hty Hitf Hlen.
  destruct (open_cfg s) eqn:Hcfg; [|congruence].
  rewrite Hitf in *.
  destruct Hopen as (cs & c & Hcd & Hcp & Hcx & Hni & alts & i & Halts & Hip & Hix & Hne).
  unfold feed. rewrite Hty. cbn [on_record]. unfold on_endpoint.
  rewrite Hip. unfold deref_idescp. cbn [fst snd].
  rewrite Hcd, lookup_last. run. rewrite Halts, lookup_last. run.
  destruct (struct_of_wire_record _ r Hv Hlen) as (img & -> & Himg). run.
  rewrite Hne, tack_on_all. run.
  eexists. split; [reflexivity|].
  unfold update_idescp. cbn [fst snd]. rewrite alter_last.
  set (c' := set_alts _ c).
  assert (Hc' : altsetting (interface c')
                = alts ++ [set_endpoint (endpoint i ++ [mk_endpoint img [] 0]) i]).
  { unfold c'. proj. by rewrite Halts, alter_last. }
  assert (Hnew : stored_config c' = stored_config c + r_len r).
  { unfold stored_config. rewrite Hc', Halts. unfold c'. proj.
    rewrite !sum_list_with_app. proj.
    unfold stored_interface. proj. rewrite sum_list_with_app. proj.
    unfold stored_endpoint. proj. lia. }
  unfold walk_inv. proj.
  rewrite Hcd, stored_snoc in Hs.
  rewrite Hcd, length_app in Hn. cbn [length] in Hn.
  rewrite length_app, stored_snoc, Hnew. proj.
  split_and!; try done; try lia.
  exists cs, c'. split; [reflexivity|].
  split_and!; try done.
  - by rewrite Hc', Hni, Halts, !length_app.
  - eexists alts, _. split; [exact Hc'|]. proj.
    split_and!; try done. rewrite length_app. cbn [length]. lia.
Qed.

(** A record of another type, not directly after an ENDPOINT record. *)
Lemma feed_other s st r :
  walk_inv s st -> valid_record r ->
  u8 (r_type r) <> 2 -> u8 (r_type r) <> 4 -> u8 (r_type r) <> 5 ->
  last_ty s <> 5 ->
  exists st', feed r st = Ok st' /\
              walk_inv (mk_shape (open_cfg s) (open_itf s) (u8 (r_type r))) st'.
Proof.
  intros (Hn & Ho & Hl & Hs & H2 & H4 & Hopen) Hv Ht2 Ht4 Ht5 Hlast.
  unfold feed. rewrite on_record_other by done.
  destruct (decide (last_ty s = 2)) as [E2|E2];
    [|destruct (decide (last_ty s = 4)) as [E4|E4]].
  - (* after a CONFIG record: the extra buffer of the configuration *)
    rewrite (H2 E2) in Hopen.
    destruct Hopen as (cs & c & Hcd & Hcp & Hcx & Hni & Hitf).
    unfold on_other. rewrite Hl, E2, Hcp. run.
    rewrite Hcd, lookup_last. run. rewrite Hcx, tack_on_all. run.
    eexists. split; [reflexivity|].
    rewrite alter_last.
    set (c' := set_c_extra _ _ c).
    assert (Hnew : stored_config c' = stored_config c + r_len r).
    { unfold c', stored_config. proj. rewrite length_wire. lia. }
    unfold walk_inv. proj.
    rewrite Hcd, stored_snoc in Hs.
    rewrite Hcd, length_app in Hn.
    rewrite length_app, stored_snoc, Hnew, (H2 E2).
    split_and!; try done; try lia.
    exists cs, c'. split; [reflexivity|]. unfold c'. proj.
    split_and!; try done. by rewrite length_app.
  - (* after an INTERFACE record: the extra buffer of the alternate setting *)
    pose proof (H4 E4) as Hitf.
    destruct (open_cfg s) eqn:Hcfg; [|congruence].
    rewrite Hitf in *.
    destruct Hopen as (cs & c & Hcd & Hcp & Hcx & Hni & alts & i & Halts & Hip & Hix & Hne).
    unfold on_other. rewrite Hl, E4, Hip. run.
    unfold deref_idescp. cbn [fst snd].
    rewrite Hcd, lookup_last. run. rewrite Halts, lookup_last. run.
    rewrite Hix, tack_on_all. run.
    eexists. split; [reflexivity|].
    unfold update_idescp. cbn [fst snd]. rewrite alter_last.
    set (c' := set_alts _ c).
    assert (Hc' : altsetting (interface c')
                  = alts ++ [set_i_extra (i_extra i ++ wire r)
                                         (length (i_extra i) + length (wire r)) i]).
    { unfold c'. proj. by rewrite Halts, alter_last. }
    assert (Hnew : stored_config c' = stored_config c + r_len r).
    { unfold stored_config. rewrite Hc', Halts. unfold c'. proj.
      rewrite !sum_list_with_app. proj.
      unfold stored_interface. proj. rewrite length_wire. lia. }
    unfold walk_inv. proj.
    rewrite Hcd, stored_snoc in Hs.
    rewrite Hcd, length_app in Hn.
    rewrite length_app, stored_snoc, Hnew.
    split_and!; try done; try lia.
    exists cs, c'. split; [reflexivity|].
    split_and!; try done.
    + by rewrite Hc', Hni, Halts, !length_app.
    + eexists alts, _. split; [exact Hc'|]. proj.
      split_and!; try done. by rewrite length_app.
  - (* otherwise: the other bucket *)
    rewrite on_other_bucket by congruence. run.
    rewrite Ho, tack_on_all. run.
    eexists. split; [reflexivity|].
    unfold walk_inv. proj.
    unfold stored in *. rewrite !length_app, length_wire.
    split_and!; try done; try lia.
Qed.

(** Every record has its place: the walk does not fault, and the bytes it
    has stored are the bytes it has walked. *)
Lemma feed_all_placed (rs : list desc_record) :
  forall s st s',
    walk_inv s st ->
    Forall valid_record rs ->
    places s rs = Some s' ->
    exists st', feed_all rs st = Ok st' /\ walk_inv s' st'.
Proof.
  induction rs as [|r rs IH]; intros s st s' Hinv Hv Hpl.
  - injection Hpl as <-. by exists st.
  - apply Forall_cons in Hv as [Hr Hv]. cbn [places] in Hpl.
    destruct (place s r) as [s1|] eqn:Hp; [|discriminate].
    assert (Hstep : exists st1, feed r st = Ok st1 /\ walk_inv s1 st1).
    { destruct (decide (u8 (r_type r) = 2)) as [E2|E2];
        [|destruct (decide (u8 (r_type r) = 4)) as [E4|E4];
          [|destruct (decide (u8 (r_type r) = 5)) as [E5|E5]]].
      - unfold place in Hp. rewrite E2 in Hp.
        destruct (decide _) in Hp; [|discriminate]. injection Hp as <-.
        by eapply feed_config.
      - unfold place in Hp. rewrite E4 in Hp.
        destruct (decide _) as [[? ?]|] in Hp; [|discriminate]. injection Hp as <-.
        by eapply feed_interface.
      - unfold place in Hp. rewrite E5 in Hp.
        destruct (decide _) as [[? ?]|] in Hp; [|discriminate]. injection Hp as <-.
        by eapply feed_endpoint.
      - rewrite place_other in Hp by done.
        destruct (decide _) in Hp; [discriminate|]. injection Hp as <-.
        by eapply feed_other. }
    destruct Hstep as (st1 & Hfeed & Hinv1).
    destruct (IH s1 st1 s' Hinv1 Hv Hpl) as (st' & Hall & Hinv').
    exists st'. split; [|done]. cbn [feed_all]. by rewrite Hfeed.
Qed.

Lemma walk_inv_init : walk_inv (mk_shape false false 0) extract_init.
Proof. unfold walk_inv. cbn. by split_and!. Qed.



(** ** Endpoint 0 *)

(** C2, as stated, fails: in a configuration with two interfaces the second
    alternate setting keeps its parsed endpoint (wMaxPacketSize 64) at index
    0; only the first one gets the endpoint with bMaxPacketSize0 = 8. *)
Lemma second_altsetting_has_no_endpoint0 :
  exists w',
    parse_descriptor one_device USB_DT_CONFIG (stream two_interfaces)
                     (length (stream two_interfaces)) 4096%N
      = Ok (USB_HOOK_PASS, w') /\
    ~ endpoint0_in_every_altsetting w' 4096%N.
Proof.
  eexists. split; [vm_compute; reflexivity|].
  intros (d & t & Hd & Ht & Hall).
  vm_compute in Hd. injection Hd as <-.
  vm_compute in Ht. injection Ht as <-.
  edestruct Hall as (e0 & eps & Hep & Hsize).
  - apply list_elem_of_here.
  - cbn [interface altsetting]. apply list_elem_of_further, list_elem_of_here.
  - cbn [endpoint] in Hep. injection Hep as <- _.
    vm_compute in Hsize. discriminate Hsize.
Qed.

Lemma struct_of_wire_image (size : nat) (r : desc_record) :
  r_len r <= size -> struct_of_wire size (wire r) = Ok (image_of_record size r).
Proof.
  intros H. unfold struct_of_wire. by rewrite decide_True by (by rewrite length_wire).
Qed.

Lemma feed_all_app (rs1 rs2 : list desc_record) (st : extract_state) :
  feed_all (rs1 ++ rs2) st = (st' ← feed_all rs1 st; feed_all rs2 st').
Proof.
  revert st. induction rs1 as [|r rs1 IH]; intros st; [reflexivity|].
  cbn [app feed_all]. destruct (feed r st); try reflexivity. apply IH.
Qed.

(** The walk over a CONFIG record and an INTERFACE record. *)
Lemma feed_config_interface (cfg itf : desc_record) :
  u8 (r_type cfg) = 2 -> r_len cfg <= USB_DT_CONFIG_SIZE ->
  u8 (r_type itf) = 4 -> r_len itf <= USB_DT_INTERFACE_SIZE ->
  feed_all [cfg; itf] extract_init
  = Ok (first_altsetting_state (image_of_record USB_DT_CONFIG_SIZE cfg)
                               (image_of_record USB_DT_INTERFACE_SIZE itf)
                               [] 4 (r_len cfg + r_len itf)).
Proof.
  intros Hc Hcl Hi Hil. cbn [feed_all]. unfold feed.
  rewrite Hc. cbn [on_record]. unfold on_config. run.
  rewrite struct_of_wire_image by done. run.
  unfold extract_init. proj. rewrite (tack_on_all []). run.
  rewrite Hi. cbn [on_record]. unfold on_interface. proj.
  cbn [app lookup list_lookup]. run.
  rewrite struct_of_wire_image by done. run. proj.
  rewrite (tack_on_all []). run.
  reflexivity.
Qed.

(** An ENDPOINT record goes to the end of the endpoint array. *)
Lemma feed_endpoint_appends (cimg iimg : list byte) (eps : list usb_endpoint_descriptor)
    (last p : nat) (r : desc_record) :
  u8 (r_type r) = 5 -> r_len r <= USB_DT_ENDPOINT_SIZE ->
  feed r (first_altsetting_state cimg iimg eps last p)
  = Ok (first_altsetting_state cimg iimg (eps ++ [endpoint_of_record r]) 5 (p + r_len r)).
Proof.
  intros Ht Hl. unfold feed. rewrite Ht. cbn [on_record]. unfold on_endpoint.
  unfold first_altsetting_state. proj. unfold deref_idescp. proj.
  cbn [lookup list_lookup]. run. proj. cbn [lookup list_lookup]. run.
  rewrite struct_of_wire_image by done. run.
  proj. rewrite tack_on_all. run.
  unfold update_idescp, endpoint_of_record, image_of_record.
  proj. cbn [alter list_alter]. proj. cbn [alter list_alter].
  rewrite length_app. cbn [length]. by rewrite Nat.add_1_r.
Qed.

Lemma feed_endpoints_append (cimg iimg : list byte) (rs : list desc_record) :
  forall (eps : list usb_endpoint_descriptor) (last p : nat),
    Forall (fun r => u8 (r_type r) = 5 /\ r_len r <= USB_DT_ENDPOINT_SIZE) rs ->
    exists last' p',
      feed_all rs (first_altsetting_state cimg iimg eps last p)
      = Ok (first_altsetting_state cimg iimg
              (eps ++ map endpoint_of_record rs) last' p').
Proof.
  induction rs as [|r rs IH]; intros eps last p Hrs.
  - exists last, p. cbn. by rewrite app_nil_r.
  - apply Forall_cons in Hrs as [[Ht Hl] Hrs].
    cbn [feed_all]. rewrite feed_endpoint_appends by done. run.
    destruct (IH (eps ++ [endpoint_of_record r]) 5 (p + r_len r) Hrs)
      as (last' & p' & ->).
    exists last', p'. cbn [map]. by rewrite <- app_assoc.
Qed.

(** Changes that do not reach the first alternate setting of the first
    configuration. *)
Lemma first_altsetting_update_idescp t cimg img eps f p :
  first_altsetting t cimg img eps -> p <> (0, 0) ->
  first_altsetting (update_idescp f p t) cimg img eps.
Proof.
  intros (c & cs & i & alts & -> & Ha & Hci & Hi & He) Hp.
  unfold update_idescp. destruct p as [[|ci] ai]; cbn [fst snd alter list_alter].
  - destruct ai as [|ai]; [done|].
    eexists _, cs, i, _. split; [reflexivity|]. proj. rewrite Ha.
    cbn [alter list_alter]. done.
  - by eexists c, _, i, alts.
Qed.

Lemma first_altsetting_alter t cimg img eps g ci :
  first_altsetting t cimg img eps ->
  (forall c, interface (g c) = interface c /\ c_image (g c) = c_image c) ->
  first_altsetting (alter g ci t) cimg img eps.
Proof.
  intros (c & cs & i & alts & -> & Ha & Hci & Hi & He) Hg.
  destruct ci as [|ci]; cbn [alter list_alter].
  - eexists (g c), cs, i, alts. destruct (Hg c) as [-> ->]. by split_and!.
  - by eexists c, _, i, alts.
Qed.

Lemma past_first_on_config cimg img eps rec st st' :
  past_first_altsetting cimg img eps st -> on_config rec st = Ok st' ->
  past_first_altsetting cimg img eps st'.
Proof.
  intros ((c & cs & i & alts & Hcd & Ha & Hcimg & Hi & He) & Hn & Hc & Hp) H.
  unfold on_config in H. bind_inv H. bind_inv H. bind_inv H. injection H as <-.
  unfold tack_on in H2. destruct (decide _) in H2; [|discriminate].
  injection H2 as <-.
  split; [|split; [|split]]; proj; try lia; try done.
  - rewrite Hcd. destruct (n_cdesc st) as [|n]; [lia|]. cbn [take app].
    by eexists c, _, i, alts.
  - intros Heq. injection Heq as Heq. lia.
Qed.

Lemma past_first_on_interface cimg img eps rec st st' :
  past_first_altsetting cimg img eps st -> on_interface rec st = Ok st' ->
  past_first_altsetting cimg img eps st'.
Proof.
  intros HJ H.
  unfold on_interface in H.
  destruct (cdescp st) as [ci|] eqn:Hci; [|by injection H as <-].
  destruct HJ as (Hfirst & Hn & Hc & Hp).
  bind_inv H. bind_inv H. bind_inv H. bind_inv H. injection H as <-.
  apply of_option_Ok in H0.
  unfold tack_on in H3. destruct (decide _) in H3; [|discriminate].
  injection H3 as <-.
  destruct Hfirst as (c & cs & i & alts & Hcd & Ha & Hcimg & Hi & He).
  split; [|split; [|split]]; proj; try lia; try done.
  - rewrite Hcd in *. destruct ci as [|ci]; cbn [alter list_alter].
    + injection H0 as <-. specialize (Hc Hci).
      destruct (n_idesc st) as [|n]; [lia|]. rewrite Ha. cbn [take app].
      eexists _, cs, i, _. by split_and!.
    + by eexists c, _, i, alts.
  - intros Heq. injection Heq as -> Heq. specialize (Hc Hci). lia.
Qed.

Lemma past_first_on_endpoint cimg img eps rec st st' :
  past_first_altsetting cimg img eps st -> on_endpoint rec st = Ok st' ->
  past_first_altsetting cimg img eps st'.
Proof.
  intros HJ H.
  unfold on_endpoint in H.
  destruct (idescp st) as [p|] eqn:Hip; [|by injection H as <-].
  destruct HJ as (Hfirst & Hn & Hc & Hp).
  bind_inv H. bind_inv H. bind_inv H. bind_inv H. injection H as <-.
  split; [|split; [|split]]; proj; try done; try congruence.
  apply first_altsetting_update_idescp; [done|congruence].
Qed.

Lemma past_first_on_other cimg img eps rec st st' :
  past_first_altsetting cimg img eps st -> on_other rec st = Ok st' ->
  past_first_altsetting cimg img eps st'.
Proof.
  intros HJ H.
  unfold on_other in H.
  destruct (last_bDescriptorType st) as [|[|[|[|[|[|ty]]]]]];
    try (bind_inv H; bind_inv H; injection H as <-;
         destruct HJ as (? & ? & ? & ?); by split_and!).
  - destruct HJ as (Hfirst & Hn & Hc & Hp).
    bind_inv H. bind_inv H. bind_inv H. bind_inv H. injection H as <-.
    split; [|split; [|split]]; proj; try done.
    by apply first_altsetting_alter.
  - destruct HJ as (Hfirst & Hn & Hc & Hp).
    bind_inv H. bind_inv H. bind_inv H. bind_inv H. injection H as <-.
    apply of_option_Ok in H0.
    split; [|split; [|split]]; proj; try done.
    apply first_altsetting_update_idescp; [done|congruence].
  - by injection H as <-.
Qed.

Lemma past_first_feed cimg img eps r st st' :
  past_first_altsetting cimg img eps st -> feed r st = Ok st' ->
  past_first_altsetting cimg img eps st'.
Proof.
  intros HJ H. unfold feed in H. bind_inv H. injection H as <-.
  assert (HJ' : past_first_altsetting cimg img eps r0).
  { unfold on_record in H0.
    destruct (u8 (r_type r)) as [|[|[|[|[|[|ty]]]]]];
      eauto using past_first_on_config, past_first_on_interface,
                  past_first_on_endpoint, past_first_on_other. }
  destruct HJ' as (? & ? & ? & ?). by split_and!.
Qed.

Lemma past_first_feed_all cimg img eps rs :
  forall st st',
    past_first_altsetting cimg img eps st -> feed_all rs st = Ok st' ->
    past_first_altsetting cimg img eps st'.
Proof.
  induction rs as [|r rs IH]; intros st st' HJ H.
  - by injection H as <-.
  - cbn [feed_all] in H. bind_inv H. eauto using past_first_feed.
Qed.

(** An INTERFACE record takes the cursor off the first alternate setting. *)
Lemma feed_interface_leaves_first cimg iimg eps last p r st' :
  u8 (r_type r) = 4 ->
  feed r (first_altsetting_state cimg iimg eps last p) = Ok st' ->
  past_first_altsetting cimg iimg eps st'.
Proof.
  intros Ht H. unfold feed in H. rewrite Ht in H. cbn [on_record] in H.
  unfold on_interface, first_altsetting_state in H.
  cbn [cdescp x_cdesc n_idesc lookup list_lookup altsetting interface] in H.
  cbv beta iota delta [mbind result_bind of_option] in H.
  destruct (struct_of_wire _ _) as [img| |] eqn:Himg; try discriminate.
  unfold tack_on in H. cbn [length n_idesc] in H.
  rewrite decide_True in H by done.
  cbv beta iota delta [mbind result_bind of_option] in H. injection H as <-.
  split; [|split; [|split]]; cbn; try lia; try done.
  eexists _, [], _, _. split; [reflexivity|]. cbn. by split_and!.
Qed.

Lemma u8_bounded (b : byte) : u8 b <= 255.
Proof. apply Byte.to_nat_bounded. Qed.

(** A byte of a structure that is not 0 has come from the record. *)
Lemma byte_at_image (size : nat) (r : desc_record) (k : nat) :
  byte_at (image_of_record size r) k <> 0 -> k < r_len r.
Proof.
  intros H. destruct (decide (k < r_len r)) as [|Hge]; [done|].
  exfalso. apply H. unfold byte_at, image_of_record.
  rewrite nth_lookup, lookup_app_r by (rewrite length_wire; lia).
  destruct (replicate _ _ !! _) as [b|] eqn:E; [|reflexivity].
  by apply lookup_replicate in E as [-> _].
Qed.

Lemma wMaxPacketSize_endpoint0 (v : nat) :
  v <= 255 ->
  wMaxPacketSize (set_wMaxPacketSize v zalloc_usb_endpoint_descriptor) = v.
Proof.
  intros Hv.
  unfold wMaxPacketSize, set_wMaxPacketSize, byte_at,
    zalloc_usb_endpoint_descriptor, USB_DT_ENDPOINT_SIZE.
  cbn [e_image replicate insert list_insert nth].
  rewrite (Nat.div_small v 256) by lia.
  rewrite !u8_byte_of_nat by lia. lia.
Qed.

(** Endpoint 0 goes in front of the endpoint array of the first alternate
    setting when bNumEndpoints counts that array. *)
Lemma add_endpoint0_first (v : nat) t cimg img eps :
  first_altsetting t cimg img eps ->
  eps <> [] ->
  byte_at img 4 = length eps ->
  exists t',
    add_endpoint0 v t = Ok t' /\
    t' = update_idescp
           (set_endpoint (set_wMaxPacketSize v zalloc_usb_endpoint_descriptor :: eps))
           (0, 0) t /\
    first_altsetting t' cimg img
      (set_wMaxPacketSize v zalloc_usb_endpoint_descriptor :: eps).
Proof.
  intros (c & cs & i & alts & -> & Ha & Hc & Hi & He) Hne Hnum.
  unfold add_endpoint0. rewrite Ha, He.
  destruct eps as [|e eps]; [done|].
  unfold read_units. unfold bNumEndpoints. rewrite Hi, Hnum.
  rewrite decide_True by done. run. rewrite firstn_all.
  unfold tack_on. cbn [length]. rewrite decide_True by done. run.
  eexists. split; [reflexivity|]. split; [reflexivity|].
  unfold update_idescp. cbn [fst snd alter list_alter].
  eexists _, cs, _, alts. split; [reflexivity|].
  proj. rewrite Ha. cbn [alter list_alter]. by split_and!.
Qed.

Lemma walk_stops_at_zero_length_record_witness :
  extract_config_descriptors (stream [config_of_mouse] ++ x00 :: replicate 24 x00) 34
    = Ok (34, x_cdesc after_config_of_mouse, x_odesc after_config_of_mouse) /\
  parsed after_config_of_mouse = length (stream [config_of_mouse]) /\
  extract_config_descriptors (stream [config_of_mouse]) (length (stream [config_of_mouse]))
    = Ok (length (stream [config_of_mouse]),
          x_cdesc after_config_of_mouse, x_odesc after_config_of_mouse) /\
  match x_cdesc after_config_of_mouse with
  | [] =>
      parse_descriptor one_device USB_DT_CONFIG
        (stream [config_of_mouse] ++ x00 :: replicate 24 x00) 34 4096%N
        = Ok (USB_HOOK_PASS, one_device)
  | c :: _ =>
      (bNumInterfaces c <> 0 /\ 34 <= USB_DT_CONFIG_SIZE ->
       free_each_config [c] = Ok () ->
       exists w',
         parse_descriptor one_device USB_DT_CONFIG
           (stream [config_of_mouse] ++ x00 :: replicate 24 x00) 34 4096%N
           = Ok (USB_HOOK_PASS, w') /\
         w_dev w' = w_dev one_device /\ w_cfg w' = w_cfg one_device) /\
      (~ (bNumInterfaces c <> 0 /\ 34 <= USB_DT_CONFIG_SIZE) ->
       config_freeable one_device (config mouse) ->
       forall t',
         add_endpoint0 (bMaxPacketSize0 (descriptor mouse))
                       (x_cdesc after_config_of_mouse) = Ok t' ->
       exists w',
         parse_descriptor one_device USB_DT_CONFIG
           (stream [config_of_mouse] ++ x00 :: replicate 24 x00) 34 4096%N
           = Ok (USB_HOOK_PASS, w') /\
         w_dev w' !! 4096%N = Some (set_config (w_brk one_device) mouse) /\
         w_cfg w' !! w_brk one_device = Some t')
  end.
Proof.
  apply (walk_stops_at_zero_length_record one_device [config_of_mouse]
           (replicate 24 x00) 34 4096%N mouse after_config_of_mouse).
  - repeat constructor; unfold valid_record; vm_compute; lia.
  - vm_compute. lia.
  - reflexivity.
  - exact one_device_heap_ok.
  - vm_compute. reflexivity.
Defined.

(** Scenario S5: the walk stops at the record of length 0 and the tree of
    the one configuration before it is installed. *)
Example config_before_zero_is_installed :
  exists w',
    parse_descriptor one_device USB_DT_CONFIG
      (stream [config_of_mouse] ++ x00 :: replicate 24 x00) 34 4096%N
      = Ok (USB_HOOK_PASS, w') /\
    w_dev w' !! 4096%N = Some (set_config 8194%N mouse) /\
    w_cfg w' !! 8194%N = Some (x_cdesc after_config_of_mouse).
Proof.
  eexists. split; [vm_compute; reflexivity|]. split; reflexivity.
Qed.

(** ** The fuel of the walk is enough *)

Lemma bind_fuel {A B} (m : result A) (f : A -> result B) :
  m <> OutOfFuel -> (forall a, f a <> OutOfFuel) -> m ≫= f <> OutOfFuel.
Proof. intros Hm Hf. destruct m; simpl; [apply Hf|discriminate|done]. Qed.

Lemma of_option_fuel {A} (o : option A) : of_option o <> OutOfFuel.
Proof. by destruct o. Qed.

Lemma tack_on_fuel {A} (src : list A) n new : tack_on src n new <> OutOfFuel.
Proof. unfold tack_on. by destruct (decide _). Qed.

Lemma struct_of_wire_fuel size bs : struct_of_wire size bs <> OutOfFuel.
Proof. unfold struct_of_wire. by destruct (decide _). Qed.

Lemma read_bytes_fuel buf off n : read_bytes buf off n <> OutOfFuel.
Proof. unfold read_bytes. by destruct (decide _). Qed.

Lemma Ok_fuel {A} (a : A) : Ok a <> OutOfFuel.
Proof. discriminate. Qed.

Create HintDb fuel.
#[local] Hint Resolve of_option_fuel tack_on_fuel struct_of_wire_fuel
  read_bytes_fuel Ok_fuel : fuel.

Ltac fuel := repeat (apply bind_fuel; [|intros ?]); auto with fuel.

Lemma on_record_fuel ty rec st :
  rec <> OutOfFuel -> on_record ty rec st <> OutOfFuel.
Proof.
  intros Hrec.
  unfold on_record, on_config, on_interface, on_endpoint, on_other, deref_idescp.
  destruct ty as [|[|[|[|[|[|ty]]]]]];
    try destruct (last_bDescriptorType st) as [|[|[|[|[|[|last]]]]]];
    try destruct (cdescp st); try destruct (idescp st); fuel.
Qed.

Lemma extract_step_fuel buf st : extract_step buf st <> OutOfFuel.
Proof.
  unfold extract_step, read_u8. apply bind_fuel; [fuel|]. intros len.
  destruct (decide (len = 0)); [fuel|].
  apply bind_fuel; [fuel|]. intros ty.
  apply bind_fuel; [|intros; fuel].
  apply on_record_fuel, read_bytes_fuel.
Qed.

Lemma extract_step_advances buf st st' :
  extract_step buf st = Ok (Some st') -> parsed st < parsed st'.
Proof.
  unfold extract_step. intros H. bind_inv H.
  destruct (decide (r = 0)); [discriminate|].
  bind_inv H. bind_inv H. injection H as <-. simpl.
  rewrite (on_record_parsed _ _ _ _ H2). lia.
Qed.

(** Every turn of the loop moves on by at least one byte, so [len] turns
    are enough: the loop comes to its end. *)
Lemma extract_loop_fuel buf len :
  forall fuel st,
    0 < fuel -> len - parsed st <= fuel ->
    extract_loop fuel buf len st <> OutOfFuel.
Proof.
  induction fuel as [|fuel IH]; intros st Hpos Hfuel; [lia|].
  cbn [extract_loop].
  destruct (extract_step buf st) as [[st'|]| |] eqn:Hstep; simpl; try done.
  - apply extract_step_advances in Hstep.
    destruct (decide (parsed st' < len)); [|done].
    apply IH; lia.
  - by apply extract_step_fuel in Hstep.
Qed.

Theorem extract_config_descriptors_returns buf len :
  extract_config_descriptors buf len <> OutOfFuel.
Proof.
  unfold extract_config_descriptors.
  destruct (decide (len = 0)); [done|].
  apply bind_fuel; [|done].
  apply extract_loop_fuel; lia.
Qed.

(** ** The other collision path, and a disconnect *)

(** The same-port path has the same defect: with no device at the address
    but one on the last-changed port, free_device again gets the address
    number. *)
Lemma new_usb_device_port_collision_faults
    (w : world) (l : list N) (setup : list byte) (io : responses) :
  registry_ok w l ->
  (forall q d, q ∈ l -> w_dev w !! q = Some d -> devnum d <> set_address_devadr setup) ->
  (exists q d, q ∈ l /\ w_dev w !! q = Some d /\ portno d = last_changed_port (w_host w)) ->
  w_dev w !! N.of_nat (set_address_devadr setup) = None ->
  new_usb_device w setup io = Fault.
Proof.
  intros Hreg Hadr (q & d & Hq & Hd & Hport) Hnone.
  destruct Hreg as [Hc Hm].
  destruct (scan_chain_some w (fun d => bool_decide (portno d = last_changed_port (w_host w)))
              None (device (w_host w)) l (size (w_dev w)) Hc) as (q' & Hs & Hn & Hin).
  { exists q, d. split; [done|split; [done|by apply bool_decide_eq_true]]. }
  { by eapply dchain_length. }
  fold (get_device_by_port w (last_changed_port (w_host w))) in Hs.
  unfold new_usb_device. fold (set_address_devadr setup).
  unfold evict_collisions.
  rewrite (get_device_by_address_none w _ l) by done.
  cbv beta iota delta [mbind result_bind]. rewrite decide_True by done.
  cbv beta iota delta [mbind result_bind]. rewrite Hs.
  cbv beta iota delta [mbind result_bind]. rewrite decide_False by done.
  by rewrite (free_device_no_object w _ Hnone).
Qed.

(** Scenario S3: a disconnect on port 1 frees the device on that port, with
    the hook that points back to it; the other device stays. *)
Example disconnect_frees_device :
  exists w',
    handle_connect_status two_devices 0%N 2%N = Ok (0, w') /\
    device (w_host w') = 8194%N /\
    w_dev w' !! 4096%N = None /\
    phase_chain (w_host w') 2
      = [mk_hook 8192%N 0 cb_new_usb_device NULL;
         mk_hook 8195%N 5 cb_device_state_change 8194%N].
Proof.
  eexists. split; [vm_compute; reflexivity|]. repeat split; reflexivity.
Qed.

(** ** Scenarios S1 and S2 *)

(** Scenario S1: a connect on port 1, then SET_ADDRESS 3 and the answers of
    the mouse.  One device at address 3 on port 1, addressed; the first
    alternate setting has bNumEndpoints 1 and 9 extra bytes, endpoint 0
    carries wMaxPacketSize 8 and endpoint 1 is the parsed one. *)
Example enumerate_mouse :
  handle_connect_status empty_host 0%N 1%N = Ok (0, port1_connected) /\
  exists w2 d c i e0,
    new_usb_device port1_connected set_address_3 mouse_answers = Ok (USB_HOOK_PASS, w2) /\
    device (w_host w2) = 8193%N /\
    w_dev w2 !! 8193%N = Some d /\
    devnum d = 3 /\ portno d = 1%N /\ bStatus d = UD_STATUS_ADDRESSED /\
    w_cfg w2 !! config d = Some [c] /\
    altsetting (interface c) = [i] /\
    bNumEndpoints i = 1 /\ i_extralen i = 9 /\
    endpoint i = [e0; endpoint_of_record (record 5 [129; 3; 4; 0; 10])] /\
    wMaxPacketSize e0 = 8 /\
    phase_chain (w_host w2) 2
      = [mk_hook 8192%N 0 cb_new_usb_device NULL;
         mk_hook 8195%N 3 cb_device_state_change 8193%N].
Proof.
  split; [vm_compute; reflexivity|].
  do 5 eexists. split; [vm_compute; reflexivity|].
  split; [reflexivity|]. split; [vm_compute; reflexivity|].
  repeat (split; [reflexivity|]). reflexivity.
Qed.

(** Scenario S2: the SetConfiguration reply marks the device configured. *)
Example set_configuration_advances :
  exists w' d,
    device_state_change one_device 4096%N = Ok (USB_HOOK_PASS, w') /\
    w_dev w' !! 4096%N = Some d /\ bStatus d = UD_STATUS_CONFIGURED.
Proof.
  do 2 eexists. split; [vm_compute; reflexivity|]. split; reflexivity.
Qed.

(** ** More of the walk *)

Lemma feed_last r st st' :
  feed r st = Ok st' -> last_bDescriptorType st' = u8 (r_type r).
Proof. unfold feed. intros H. bind_inv H. by injection H as <-. Qed.

Lemma feed_other_after_interface cimg iimg p (o : desc_record) :
  other_type o ->
  feed o (first_altsetting_state cimg iimg [] 4 p)
  = Ok (interface_extra_state cimg iimg o (p + r_len o)).
Proof.
  intros (H2 & H4 & H5). unfold feed.
  rewrite on_record_other by done.
  unfold on_other, first_altsetting_state. proj. run.
  unfold deref_idescp. proj. cbn [lookup list_lookup]. run. proj.
  cbn [lookup list_lookup]. run. proj.
  rewrite (tack_on_all []). run.
  unfold update_idescp. proj. cbn [alter list_alter]. proj. cbn [alter list_alter].
  reflexivity.
Qed.

Lemma feed_other_after_other cimg iimg p (o1 o2 : desc_record) :
  other_type o1 -> other_type o2 ->
  feed o2 (interface_extra_state cimg iimg o1 p)
  = Ok (mk_extract (x_cdesc (interface_extra_state cimg iimg o1 p))
          (wire o2) (r_len o2) (Some 0) (Some (0, 0)) 1 1 0 (u8 (r_type o2))
          (p + r_len o2)).
Proof.
  intros (A2 & A4 & A5) (B2 & B4 & B5). unfold feed.
  rewrite on_record_other by done.
  rewrite on_other_bucket by done.
  unfold interface_extra_state. proj. run.
  rewrite (tack_on_all []). run. reflexivity.
Qed.

(** X2: of two records of other types that follow an INTERFACE record, only
    the first becomes the extra of the alternate setting; the second one
    goes to the bucket of other descriptors. *)
Theorem second_class_record_goes_to_other_bucket
    (cfg itf o1 o2 : desc_record) (post : list byte) :
  Forall valid_record [cfg; itf; o1; o2] ->
  u8 (r_type cfg) = 2 -> r_len cfg <= USB_DT_CONFIG_SIZE ->
  u8 (r_type itf) = 4 -> r_len itf <= USB_DT_INTERFACE_SIZE ->
  other_type o1 -> other_type o2 ->
  extract_config_descriptors (stream [cfg; itf; o1; o2] ++ post)
                             (length (stream [cfg; itf; o1; o2]))
  = Ok (length (stream [cfg; itf; o1; o2]),
        [mk_config (image_of_record USB_DT_CONFIG_SIZE cfg)
           (mk_interface
              [mk_interface_descriptor (image_of_record USB_DT_INTERFACE_SIZE itf)
                                       [] (wire o1) (r_len o1)] 1) [] 0],
        wire o2).
Proof.
  intros Hv Hc Hcl Hi Hil Ho1 Ho2.
  rewrite extract_exact by done.
  change (feed_all [cfg; itf; o1; o2] extract_init)
    with (feed_all ([cfg; itf] ++ [o1; o2]) extract_init).
  rewrite feed_all_app, feed_config_interface by done. run.
  cbn [feed_all]. rewrite feed_other_after_interface by done. run.
  rewrite feed_other_after_other by done. run.
  reflexivity.
Qed.

Lemma second_class_record_goes_to_other_bucket_witness :
  extract_config_descriptors
    (stream [record 2 [34; 0; 1; 1; 0; 128; 50]; record 4 [0; 0; 1; 3; 1; 2; 0];
             record 33 [16; 1; 0; 1; 34; 52; 0]; record 36 [1; 2; 3]] ++ [])
    (length (stream [record 2 [34; 0; 1; 1; 0; 128; 50]; record 4 [0; 0; 1; 3; 1; 2; 0];
                     record 33 [16; 1; 0; 1; 34; 52; 0]; record 36 [1; 2; 3]]))
  = Ok (length (stream [record 2 [34; 0; 1; 1; 0; 128; 50];
                        record 4 [0; 0; 1; 3; 1; 2; 0];
                        record 33 [16; 1; 0; 1; 34; 52; 0]; record 36 [1; 2; 3]]),
        [mk_config (image_of_record USB_DT_CONFIG_SIZE (record 2 [34; 0; 1; 1; 0; 128; 50]))
           (mk_interface
              [mk_interface_descriptor
                 (image_of_record USB_DT_INTERFACE_SIZE (record 4 [0; 0; 1; 3; 1; 2; 0]))
                 [] (wire (record 33 [16; 1; 0; 1; 34; 52; 0]))
                 (r_len (record 33 [16; 1; 0; 1; 34; 52; 0]))] 1) [] 0],
        wire (record 36 [1; 2; 3])).
Proof.
  apply (second_class_record_goes_to_other_bucket
           (record 2 [34; 0; 1; 1; 0; 128; 50]) (record 4 [0; 0; 1; 3; 1; 2; 0])
           (record 33 [16; 1; 0; 1; 34; 52; 0]) (record 36 [1; 2; 3]) []).
  - repeat constructor; vm_compute; lia.
  - reflexivity.
  - vm_compute; lia.
  - reflexivity.
  - vm_compute; lia.
  - vm_compute. split_and!; lia.
  - vm_compute. split_and!; lia.
Defined.

Lemma stream_app (rs1 rs2 : list desc_record) :
  stream (rs1 ++ rs2) = stream rs1 ++ stream rs2.
Proof. unfold stream. by rewrite map_app, concat_app. Qed.

Lemma feed_other_after_endpoint (o : desc_record) (st : extract_state) :
  other_type o -> last_bDescriptorType st = 5 ->
  feed o st = Ok (advance (r_len o) (u8 (r_type o)) st).
Proof.
  intros (H2 & H4 & H5) Hlast. unfold feed.
  rewrite on_record_other by done. unfold on_other. by rewrite Hlast.
Qed.

(** X3: a record of another type that comes directly after an ENDPOINT
    record is stored nowhere: the walk over the records with it returns the
    tree and the bucket of the walk without it. *)
Theorem record_after_endpoint_is_dropped
    (rs : list desc_record) (e o : desc_record) (post : list byte)
    (l : nat) (t : list usb_config_descriptor) (od : list byte) :
  Forall valid_record (rs ++ [e; o]) ->
  u8 (r_type e) = 5 -> other_type o ->
  extract_config_descriptors (stream (rs ++ [e])) (length (stream (rs ++ [e])))
    = Ok (l, t, od) ->
  extract_config_descriptors (stream (rs ++ [e; o]) ++ post)
                             (length (stream (rs ++ [e; o])))
    = Ok (l + r_len o, t, od).
Proof.
  intros Hv He Ho Hx.
  assert (Hv1 : Forall valid_record (rs ++ [e])).
  { apply Forall_app in Hv as [Hv1 Hv2]. apply Forall_app. split; [done|].
    apply Forall_cons in Hv2 as [? _]. by constructor. }
  rewrite <- (app_nil_r (stream (rs ++ [e]))) in Hx at 1.
  rewrite extract_exact in Hx by done.
  bind_inv Hx. rename r into st. injection Hx as <- <- <-.
  assert (Hlast : last_bDescriptorType st = 5).
  { rewrite feed_all_app in Hx0. bind_inv Hx0. cbn [feed_all] in Hx0.
    bind_inv Hx0. injection Hx0 as <-. rewrite <- He. by eapply feed_last. }
  rewrite extract_exact by done.
  replace (rs ++ [e; o]) with ((rs ++ [e]) ++ [o]) by (by rewrite <- app_assoc).
  rewrite feed_all_app, Hx0. run. cbn [feed_all].
  rewrite feed_other_after_endpoint by done. run. proj.
  rewrite (stream_app (rs ++ [e]) [o]), length_app.
  unfold stream at 2. cbn [map concat]. rewrite app_nil_r, length_wire.
  reflexivity.
Qed.

Lemma record_after_endpoint_is_dropped_witness :
  extract_config_descriptors
    (stream ([record 2 [25; 0; 1; 1; 0; 128; 50]; record 4 [0; 0; 1; 3; 1; 2; 0]]
             ++ [record 5 [129; 3; 4; 0; 10]; record 48 [1; 2; 3; 4]]) ++ [])
    (length (stream ([record 2 [25; 0; 1; 1; 0; 128; 50]; record 4 [0; 0; 1; 3; 1; 2; 0]]
                     ++ [record 5 [129; 3; 4; 0; 10]; record 48 [1; 2; 3; 4]])))
  = Ok (25 + r_len (record 48 [1; 2; 3; 4]),
        [mk_config (wire (record 2 [25; 0; 1; 1; 0; 128; 50]))
           (mk_interface
              [mk_interface_descriptor (wire (record 4 [0; 0; 1; 3; 1; 2; 0]))
                 [endpoint_of_record (record 5 [129; 3; 4; 0; 10])] [] 0] 1) [] 0],
        []).
Proof.
  apply (record_after_endpoint_is_dropped
           [record 2 [25; 0; 1; 1; 0; 128; 50]; record 4 [0; 0; 1; 3; 1; 2; 0]]
           (record 5 [129; 3; 4; 0; 10]) (record 48 [1; 2; 3; 4]) []).
  - repeat constructor; vm_compute; lia.
  - reflexivity.
  - vm_compute. split_and!; lia.
  - vm_compute. reflexivity.
Defined.

Lemma feed_orphan_interface (itf : desc_record) :
  u8 (r_type itf) = 4 ->
  feed itf extract_init = Ok (advance (r_len itf) 4 extract_init).
Proof. intros Hi. unfold feed. by rewrite Hi. Qed.

(** X4: an INTERFACE record with no CONFIG record before it is skipped and
    leaves the interface cursor null; a record of another type directly
    after it is stored through that cursor, and the walk faults. *)
Theorem record_after_orphan_interface_faults
    (itf o : desc_record) (rest : list desc_record) (post : list byte) :
  Forall valid_record (itf :: o :: rest) ->
  u8 (r_type itf) = 4 -> other_type o ->
  extract_config_descriptors (stream (itf :: o :: rest) ++ post)
                             (length (stream (itf :: o :: rest)))
  = Fault.
Proof.
  intros Hv Hi (H2 & H4 & H5).
  rewrite extract_exact by done.
  cbn [feed_all]. rewrite feed_orphan_interface by done. run.
  unfold feed. rewrite on_record_other by done.
  unfold on_other, extract_init. proj. reflexivity.
Qed.

Lemma record_after_orphan_interface_faults_witness :
  extract_config_descriptors
    (stream (record 4 [0; 0; 1; 3; 1; 2; 0] :: record 33 [16; 1; 0; 1; 34; 52; 0]
             :: [record 5 [129; 3; 4; 0; 10]]) ++ [])
    (length (stream (record 4 [0; 0; 1; 3; 1; 2; 0] :: record 33 [16; 1; 0; 1; 34; 52; 0]
                     :: [record 5 [129; 3; 4; 0; 10]])))
  = Fault.
Proof.
  apply (record_after_orphan_interface_faults
           (record 4 [0; 0; 1; 3; 1; 2; 0]) (record 33 [16; 1; 0; 1; 34; 52; 0])
           [record 5 [129; 3; 4; 0; 10]] []).
  - repeat constructor; vm_compute; lia.
  - reflexivity.
  - vm_compute. split_and!; lia.
Defined.

Lemma feed_orphans (rs : list desc_record) :
  forall p last,
    Forall (fun r => u8 (r_type r) = 4 \/ u8 (r_type r) = 5) rs ->
    exists p' last',
      feed_all rs (mk_extract [] [] 0 None None 0 0 0 last p)
      = Ok (mk_extract [] [] 0 None None 0 0 0 last' p').
Proof.
  induction rs as [|r rs IH]; intros p last Hrs; [by eexists _, _|].
  apply Forall_cons in Hrs as [Hr Hrs].
  cbn [feed_all]. unfold feed.
  destruct Hr as [-> | ->]; cbn [on_record]; unfold on_interface, on_endpoint; proj;
    run; unfold advance; proj; apply IH, Hrs.
Qed.

(** X5: a CONFIG response made of INTERFACE and ENDPOINT records only, with
    no CONFIG record, builds no tree: parse_descriptor returns PASS and
    leaves the device, its old tree and the rest of the memory as they
    were. *)
Theorem parse_descriptor_without_config_record
    (w : world) (dev : N) (d : usb_device) (rs : list desc_record) (post : list byte) :
  w_dev w !! dev = Some d ->
  Forall valid_record rs ->
  Forall (fun r => u8 (r_type r) = 4 \/ u8 (r_type r) = 5) rs ->
  parse_descriptor w USB_DT_CONFIG (stream rs ++ post) (length (stream rs)) dev
  = Ok (USB_HOOK_PASS, w).
Proof.
  intros Hd Hv Hrs. unfold parse_descriptor, deref. rewrite Hd. run.
  unfold USB_DT_CONFIG, parse_config. rewrite extract_exact by done.
  destruct (feed_orphans rs 0 0 Hrs) as (p' & last' & Hf).
  fold extract_init in Hf. rewrite Hf. run. proj. reflexivity.
Qed.

Lemma parse_descriptor_without_config_record_witness :
  parse_descriptor one_device USB_DT_CONFIG
    (stream [record 4 [0; 0; 1; 3; 1; 2; 0]; record 5 [129; 3; 4; 0; 10]] ++ [])
    (length (stream [record 4 [0; 0; 1; 3; 1; 2; 0]; record 5 [129; 3; 4; 0; 10]]))
    4096%N
  = Ok (USB_HOOK_PASS, one_device).
Proof.
  apply (parse_descriptor_without_config_record one_device 4096%N mouse
           [record 4 [0; 0; 1; 3; 1; 2; 0]; record 5 [129; 3; 4; 0; 10]] []).
  - reflexivity.
  - repeat constructor; vm_compute; lia.
  - apply Forall_cons. split; [left; reflexivity|].
    apply Forall_cons. split; [right; reflexivity|]. constructor.
Defined.

Lemma feed_second_config cimg iimg eps last p (cfg2 : desc_record) :
  u8 (r_type cfg2) = 2 -> r_len cfg2 <= USB_DT_CONFIG_SIZE ->
  feed cfg2 (first_altsetting_state cimg iimg eps last p)
  = Ok (second_config_state cimg iimg eps
          (image_of_record USB_DT_CONFIG_SIZE cfg2) (p + r_len cfg2)).
Proof.
  intros Hc Hl. unfold feed. rewrite Hc. cbn [on_record]. unfold on_config. run.
  rewrite struct_of_wire_image by done. run.
  unfold first_altsetting_state. proj.
  unfold tack_on. cbn [length]. rewrite decide_True by done. run.
  reflexivity.
Qed.

Lemma feed_endpoint_after_second_config cimg iimg eps cimg2 p (e : desc_record) :
  u8 (r_type e) = 5 -> r_len e <= USB_DT_ENDPOINT_SIZE ->
  feed e (second_config_state cimg iimg eps cimg2 p)
  = Ok (mk_extract
          [mk_config cimg
             (mk_interface [mk_interface_descriptor iimg [endpoint_of_record e] [] 0] 1) [] 0;
           mk_config cimg2 zalloc_usb_interface [] 0]
          [] 0 (Some 1) (Some (0, 0)) 2 0 1 5 (p + r_len e)).
Proof.
  intros He Hl. unfold feed. rewrite He. cbn [on_record]. unfold on_endpoint.
  unfold second_config_state. proj. unfold deref_idescp. proj.
  cbn [lookup list_lookup]. run. proj. cbn [lookup list_lookup]. run.
  rewrite struct_of_wire_image by done. run. proj.
  unfold tack_on. rewrite decide_True by lia. run.
  unfold update_idescp, endpoint_of_record, image_of_record.
  proj. cbn [alter list_alter]. proj. cbn [alter list_alter take app].
  reflexivity.
Qed.

(** X6: a second CONFIG record moves the configuration cursor but leaves
    the interface cursor where it was and clears the endpoint count.  The
    ENDPOINT record after it therefore lands in the first alternate setting
    of the first configuration, where it takes the place of the endpoints
    parsed so far; the second configuration gets no alternate setting. *)
Theorem endpoint_after_second_config_replaces_first
    (cfg1 itf cfg2 e2 : desc_record) (es : list desc_record) (post : list byte) :
  Forall valid_record (cfg1 :: itf :: es ++ [cfg2; e2]) ->
  u8 (r_type cfg1) = 2 -> r_len cfg1 <= USB_DT_CONFIG_SIZE ->
  u8 (r_type itf) = 4 -> r_len itf <= USB_DT_INTERFACE_SIZE ->
  Forall (fun r => u8 (r_type r) = 5 /\ r_len r <= USB_DT_ENDPOINT_SIZE) es ->
  u8 (r_type cfg2) = 2 -> r_len cfg2 <= USB_DT_CONFIG_SIZE ->
  u8 (r_type e2) = 5 -> r_len e2 <= USB_DT_ENDPOINT_SIZE ->
  extract_config_descriptors (stream (cfg1 :: itf :: es ++ [cfg2; e2]) ++ post)
                             (length (stream (cfg1 :: itf :: es ++ [cfg2; e2])))
  = Ok (length (stream (cfg1 :: itf :: es ++ [cfg2; e2])),
        [mk_config (image_of_record USB_DT_CONFIG_SIZE cfg1)
           (mk_interface
              [mk_interface_descriptor (image_of_record USB_DT_INTERFACE_SIZE itf)
                                       [endpoint_of_record e2] [] 0] 1) [] 0;
         mk_config (image_of_record USB_DT_CONFIG_SIZE cfg2) zalloc_usb_interface [] 0],
        []).
Proof.
  intros Hv Hc1 Hl1 Hi Hil Hes Hc2 Hl2 He2 Hle2.
  rewrite extract_exact by done.
  change (feed_all (cfg1 :: itf :: es ++ [cfg2; e2]) extract_init)
    with (feed_all ([cfg1; itf] ++ (es ++ [cfg2; e2])) extract_init).
  rewrite feed_all_app, feed_config_interface by done. run.
  rewrite feed_all_app.
  destruct (feed_endpoints_append (image_of_record USB_DT_CONFIG_SIZE cfg1)
              (image_of_record USB_DT_INTERFACE_SIZE itf) es [] 4
              (r_len cfg1 + r_len itf) Hes) as (last' & p' & ->).
  run. cbn [feed_all app].
  rewrite feed_second_config by done. run.
  rewrite feed_endpoint_after_second_config by done. run.
  reflexivity.
Qed.

Lemma endpoint_after_second_config_replaces_first_witness :
  extract_config_descriptors
    (stream (record 2 [25; 0; 1; 1; 0; 128; 50] :: record 4 [0; 0; 1; 3; 1; 2; 0]
             :: [record 5 [129; 3; 4; 0; 10]]
             ++ [record 2 [9; 0; 0; 2; 0; 128; 50]; record 5 [2; 2; 64; 0; 0]]) ++ [])
    (length (stream (record 2 [25; 0; 1; 1; 0; 128; 50] :: record 4 [0; 0; 1; 3; 1; 2; 0]
                     :: [record 5 [129; 3; 4; 0; 10]]
                     ++ [record 2 [9; 0; 0; 2; 0; 128; 50]; record 5 [2; 2; 64; 0; 0]])))
  = Ok (length (stream (record 2 [25; 0; 1; 1; 0; 128; 50]
                        :: record 4 [0; 0; 1; 3; 1; 2; 0]
                        :: [record 5 [129; 3; 4; 0; 10]]
                        ++ [record 2 [9; 0; 0; 2; 0; 128; 50]; record 5 [2; 2; 64; 0; 0]])),
        [mk_config (image_of_record USB_DT_CONFIG_SIZE (record 2 [25; 0; 1; 1; 0; 128; 50]))
           (mk_interface
              [mk_interface_descriptor
                 (image_of_record USB_DT_INTERFACE_SIZE (record 4 [0; 0; 1; 3; 1; 2; 0]))
                 [endpoint_of_record (record 5 [2; 2; 64; 0; 0])] [] 0] 1) [] 0;
         mk_config (image_of_record USB_DT_CONFIG_SIZE (record 2 [9; 0; 0; 2; 0; 128; 50]))
                   zalloc_usb_interface [] 0],
        []).
Proof.
  apply (endpoint_after_second_config_replaces_first
           (record 2 [25; 0; 1; 1; 0; 128; 50]) (record 4 [0; 0; 1; 3; 1; 2; 0])
           (record 2 [9; 0; 0; 2; 0; 128; 50]) (record 5 [2; 2; 64; 0; 0])
           [record 5 [129; 3; 4; 0; 10]] []).
  - repeat constructor; vm_compute; lia.
  - reflexivity.
  - vm_compute; lia.
  - reflexivity.
  - vm_compute; lia.
  - repeat constructor; vm_compute; lia.
  - reflexivity.
  - vm_compute; lia.
  - reflexivity.
  - vm_compute; lia.
Defined.

(** The endpoint-0 step copies bNumEndpoints units of the parsed endpoint
    array behind the made-up endpoint: with a smaller bNumEndpoints the
    endpoints beyond it are cut off, with a larger one the copy reads past
    the end of the array. *)
Lemma add_endpoint0_take
    (v : nat) (t : list usb_config_descriptor) (cimg img : list byte)
    (eps : list usb_endpoint_descriptor) :
  first_altsetting t cimg img eps ->
  eps <> [] ->
  (byte_at img 4 <= length eps ->
   add_endpoint0 v t
   = Ok (update_idescp
           (set_endpoint (set_wMaxPacketSize v zalloc_usb_endpoint_descriptor
                          :: take (byte_at img 4) eps))
           (0, 0) t)) /\
  (length eps < byte_at img 4 -> add_endpoint0 v t = Fault).
Proof.
  intros (c & cs & i & alts & -> & Ha & Hc & Hi & He) Hne.
  unfold add_endpoint0. rewrite Ha, He.
  destruct eps as [|e eps]; [done|].
  unfold read_units, bNumEndpoints. rewrite Hi. split; intros Hk.
  - rewrite decide_True by done. run.
    unfold tack_on. cbn [length]. rewrite decide_True by done. run.
    reflexivity.
  - rewrite decide_False by lia. reflexivity.
Qed.

(** X8: when the INTERFACE record of the first alternate setting announces
    more endpoints than ENDPOINT records follow it, the endpoint-0 step of
    parse_descriptor copies bNumEndpoints units out of the shorter array:
    the call reads past the end of the array. *)
Theorem parse_descriptor_missing_endpoints_faults
    (w : world) (dev : N) (d : usb_device)
    (cfg itf : desc_record) (eps : list desc_record) :
  w_dev w !! dev = Some d ->
  heap_ok w ->
  config_freeable w (config d) ->
  Forall valid_record (cfg :: itf :: eps) ->
  u8 (r_type cfg) = 2 -> r_len cfg <= USB_DT_CONFIG_SIZE ->
  u8 (r_type itf) = 4 -> r_len itf <= USB_DT_INTERFACE_SIZE ->
  Forall (fun r => u8 (r_type r) = 5 /\ r_len r <= USB_DT_ENDPOINT_SIZE) eps ->
  eps <> [] ->
  length eps < byte_at (wire itf) 4 ->
  parse_descriptor w USB_DT_CONFIG (stream (cfg :: itf :: eps))
                   (length (stream (cfg :: itf :: eps))) dev
  = Fault.
Proof.
  intros Hd (Hnn & Hdevs & Hcfgs) Hold Hv Hc Hcl Hi Hil Heps Hne Hnum.
  set (cimg := image_of_record USB_DT_CONFIG_SIZE cfg).
  set (iimg := image_of_record USB_DT_INTERFACE_SIZE itf).
  assert (Hitf : 4 < r_len itf).
  { destruct (decide (4 < r_len itf)) as [|Hge]; [done|]. exfalso.
    unfold byte_at in Hnum. rewrite nth_overflow in Hnum by (rewrite length_wire; lia).
    change (u8 x00) with 0 in Hnum. lia. }
  assert (Hk : byte_at iimg 4 = byte_at (wire itf) 4).
  { unfold iimg, image_of_record, byte_at.
    by rewrite app_nth1 by (rewrite length_wire; lia). }
  unfold parse_descriptor, deref. rewrite Hd. run.
  unfold USB_DT_CONFIG, parse_config.
  rewrite <- (app_nil_r (stream (cfg :: itf :: eps))) at 1.
  rewrite extract_exact by done.
  change (feed_all (cfg :: itf :: eps) extract_init)
    with (feed_all ([cfg; itf] ++ eps) extract_init).
  rewrite feed_all_app, feed_config_interface by done. run. fold cimg iimg.
  destruct (feed_endpoints_append cimg iimg eps [] 4 (r_len cfg + r_len itf) Heps)
    as (last' & p' & ->).
  run. unfold first_altsetting_state. proj. cbn [app].
  rewrite decide_False.
  2:{ intros [Hn Hlen]. unfold bNumInterfaces in Hn. cbn [c_image] in Hn.
      apply byte_at_image in Hn.
      rewrite !length_stream_cons in Hlen. unfold USB_DT_CONFIG_SIZE in Hlen.
      destruct eps as [|e eps]; [done|]. rewrite length_stream_cons in Hlen.
      unfold r_len in *. lia. }
  assert (Hep : add_endpoint0 (bMaxPacketSize0 (descriptor d))
                  [mk_config cimg
                     (mk_interface
                        [mk_interface_descriptor iimg (map endpoint_of_record eps) [] 0] 1)
                     [] 0] = Fault).
  { unfold add_endpoint0. proj.
    destruct (map endpoint_of_record eps) as [|e0 es0] eqn:Hm.
    - destruct eps; [done|discriminate Hm].
    - unfold read_units, bNumEndpoints. cbn [i_image]. rewrite Hk.
      rewrite decide_False; [reflexivity|].
      rewrite <- Hm, length_map. lia. }
  destruct (decide (config d = NULL)) as [Hnull|Hnull].
  - run. by rewrite Hep.
  - destruct Hold as [?|(told & Htold & Hlen & Hfree)]; [done|].
    assert (Hne' : w_brk w <> config d).
    { intros Heq.
      assert (0 < config d < w_brk w)%N by (apply Hcfgs; eauto). lia. }
    unfold free_config_descriptors. cbn [w_host w_dev w_cfg w_brk w_removed].
    rewrite decide_False by done.
    rewrite lookup_insert_ne by done. rewrite Htold. run.
    rewrite decide_True by done. rewrite Hfree. run.
    by rewrite Hep.
Qed.

Lemma parse_descriptor_missing_endpoints_faults_witness :
  parse_descriptor one_device USB_DT_CONFIG
    (stream (record 2 [25; 0; 1; 1; 0; 128; 50] :: record 4 [0; 0; 2; 3; 1; 2; 0]
             :: [record 5 [129; 3; 4; 0; 10]]))
    (length (stream (record 2 [25; 0; 1; 1; 0; 128; 50] :: record 4 [0; 0; 2; 3; 1; 2; 0]
                     :: [record 5 [129; 3; 4; 0; 10]])))
    4096%N
  = Fault.
Proof.
  apply (parse_descriptor_missing_endpoints_faults one_device 4096%N mouse
           (record 2 [25; 0; 1; 1; 0; 128; 50]) (record 4 [0; 0; 2; 3; 1; 2; 0])
           [record 5 [129; 3; 4; 0; 10]]).
  - reflexivity.
  - exact one_device_heap_ok.
  - left. reflexivity.
  - repeat constructor; vm_compute; lia.
  - reflexivity.
  - vm_compute; lia.
  - reflexivity.
  - vm_compute; lia.
  - repeat constructor; vm_compute; lia.
  - discriminate.
  - vm_compute; lia.
Defined.
(** ** What free_device leaves alone *)

Lemma same_ids_refl (m : gmap N usb_device) : same_ids m m.
Proof. by intros q. Qed.

Lemma same_ids_trans (m1 m2 m3 : gmap N usb_device) :
  same_ids m1 m2 -> same_ids m2 m3 -> same_ids m1 m3.
Proof. intros H1 H2 q. by rewrite H2, H1. Qed.

Lemma same_ids_insert (m : gmap N usb_device) (p : N) (d d' : usb_device) :
  m !! p = Some d -> ident d' = ident d -> same_ids m (<[p := d']> m).
Proof.
  intros Hd Hi q. destruct (decide (p = q)) as [<-|Hne].
  - rewrite lookup_insert_eq, Hd. simpl. by rewrite Hi.
  - by rewrite lookup_insert_ne.
Qed.

Lemma unlink_device_ids (w w3 : world) (dev : N) (d : usb_device) :
  unlink_device w dev d = Ok w3 -> same_ids (w_dev w) (w_dev w3).
Proof.
  unfold unlink_device. intros H. bind_inv H. rename r into w1.
  assert (H1 : same_ids (w_dev w) (w_dev w1)).
  { destruct (decide (device (w_host w) = dev)).
    - injection H0 as <-. apply same_ids_refl.
    - destruct (decide (prev d = NULL)); [discriminate|].
      bind_inv H0. apply of_option_Ok in H1. injection H0 as <-.
      by apply (same_ids_insert _ _ r). }
  destruct (decide (next d = NULL)).
  - by injection H as <-.
  - bind_inv H. apply of_option_Ok in H2. injection H as <-.
    eapply same_ids_trans; [exact H1|]. by apply (same_ids_insert _ _ r).
Qed.

Lemma run_remove_removed (dev : N) (d : usb_device) (w : world) :
  w_removed (run_remove dev d w)
  = if has_remove d then w_removed w ++ [dev] else w_removed w.
Proof. unfold run_remove, has_remove. by destruct (handle d) as [[[]]|]. Qed.

(** free_device on a device of the chain, with everything it changes and
    everything it leaves. *)
Lemma free_device_effect (w : world) (l1 l2 : list N) (dev : N) (d : usb_device) :
  registry_ok w (l1 ++ dev :: l2) ->
  w_dev w !! dev = Some d ->
  config_freeable w (config d) ->
  exists w',
    free_device w dev = Ok (0, w') /\
    registry_ok w' (l1 ++ l2) /\
    w_dev w' !! dev = None /\
    (forall q, q <> dev -> ident <$> w_dev w' !! q = ident <$> w_dev w !! q) /\
    hook (w_host w') = hook (unhook_device dev (w_host w)) /\
    last_changed_port (w_host w') = last_changed_port (w_host w) /\
    w_cfg w' = (if decide (config d = NULL) then w_cfg w
                else delete (config d) (w_cfg w)) /\
    w_brk w' = w_brk w /\
    w_removed w' = (if has_remove d then w_removed w ++ [dev] else w_removed w).
Proof.
  intros Hreg Hd Hfree.
  destruct (unhook_device_spec dev (w_host w)) as (U1 & U2 & U3 & U4).
  set (w0 := set_host (unhook_device dev (w_host w)) w).
  assert (Hw1 : exists w1,
             (if decide (config d = NULL) then Ok w0
              else free_config_descriptors w0 (config d) 1) = Ok w1 /\
             w_host w1 = w_host w0 /\ w_dev w1 = w_dev w /\
             w_brk w1 = w_brk w /\ w_removed w1 = w_removed w /\
             w_cfg w1 = (if decide (config d = NULL) then w_cfg w
                         else delete (config d) (w_cfg w))).
  { destruct (decide (config d = NULL)) as [Hn|Hn]; [by exists w0|].
    eexists. split; [by apply free_config_descriptors_ok|]. done. }
  destruct Hw1 as (w1 & Hw1 & Hh1 & Hd1 & Hb1 & Hr1 & Hc1).
  set (w2 := run_remove dev d w1).
  assert (Hw2 : w_host w2 = w_host w0 /\ w_dev w2 = w_dev w /\
                w_cfg w2 = w_cfg w1 /\ w_brk w2 = w_brk w).
  { unfold w2, run_remove. destruct (handle d) as [[[]]|]; by simpl. }
  destruct Hw2 as (Hh2 & Hd2 & Hc2 & Hb2).
  assert (Hreg2 : registry_ok w2 (l1 ++ dev :: l2)).
  { eapply registry_ok_frame; [exact Hd2| | |exact Hreg]; by rewrite Hh2. }
  destruct (unlink_device_ok w2 dev d l1 l2 Hreg2) as
    (w3 & Hw3 & Hreg3 & Hhook3 & Hport3 & Hcfg3 & Hbrk3 & Hrem3); [by rewrite Hd2|].
  pose proof (unlink_device_ids _ _ _ _ Hw3) as Hids. rewrite Hd2 in Hids.
  exists (set_dev (delete dev (w_dev w3)) w3). split_and!.
  - unfold free_device. fold w0. unfold deref.
    replace (w_dev w0) with (w_dev w) by done. rewrite Hd. simpl.
    rewrite Hw1. simpl. fold w2. rewrite Hw3. reflexivity.
  - exact Hreg3.
  - apply lookup_delete_eq.
  - intros q Hq. cbn [w_dev set_dev]. rewrite lookup_delete_ne by done. apply Hids.
  - cbn [w_host set_dev]. by rewrite Hhook3, Hh2.
  - cbn [w_host set_dev]. by rewrite Hport3, Hh2.
  - cbn [w_cfg set_dev]. by rewrite Hcfg3, Hc2.
  - cbn [w_brk set_dev]. by rewrite Hbrk3.
  - cbn [w_removed set_dev]. rewrite Hrem3. unfold w2.
    by rewrite run_remove_removed, Hr1.
Qed.

(** X9: free_device on a device of the chain frees the configuration array
    of that device and no other, runs the remove callback of the class
    handle exactly when the device has one, and leaves every field of the
    other devices apart from their links, and the last-changed port, as
    they were. *)
Theorem free_device_frees_what_the_device_owns
    (w : world) (l1 l2 : list N) (dev : N) (d : usb_device) :
  registry_ok w (l1 ++ dev :: l2) ->
  w_dev w !! dev = Some d ->
  config_freeable w (config d) ->
  exists w',
    free_device w dev = Ok (0, w') /\
    (config d <> NULL -> w_cfg w' !! config d = None) /\
    (forall p, p <> config d -> w_cfg w' !! p = w_cfg w !! p) /\
    (forall q, q <> dev -> ident <$> w_dev w' !! q = ident <$> w_dev w !! q) /\
    w_removed w' = (if has_remove d then w_removed w ++ [dev] else w_removed w) /\
    last_changed_port (w_host w') = last_changed_port (w_host w).
Proof.
  intros Hreg Hd Hfree.
  destruct (free_device_effect w l1 l2 dev d Hreg Hd Hfree)
    as (w' & Hw' & _ & _ & Hids & _ & Hport & Hcfg & _ & Hrem).
  exists w'. split_and!; try done.
  - intros Hn. rewrite Hcfg, decide_False by done. apply lookup_delete_eq.
  - intros p Hp. rewrite Hcfg. destruct (decide (config d = NULL)); [done|].
    by rewrite lookup_delete_ne.
Qed.

Lemma free_device_frees_what_the_device_owns_witness :
  exists w',
    free_device configured 4096%N = Ok (0, w') /\
    (config (set_config 6000%N mouse) <> NULL ->
     w_cfg w' !! config (set_config 6000%N mouse) = None) /\
    (forall p, p <> config (set_config 6000%N mouse) ->
               w_cfg w' !! p = w_cfg configured !! p) /\
    (forall q, q <> 4096%N ->
               ident <$> w_dev w' !! q = ident <$> w_dev configured !! q) /\
    w_removed w' = (if has_remove (set_config 6000%N mouse)
                    then w_removed configured ++ [4096%N] else w_removed configured) /\
    last_changed_port (w_host w') = last_changed_port (w_host configured).
Proof.
  apply (free_device_frees_what_the_device_owns configured [] [] 4096%N
           (set_config 6000%N mouse)).
  - split.
    + eapply (dchain_cons _ _ _ (set_config 6000%N mouse));
        [done|reflexivity|intros ? ?; discriminate|apply dchain_nil].
    + intros b Hb. injection Hb as <-. reflexivity.
  - reflexivity.
  - right. exists [bare_config_tree]. split; [reflexivity|]. split; [simpl; lia|reflexivity].
Defined.

(** ** The hooks free_device keeps *)

Lemma filter_ext_elem {A} (P Q : A -> Prop) `{!forall x, Decision (P x)}
    `{!forall x, Decision (Q x)} (l : list A) :
  (forall x, x ∈ l -> (P x <-> Q x)) -> filter P l = filter Q l.
Proof.
  induction l as [|a l IH]; intros Hext; [reflexivity|].
  rewrite !filter_cons.
  assert (Ha : P a <-> Q a) by (apply Hext, list_elem_of_here).
  rewrite IH by (intros x Hx; apply Hext; by apply list_elem_of_further).
  destruct (decide (P a)), (decide (Q a)); tauto.
Qed.

Lemma NoDup_fmap_elem {A B} (f : A -> B) (l : list A) (x y : A) :
  NoDup (f <$> l) -> x ∈ l -> y ∈ l -> f x = f y -> x = y.
Proof.
  induction l as [|a l IH]; intros Hnd Hx Hy Hf; [by apply elem_of_nil in Hx|].
  rewrite fmap_cons in Hnd. apply NoDup_cons in Hnd as [Ha Hnd].
  apply elem_of_cons in Hx as [->|Hx]; apply elem_of_cons in Hy as [->|Hy].
  - reflexivity.
  - exfalso. apply Ha. rewrite Hf. by apply list_elem_of_fmap_2.
  - exfalso. apply Ha. rewrite <- Hf. by apply list_elem_of_fmap_2.
  - by apply IH.
Qed.

(** The walk of one phase takes off the chain the hooks whose address is
    that of a hook of the device in the snapshot. *)
Lemma unhook_fold_chain (dev : N) (phase : nat) (snap : list usb_hook) (h : usb_host) :
  let h' := fold_left (fun h hk => if decide (hk_dev hk = dev)
                                 then usb_hook_unregister h (phase + 1) hk else h) snap h in
  phase_chain h' phase
  = filter (fun x => hk_addr x ∉ (hk_addr <$> filter (fun hk => hk_dev hk = dev) snap))
           (phase_chain h phase) /\
  (forall ph, ph <> phase -> phase_chain h' ph = phase_chain h ph).
Proof.
  revert h. induction snap as [|hk0 snap IH]; intros h; cbn [fold_left].
  - split; [|done]. cbn. symmetry. induction (phase_chain h phase) as [|a l IHl]; [done|].
    rewrite filter_cons, decide_True by (intros Hin; by apply elem_of_nil in Hin).
    by rewrite IHl.
  - set (h1 := if decide (hk_dev hk0 = dev)
               then usb_hook_unregister h (phase + 1) hk0 else h).
    destruct (IH h1) as [Hc Ho]. split.
    + rewrite Hc. unfold h1. rewrite filter_cons.
      destruct (decide (hk_dev hk0 = dev)) as [Hdev|Hdev]; [|reflexivity].
      rewrite phase_chain_unregister, decide_True by done.
      rewrite list_filter_filter. apply list_filter_iff. intros x.
      rewrite fmap_cons, not_elem_of_cons. tauto.
    + intros ph Hph. rewrite (Ho ph Hph). unfold h1.
      destruct (decide (hk_dev hk0 = dev)); [|done].
      by rewrite phase_chain_unregister, decide_False.
Qed.

Lemma unhook_phase_chain (dev : N) (h : usb_host) (phase : nat) :
  NoDup (hk_addr <$> phase_chain h phase) ->
  phase_chain (unhook_phase dev h phase) phase
  = filter (fun hk => hk_dev hk <> dev) (phase_chain h phase) /\
  (forall ph, ph <> phase ->
     phase_chain (unhook_phase dev h phase) ph = phase_chain h ph).
Proof.
  intros Hnd.
  destruct (unhook_fold_chain dev phase (phase_chain h phase) h) as [Hc Ho].
  unfold unhook_phase. split; [|exact Ho]. rewrite Hc.
  apply filter_ext_elem. intros x Hx. split.
  - intros Hnot Hdev. apply Hnot. apply list_elem_of_fmap_2.
    by apply list_elem_of_filter.
  - intros Hdev Hin. apply list_elem_of_fmap in Hin as (y & Heq & Hy).
    apply list_elem_of_filter in Hy as [Hydev Hy].
    assert (x = y) by (by eapply NoDup_fmap_elem). congruence.
Qed.

Lemma unhook_device_chain (dev : N) (h : usb_host) :
  hooks_distinct h ->
  forall phase, phase < USB_HOOK_NUM_PHASE ->
    phase_chain (unhook_device dev h) phase
    = filter (fun hk => hk_dev hk <> dev) (phase_chain h phase).
Proof.
  intros Hnd. unfold unhook_device, USB_HOOK_NUM_PHASE. cbn [seq fold_left].
  destruct (unhook_phase_chain dev h 0 (Hnd 0)) as [A1 A2].
  set (h1 := unhook_phase dev h 0) in *.
  destruct (unhook_phase_chain dev h1 1) as [B1 B2].
  { rewrite A2 by done. apply Hnd. }
  set (h2 := unhook_phase dev h1 1) in *.
  destruct (unhook_phase_chain dev h2 2) as [C1 C2].
  { rewrite B2, A2 by done. apply Hnd. }
  intros phase Hphase. destruct phase as [|[|[|phase]]]; [| | |lia].
  - by rewrite C2, B2, A1.
  - by rewrite C2, B1, A2.
  - by rewrite C1, B2, A2.
Qed.

(** X10: free_device takes the hooks of the device off every phase chain
    and no other hook: each chain keeps, in their order, the hooks whose
    back-link is not the device. *)
Theorem free_device_keeps_the_other_hooks
    (w : world) (l1 l2 : list N) (dev : N) (d : usb_device) :
  registry_ok w (l1 ++ dev :: l2) ->
  w_dev w !! dev = Some d ->
  config_freeable w (config d) ->
  hooks_distinct (w_host w) ->
  exists w',
    free_device w dev = Ok (0, w') /\
    forall phase, phase < USB_HOOK_NUM_PHASE ->
      phase_chain (w_host w') phase
      = filter (fun hk => hk_dev hk <> dev) (phase_chain (w_host w) phase).
Proof.
  intros Hreg Hd Hfree Hnd.
  destruct (free_device_effect w l1 l2 dev d Hreg Hd Hfree)
    as (w' & Hw' & _ & _ & _ & Hhook & _).
  exists w'. split; [done|]. intros phase Hphase.
  rewrite <- (unhook_device_chain dev (w_host w) Hnd phase Hphase).
  unfold phase_chain. by rewrite Hhook.
Qed.

Lemma two_devices_hooks_distinct : hooks_distinct (w_host two_devices).
Proof.
  intros [|[|[|phase]]]; cbn; try apply NoDup_nil_2.
  apply (bool_decide_unpack _). vm_compute. exact I.
Qed.

Lemma free_device_keeps_the_other_hooks_witness :
  exists w',
    free_device two_devices 4096%N = Ok (0, w') /\
    forall phase, phase < USB_HOOK_NUM_PHASE ->
      phase_chain (w_host w') phase
      = filter (fun hk => hk_dev hk <> 4096%N) (phase_chain (w_host two_devices) phase).
Proof.
  apply (free_device_keeps_the_other_hooks two_devices [8194%N] [] 4096%N
           (set_prev 8194%N mouse)).
  - exact two_devices_ok.
  - reflexivity.
  - left. reflexivity.
  - exact two_devices_hooks_distinct.
Defined.
(** ** Port status *)

(** A scan that meets a device with the property returns the first one. *)
Lemma scan_chain_first (w : world) (P : usb_device -> bool) before p l fuel :
  dchain (w_dev w) before p l ->
  (exists q d, q ∈ l /\ w_dev w !! q = Some d /\ P d = true) ->
  length l <= fuel ->
  exists l1 q l2 d,
    l = l1 ++ q :: l2 /\ w_dev w !! q = Some d /\ P d = true /\
    (forall q' d', q' ∈ l1 -> w_dev w !! q' = Some d' -> P d' = false) /\
    scan_chain fuel w P p = Ok q.
Proof.
  intros H. revert fuel.
  induction H as [b|b p d l Hp Hd Hb Hl IH]; intros fuel (q & dq & Hq & Hdq & HP) Hfuel.
  - by apply elem_of_nil in Hq.
  - destruct fuel as [|fuel]; simpl in Hfuel; [lia|].
    simpl. rewrite decide_False by done.
    unfold deref. rewrite Hd. simpl.
    destruct (P d) eqn:HPd.
    + exists [], p, l, d. split_and!; try done.
      intros q' d' Hin. by apply elem_of_nil in Hin.
    + apply elem_of_cons in Hq as [->|Hq]; [congruence|].
      destruct (IH fuel) as (l1 & q' & l2 & d' & -> & Hd' & HP' & Hbefore & Hs);
        [by eauto|lia|].
      exists (p :: l1), q', l2, d'. split_and!; try done.
      intros q0 d0 Hin Hd0. apply elem_of_cons in Hin as [->|Hin]; [congruence|].
      by eapply Hbefore.
Qed.

Lemma get_device_by_port_first (w : world) (port : N) (l : list N) :
  registry_ok w l ->
  (exists q d, q ∈ l /\ w_dev w !! q = Some d /\ portno d = port) ->
  exists l1 q l2 d,
    l = l1 ++ q :: l2 /\ w_dev w !! q = Some d /\ portno d = port /\
    (forall q' d', q' ∈ l1 -> w_dev w !! q' = Some d' -> portno d' <> port) /\
    q <> NULL /\
    get_device_by_port w port = Ok q.
Proof.
  intros [Hc _] (q & d & Hq & Hd & Hport).
  destruct (scan_chain_first w (fun d => bool_decide (portno d = port))
              None (device (w_host w)) l (size (w_dev w)) Hc)
    as (l1 & q' & l2 & d' & -> & Hd' & HP & Hbefore & Hs).
  { exists q, d. split; [done|split; [done|by apply bool_decide_eq_true]]. }
  { by eapply dchain_length. }
  exists l1, q', l2, d'. split_and!; try done.
  - by apply bool_decide_eq_true in HP.
  - intros q0 d0 Hin Hd0. eapply bool_decide_eq_false, Hbefore; eauto.
  - eapply (dchain_lookup _ _ _ _ q' Hc).
    apply elem_of_app. right. apply list_elem_of_here.
Qed.

(** X11: with no device of the chain on the port, handle_connect_status
    returns 0 and frees nothing: a disconnect alone changes nothing, and a
    connect records the port, counted from 1, as the last-changed port. *)
Theorem handle_connect_status_unknown_port
    (w : world) (l : list N) (portno_ : N) (status : N) :
  registry_ok w l ->
  (forall q d, q ∈ l -> w_dev w !! q = Some d -> portno d <> u64_add portno_ 1) ->
  handle_connect_status w portno_ status
  = Ok (0, if decide (N.land status 1 = 0%N) then w
           else set_host (set_last_changed_port (u64_add portno_ 1) (w_host w)) w).
Proof.
  intros Hreg Hport. unfold handle_connect_status.
  assert (Hw1 : (if decide (N.land status 2 = 0%N) then Ok w
                 else dev ← get_device_by_port w (u64_add portno_ 1);
                      if decide (dev = NULL) then Ok w
                      else '(_, w') ← free_device w dev; Ok w') = Ok w).
  { destruct (decide (N.land status 2 = 0%N)); [done|].
    by rewrite (get_device_by_port_none w _ l Hreg Hport). }
  rewrite Hw1. run. by destruct (decide (N.land status 1 = 0%N)).
Qed.

Lemma handle_connect_status_unknown_port_witness :
  handle_connect_status one_device 6%N 3%N
  = Ok (0, if decide (N.land 3 1 = 0%N) then one_device
           else set_host (set_last_changed_port (u64_add 6 1) (w_host one_device))
                         one_device).
Proof.
  apply (handle_connect_status_unknown_port one_device [4096%N] 6%N 3%N).
  - exact one_device_ok.
  - intros q d Hq Hd. apply list_elem_of_singleton in Hq. subst q.
    vm_compute in Hd. injection Hd as <-. discriminate.
Defined.

(** X12: a disconnect on a port that has a device frees the first device
    of the chain on that port: the call returns 0, the device is gone from
    memory and from the chain, the chain of the other devices is intact,
    and the last-changed port changes only when the connect bit is set
    too. *)
Theorem handle_connect_status_frees_device_on_port
    (w : world) (l : list N) (portno_ : N) (status : N) :
  registry_ok w l ->
  N.land status 2 <> 0%N ->
  (exists q d, q ∈ l /\ w_dev w !! q = Some d /\ portno d = u64_add portno_ 1) ->
  (forall q d, q ∈ l -> w_dev w !! q = Some d -> config_freeable w (config d)) ->
  exists l1 dev l2 d w',
    l = l1 ++ dev :: l2 /\ w_dev w !! dev = Some d /\ portno d = u64_add portno_ 1 /\
    (forall q dq, q ∈ l1 -> w_dev w !! q = Some dq -> portno dq <> u64_add portno_ 1) /\
    handle_connect_status w portno_ status = Ok (0, w') /\
    registry_ok w' (l1 ++ l2) /\
    w_dev w' !! dev = None /\
    last_changed_port (w_host w')
    = (if decide (N.land status 1 = 0%N) then last_changed_port (w_host w)
       else u64_add portno_ 1).
Proof.
  intros Hreg Hbit Hex Hfree.
  destruct (get_device_by_port_first w _ l Hreg Hex)
    as (l1 & dev & l2 & d & -> & Hd & Hport & Hbefore & Hnn & Hs).
  destruct (free_device_effect w l1 l2 dev d Hreg Hd)
    as (w1 & Hw1 & Hreg1 & Hgone & _ & _ & Hlast & _).
  { apply (Hfree dev d); [|done]. apply elem_of_app. right. apply list_elem_of_here. }
  exists l1, dev, l2, d,
    (if decide (N.land status 1 = 0%N) then w1
     else set_host (set_last_changed_port (u64_add portno_ 1) (w_host w1)) w1).
  split_and!; try done.
  - unfold handle_connect_status. rewrite decide_False by done.
    rewrite Hs. run. rewrite decide_False by done. rewrite Hw1. run.
    destruct (decide (N.land status 1 = 0%N)); reflexivity.
  - destruct (decide (N.land status 1 = 0%N)); [done|].
    by eapply registry_ok_frame; [| | |exact Hreg1].
  - by destruct (decide (N.land status 1 = 0%N)).
  - by destruct (decide (N.land status 1 = 0%N)).
Qed.

Lemma handle_connect_status_frees_device_on_port_witness :
  exists l1 dev l2 d w',
    [8194%N; 4096%N] = l1 ++ dev :: l2 /\ w_dev two_devices !! dev = Some d /\
    portno d = u64_add 0 1 /\
    (forall q dq, q ∈ l1 -> w_dev two_devices !! q = Some dq -> portno dq <> u64_add 0 1) /\
    handle_connect_status two_devices 0%N 2%N = Ok (0, w') /\
    registry_ok w' (l1 ++ l2) /\
    w_dev w' !! dev = None /\
    last_changed_port (w_host w')
    = (if decide (N.land 2 1 = 0%N) then last_changed_port (w_host two_devices)
       else u64_add 0 1).
Proof.
  apply (handle_connect_status_frees_device_on_port two_devices [8194%N; 4096%N] 0%N 2%N).
  - exact two_devices_ok.
  - discriminate.
  - exists 4096%N, (set_prev 8194%N mouse).
    split; [apply list_elem_of_further, list_elem_of_here|split; reflexivity].
  - intros q d Hq Hd.
    apply elem_of_cons in Hq as [->|Hq]; [|apply list_elem_of_singleton in Hq; subst q];
      vm_compute in Hd; injection Hd as <-; by left.
Defined.

(** X13: a reset on a port that has a device records the port, counted
    from 1, as the last-changed port and frees the first device of the
    chain on that port; the call returns 0. *)
Theorem handle_port_reset_frees_device_on_port
    (w : world) (l : list N) (portno_ : N) (status : N) (offset : nat) :
  registry_ok w l ->
  offset < 16 ->
  N.testbit status (N.of_nat offset) = true ->
  (exists q d, q ∈ l /\ w_dev w !! q = Some d /\ portno d = u64_add portno_ 1) ->
  (forall q d, q ∈ l -> w_dev w !! q = Some d -> config_freeable w (config d)) ->
  exists l1 dev l2 d w',
    l = l1 ++ dev :: l2 /\ w_dev w !! dev = Some d /\ portno d = u64_add portno_ 1 /\
    (forall q dq, q ∈ l1 -> w_dev w !! q = Some dq -> portno dq <> u64_add portno_ 1) /\
    handle_port_reset w portno_ status offset = Ok (0, w') /\
    registry_ok w' (l1 ++ l2) /\
    w_dev w' !! dev = None /\
    last_changed_port (w_host w') = u64_add portno_ 1.
Proof.
  intros Hreg Hoff Hbit Hex Hfree.
  destruct (get_device_by_port_first w _ l Hreg Hex)
    as (l1 & dev & l2 & d & -> & Hd & Hport & Hbefore & Hnn & Hs).
  set (w1 := set_host (set_last_changed_port (u64_add portno_ 1) (w_host w)) w).
  assert (Hreg1 : registry_ok w1 (l1 ++ dev :: l2))
    by (by eapply registry_ok_frame; [| | |exact Hreg]).
  destruct (free_device_effect w1 l1 l2 dev d Hreg1 Hd)
    as (w2 & Hw2 & Hreg2 & Hgone & _ & _ & Hlast & _).
  { apply (Hfree dev d); [|done]. apply elem_of_app. right. apply list_elem_of_here. }
  exists l1, dev, l2, d, w2. split_and!; try done.
  unfold handle_port_reset.
  rewrite decide_False by lia.
  rewrite decide_False by (by apply reset_flag_set).
  rewrite Hs. run. rewrite decide_False by done.
  fold w1. rewrite Hw2. reflexivity.
Qed.

Lemma handle_port_reset_frees_device_on_port_witness :
  exists l1 dev l2 d w',
    [8194%N; 4096%N] = l1 ++ dev :: l2 /\ w_dev two_devices !! dev = Some d /\
    portno d = u64_add 1 1 /\
    (forall q dq, q ∈ l1 -> w_dev two_devices !! q = Some dq -> portno dq <> u64_add 1 1) /\
    handle_port_reset two_devices 1%N 512%N 9 = Ok (0, w') /\
    registry_ok w' (l1 ++ l2) /\
    w_dev w' !! dev = None /\
    last_changed_port (w_host w') = u64_add 1 1.
Proof.
  apply (handle_port_reset_frees_device_on_port two_devices [8194%N; 4096%N] 1%N 512%N 9).
  - exact two_devices_ok.
  - lia.
  - reflexivity.
  - exists 8194%N, keyboard.
    split; [apply list_elem_of_here|split; reflexivity].
  - intros q d Hq Hd.
    apply elem_of_cons in Hq as [->|Hq]; [|apply list_elem_of_singleton in Hq; subst q];
      vm_compute in Hd; injection Hd as <-; by left.
Defined.

Lemma reset_flag_clear (status : N) (offset : nat) :
  16 <= offset \/ N.testbit status (N.of_nat offset) = false ->
  N.land status (N.shiftl 1 (N.of_nat offset) mod 2 ^ 16) = 0%N.
Proof.
  intros H. rewrite N.shiftl_1_l.
  destruct (decide (16 <= offset)) as [Hge|Hlt].
  - replace (N.of_nat offset) with (N.of_nat (offset - 16) + 16)%N by lia.
    rewrite N.pow_add_r, N.Div0.mod_mul. apply N.land_0_r.
  - destruct H as [?|Hbit]; [lia|].
    rewrite N.mod_small by (apply N.pow_lt_mono_r; lia).
    apply N.bits_inj. intros k.
    rewrite N.land_spec, N.bits_0, N.pow2_bits_eqb.
    destruct (N.eqb_spec (N.of_nat offset) k) as [<-|_].
    + by rewrite Hbit.
    + apply andb_false_r.
Qed.

(** X14: handle_port_reset looks at the status bit the offset names, in a
    flag of 16 bits.  When that bit is clear, or when the offset is from 16
    to 30 (the shifted flag is then 0; from 31 on the shift is undefined),
    the call returns 0 and changes nothing, whatever device sits on the
    port. *)
Theorem handle_port_reset_flag_clear
    (w : world) (portno_ : N) (status : N) (offset : nat) :
  offset < 31 ->
  16 <= offset \/ N.testbit status (N.of_nat offset) = false ->
  handle_port_reset w portno_ status offset = Ok (0, w).
Proof.
  intros Hoff Hclear. unfold handle_port_reset.
  rewrite decide_False by lia.
  by rewrite decide_True by (by apply reset_flag_clear).
Qed.

Lemma handle_port_reset_flag_clear_witness :
  handle_port_reset two_devices 1%N 65535%N 16 = Ok (0, two_devices).
Proof.
  apply (handle_port_reset_flag_clear two_devices 1%N 65535%N 16).
  - lia.
  - left. lia.
Defined.

(** ** What parse_descriptor changes *)

Lemma parse_descriptor_effect (w w' : world) desc buf len dev v (d : usb_device) :
  w_dev w !! dev = Some d ->
  parse_descriptor w desc buf len dev = Ok (v, w') ->
  v = USB_HOOK_PASS /\ w_host w' = w_host w /\ w_removed w' = w_removed w /\
  (w_brk w <= w_brk w')%N /\
  (forall q, q <> dev -> w_dev w' !! q = w_dev w !! q) /\
  exists d',
    w_dev w' !! dev = Some d' /\
    devnum d' = devnum d /\ portno d' = portno d /\ bStatus d' = bStatus d /\
    handle d' = handle d /\ next d' = next d /\ prev d' = prev d /\
    (desc <> USB_DT_DEVICE -> descriptor d' = descriptor d) /\
    (desc <> USB_DT_CONFIG -> config d' = config d /\ w_cfg w' = w_cfg w).
Proof.
  intros Hd H. unfold parse_descriptor, deref in H. rewrite Hd in H.
  cbv beta iota delta [mbind result_bind of_option] in H.
  bind_inv H. injection H as <- <-. rename r into w'.
  assert (Hsame : forall w0 : world,
             w_host w0 = w_host w -> w_removed w0 = w_removed w ->
             (w_brk w <= w_brk w0)%N -> w_dev w0 = w_dev w ->
             (desc <> USB_DT_CONFIG -> w_cfg w0 = w_cfg w) ->
             USB_HOOK_PASS = USB_HOOK_PASS /\ w_host w0 = w_host w /\
             w_removed w0 = w_removed w /\ (w_brk w <= w_brk w0)%N /\
             (forall q, q <> dev -> w_dev w0 !! q = w_dev w !! q) /\
             exists d',
               w_dev w0 !! dev = Some d' /\
               devnum d' = devnum d /\ portno d' = portno d /\ bStatus d' = bStatus d /\
               handle d' = handle d /\ next d' = next d /\ prev d' = prev d /\
               (desc <> USB_DT_DEVICE -> descriptor d' = descriptor d) /\
               (desc <> USB_DT_CONFIG -> config d' = config d /\ w_cfg w0 = w_cfg w)).
  { intros w0 Hh Hr Hb Hdv Hc. split_and!; try done.
    - intros q _. by rewrite Hdv.
    - exists d. rewrite Hdv. split_and!; try done. intros Hn. split; [done|by apply Hc]. }
  destruct desc as [|[|[|desc]]].
  - injection H0 as <-. by apply Hsame.
  - unfold parse_device in H0. bind_inv H0.
    destruct (decide _) in H0; [|discriminate].
    injection H0 as <-. cbn [w_host w_dev w_cfg w_brk w_removed set_dev].
    split_and!; try done.
    + intros q Hq. by rewrite lookup_insert_ne.
    + eexists. rewrite lookup_insert_eq. split; [reflexivity|].
      split_and!; try done.
  - unfold parse_config in H0. bind_inv H0. destruct r as [[l_cdesc t] od].
    destruct t as [|c t]; [injection H0 as <-; by apply Hsame|].
    cbn [alloc_cfg] in H0. cbv beta iota in H0.
    destruct (decide _) in H0.
    + apply free_config_descriptors_frame in H0 as (Hh & Hdv & Hb & Hr & _).
      cbn [w_host w_dev w_brk w_removed] in *.
      apply Hsame; try done; lia.
    + bind_inv H0. rename r into w2. bind_inv H0. injection H0 as <-.
      assert (Hr : w_host w2 = w_host w /\ w_dev w2 = w_dev w /\
                   w_removed w2 = w_removed w /\ w_brk w2 = N.succ (w_brk w)).
      { destruct (decide (config d = NULL)); [by injection H2 as <-|].
        by apply free_config_descriptors_frame in H2 as (-> & -> & -> & -> & _). }
      destruct Hr as (Hh & Hdv & Hr & Hb).
      cbn [w_host w_dev w_cfg w_brk w_removed set_dev set_cfg].
      split_and!; try done; [lia| |].
      * intros q Hq. by rewrite lookup_insert_ne, Hdv.
      * eexists. rewrite lookup_insert_eq. split; [reflexivity|].
        split_and!; try done.
  - injection H0 as <-. by apply Hsame.
Qed.

(** X15: parse_descriptor returns PASS and writes to the descriptors of the
    one device only: the host with its hooks and last-changed port, every
    other device, and the address, port, state, class handle and links of
    the device itself stay as they were; a DEVICE response leaves the
    configuration tree alone, a CONFIG response the device descriptor, and
    a response of any other type changes nothing. *)
Theorem parse_descriptor_writes_descriptors_only
    (w w' : world) (desc : nat) (buf : list byte) (len : nat) (dev : N)
    (v : hook_verdict) (d : usb_device) :
  w_dev w !! dev = Some d ->
  parse_descriptor w desc buf len dev = Ok (v, w') ->
  v = USB_HOOK_PASS /\ w_host w' = w_host w /\ w_removed w' = w_removed w /\
  (forall q, q <> dev -> w_dev w' !! q = w_dev w !! q) /\
  exists d',
    w_dev w' !! dev = Some d' /\
    devnum d' = devnum d /\ portno d' = portno d /\ bStatus d' = bStatus d /\
    handle d' = handle d /\ next d' = next d /\ prev d' = prev d /\
    (desc <> USB_DT_DEVICE -> descriptor d' = descriptor d) /\
    (desc <> USB_DT_CONFIG -> config d' = config d /\ w_cfg w' = w_cfg w).
Proof.
  intros Hd H.
  destruct (parse_descriptor_effect _ _ _ _ _ _ _ _ Hd H)
    as (Hv & Hh & Hr & _ & Hq & Hd').
  by split_and!.
Qed.

Lemma parse_descriptor_writes_descriptors_only_witness :
  USB_HOOK_PASS = USB_HOOK_PASS /\
  w_host (set_dev (<[4096%N := set_descriptor
                                  (bytes [18;1;16;1;0;0;0;8] ++ drop 8 (descriptor mouse))
                                  mouse]> (w_dev one_device)) one_device)
    = w_host one_device /\
  w_removed (set_dev (<[4096%N := set_descriptor
                                     (bytes [18;1;16;1;0;0;0;8] ++ drop 8 (descriptor mouse))
                                     mouse]> (w_dev one_device)) one_device)
    = w_removed one_device /\
  (forall q, q <> 4096%N ->
     w_dev (set_dev (<[4096%N := set_descriptor
                                   (bytes [18;1;16;1;0;0;0;8] ++ drop 8 (descriptor mouse))
                                   mouse]> (w_dev one_device)) one_device) !! q
     = w_dev one_device !! q) /\
  exists d',
    w_dev (set_dev (<[4096%N := set_descriptor
                                  (bytes [18;1;16;1;0;0;0;8] ++ drop 8 (descriptor mouse))
                                  mouse]> (w_dev one_device)) one_device) !! 4096%N
      = Some d' /\
    devnum d' = devnum mouse /\ portno d' = portno mouse /\ bStatus d' = bStatus mouse /\
    handle d' = handle mouse /\ next d' = next mouse /\ prev d' = prev mouse /\
    (USB_DT_DEVICE <> USB_DT_DEVICE -> descriptor d' = descriptor mouse) /\
    (USB_DT_DEVICE <> USB_DT_CONFIG ->
     config d' = config mouse /\
     w_cfg (set_dev (<[4096%N := set_descriptor
                                   (bytes [18;1;16;1;0;0;0;8] ++ drop 8 (descriptor mouse))
                                   mouse]> (w_dev one_device)) one_device)
     = w_cfg one_device).
Proof.
  apply (parse_descriptor_writes_descriptors_only one_device _ USB_DT_DEVICE
           (bytes [18;1;16;1;0;0;0;8]) 8 4096%N USB_HOOK_PASS mouse).
  - reflexivity.
  - vm_compute. reflexivity.
Defined.

(** ** What new_usb_device builds *)

Lemma link_new_device_effect (w w2 : world) (devadr : nat) (dev : N) :
  heap_ok w ->
  link_new_device w devadr = Ok (dev, w2) ->
  dev = w_brk w /\
  w_dev w2 !! w_brk w
  = Some (mk_device devadr (last_changed_port (w_host w)) UD_STATUS_ADDRESSED
                    (descriptor zalloc_usb_device) NULL None (device (w_host w)) NULL) /\
  (forall q, q <> w_brk w -> ident <$> w_dev w2 !! q = ident <$> w_dev w !! q) /\
  last_changed_port (w_host w2) = last_changed_port (w_host w) /\
  hook (w_host w2) = hook (w_host w) /\
  w_brk w2 = N.succ (w_brk w) /\ w_cfg w2 = w_cfg w /\ w_removed w2 = w_removed w.
Proof.
  intros (Hnn & Hdev & _) H. unfold link_new_device in H. cbn [next] in H.
  bind_inv H. rename r into devs. injection H as <- <-.
  cbn [w_host w_dev w_cfg w_brk w_removed set_device last_changed_port hook].
  split_and!; try done.
  - apply lookup_insert_eq.
  - intros q Hq. rewrite lookup_insert_ne by done.
    destruct (decide (device (w_host w) = NULL)); [by injection H0 as <-|].
    bind_inv H0. apply of_option_Ok in H1. injection H0 as <-.
    by apply (same_ids_insert _ _ r).
Qed.

Lemma fetch_descriptor_effect (w w' : world) desc (r : response) dev (d : usb_device) :
  w_dev w !! dev = Some d ->
  fetch_descriptor desc r dev w = Ok w' ->
  w_host w' = w_host w /\ w_removed w' = w_removed w /\
  (w_brk w <= w_brk w')%N /\
  (forall q, q <> dev -> w_dev w' !! q = w_dev w !! q) /\
  exists d',
    w_dev w' !! dev = Some d' /\
    devnum d' = devnum d /\ portno d' = portno d /\ bStatus d' = bStatus d /\
    handle d' = handle d /\ next d' = next d /\ prev d' = prev d.
Proof.
  intros Hd H. unfold fetch_descriptor in H.
  destruct (decide _) in H.
  - bind_inv H. destruct r0 as [v w1]. injection H as <-.
    destruct (parse_descriptor_effect _ _ _ _ _ _ _ _ Hd H0)
      as (_ & Hh & Hr & Hb & Hq & d' & Hd' & ? & ? & ? & ? & ? & ? & _).
    split_and!; try done. exists d'. by split_and!.
  - injection H as <-. split_and!; try done. exists d. by split_and!.
Qed.

(** new_usb_device when SET_ADDRESS meets no device with the same address
    or port. *)
Lemma new_usb_device_effect
    (w : world) (l : list N) (setup : list byte) (io : responses)
    (v : hook_verdict) (w' : world) :
  registry_ok w l ->
  heap_ok w ->
  no_collision w l (set_address_devadr setup) ->
  new_usb_device w setup io = Ok (v, w') ->
  v = USB_HOOK_PASS /\
  registry_ok w' (w_brk w :: l) /\
  (exists d,
     w_dev w' !! w_brk w = Some d /\
     devnum d = set_address_devadr setup /\
     portno d = last_changed_port (w_host w) /\
     bStatus d = UD_STATUS_ADDRESSED /\ handle d = None /\
     next d = device (w_host w) /\ prev d = NULL) /\
  (forall q, q <> w_brk w -> ident <$> w_dev w' !! q = ident <$> w_dev w !! q) /\
  (exists a,
     (w_brk w < a)%N /\ w_brk w' = N.succ a /\
     hook (w_host w')
     = alter (fun chain => chain ++ [set_configuration_hook a (set_address_devadr setup)
                                                            (w_brk w)])
             (USB_HOOK_REPLY - 1) (hook (w_host w))) /\
  last_changed_port (w_host w') = last_changed_port (w_host w) /\
  w_removed w' = w_removed w.
Proof.
  intros Hreg Hheap Hno H.
  destruct (link_new_device_ok w l (set_address_devadr setup) Hreg Hheap)
    as (w2 & Hlink & Hhead & Hc & Hbus & Hhook).
  destruct (link_new_device_effect _ _ _ _ Hheap Hlink)
    as (_ & Hd2 & Hids2 & Hport2 & Hhook2 & Hbrk2 & _ & Hrem2).
  destruct (mirror_bus_fields (w_host w2)) as (F1 & F2 & F3).
  assert (Hreg3 : registry_ok (usb_find_devices w2) (w_brk w :: l)).
  { split; simpl; [by rewrite F1, Hhead|apply mirror_bus_ok]. }
  unfold new_usb_device in H. fold (set_address_devadr setup) in H.
  rewrite (evict_collisions_none w l _ Hreg Hno) in H. simpl in H.
  rewrite Hlink in H. simpl in H.
  bind_inv H. rename r into w4. bind_inv H. rename r into w5.
  injection H as <- <-.
  pose proof (fetch_descriptor_frame _ _ _ _ _ H0) as [Hh4 Hs4].
  pose proof (fetch_descriptor_frame _ _ _ _ _ H1) as [Hh5 Hs5].
  destruct (fetch_descriptor_effect (usb_find_devices w2) _ _ _ _ _ Hd2 H0)
    as (_ & Hr4 & Hb4 & Hq4 & d4 & Hd4 & A1 & A2 & A3 & A4 & A5 & A6).
  destruct (fetch_descriptor_effect _ _ _ _ _ _ Hd4 H1)
    as (_ & Hr5 & Hb5 & Hq5 & d5 & Hd5 & B1 & B2 & B3 & B4 & B5 & B6).
  cbn [w_host w_dev w_cfg w_brk w_removed usb_find_devices set_host] in *.
  split_and!.
  - reflexivity.
  - destruct Hreg3 as [Hc3 Hm3]. split; cbn [w_host w_dev].
    + change (device (usb_hook_register (w_host w5) USB_HOOK_REPLY _))
        with (device (w_host w5)).
      rewrite Hh5, Hh4.
      eapply dchain_same_links; [|exact Hc3].
      eapply same_links_trans; eauto.
    + unfold mirror_ok. cbn [bus device usb_hook_register set_hook].
      rewrite Hh5, Hh4. exact Hm3.
  - exists d5. split_and!; try done.
    + by rewrite B1, A1.
    + by rewrite B2, A2.
    + by rewrite B3, A3.
    + by rewrite B4, A4.
    + by rewrite B5, A5.
    + by rewrite B6, A6.
  - intros q Hq. rewrite Hq5, Hq4 by done. by apply Hids2.
  - exists (w_brk w5). split_and!; [lia|reflexivity|].
    cbn [hook usb_hook_register set_hook]. by rewrite Hh5, Hh4, F2, Hhook2.
  - cbn [last_changed_port usb_hook_register set_hook].
    by rewrite Hh5, Hh4, F3, Hport2.
  - by rewrite Hr5, Hr4.
Qed.
Lemma ident_lookup (m m' : gmap N usb_device) (q : N) (d' : usb_device) :
  ident <$> m' !! q = ident <$> m !! q -> m' !! q = Some d' ->
  exists d, m !! q = Some d /\ ident d = ident d'.
Proof.
  intros H Hd'. rewrite Hd' in H. destruct (m !! q) as [d|]; [|discriminate].
  exists d. split; [done|]. simpl in H. congruence.
Qed.

Lemma set_address_devadr_mod (setup : list byte) :
  set_address_devadr setup = get_wValue_from_setup setup mod 128.
Proof.
  unfold set_address_devadr. generalize (get_wValue_from_setup setup). intros x.
  pose proof (Nat.land_ones (x mod 256) 7) as E.
  change (Nat.ones 7) with 127 in E. change (2 ^ 7) with 128 in E. rewrite E.
  change 256 with (128 * 2).
  rewrite Nat.Div0.mod_mul_r, (Nat.mul_comm 128), Nat.Div0.mod_add.
  apply Nat.Div0.mod_mod.
Qed.

Lemma phase_chain_hook (h h' : usb_host) (ph : nat) :
  hook h' = hook h -> phase_chain h' ph = phase_chain h ph.
Proof. unfold phase_chain. by intros ->. Qed.

Lemma phase_chain_register (h : usb_host) (phase : nat) (hk : usb_hook) (ph : nat) :
  phase_chain (usb_hook_register h phase hk) ph
  = if decide (ph = phase - 1)
    then match hook h !! (phase - 1) with
         | Some chain => chain ++ [hk]
         | None => []
         end
    else phase_chain h ph.
Proof.
  unfold phase_chain, usb_hook_register. cbn [hook set_hook].
  destruct (decide (ph = phase - 1)) as [->|Hne].
  - rewrite list_lookup_alter_eq. by destruct (hook h !! (phase - 1)).
  - by rewrite list_lookup_alter_ne.
Qed.

(** X16: when SET_ADDRESS meets no device with the same address or port
    and new_usb_device returns, it returns PASS; the new device carries the
    low seven bits of wValue as its address and the last-changed port as
    its port, is in the state ADDRESSED and has no class handle; the REPLY
    chain has the SetConfiguration hook of the device, with the device as
    back-link, at its end, and the other chains are as they were. *)
Theorem new_usb_device_fills_in_device
    (w : world) (l : list N) (setup : list byte) (io : responses)
    (v : hook_verdict) (w' : world) :
  registry_ok w l ->
  heap_ok w ->
  no_collision w l (set_address_devadr setup) ->
  USB_HOOK_NUM_PHASE <= length (hook (w_host w)) ->
  new_usb_device w setup io = Ok (v, w') ->
  v = USB_HOOK_PASS /\
  (exists d,
     w_dev w' !! w_brk w = Some d /\
     devnum d = get_wValue_from_setup setup mod 128 /\
     portno d = last_changed_port (w_host w) /\
     bStatus d = UD_STATUS_ADDRESSED /\ handle d = None) /\
  (exists a,
     phase_chain (w_host w') (USB_HOOK_REPLY - 1)
     = phase_chain (w_host w) (USB_HOOK_REPLY - 1)
       ++ [set_configuration_hook a (get_wValue_from_setup setup mod 128) (w_brk w)]) /\
  (forall phase, phase <> USB_HOOK_REPLY - 1 ->
     phase_chain (w_host w') phase = phase_chain (w_host w) phase) /\
  last_changed_port (w_host w') = last_changed_port (w_host w).
Proof.
  intros Hreg Hheap Hno Hlen H.
  destruct (new_usb_device_effect w l setup io v w' Hreg Hheap Hno H)
    as (Hv & _ & (d & Hd & D1 & D2 & D3 & D4 & _) & _ & (a & _ & _ & Hhook) & Hport & _).
  pose proof (set_address_devadr_mod setup) as Hadr.
  rewrite Hadr in *.
  assert (Hw' : forall ph,
             phase_chain (w_host w') ph
             = phase_chain (usb_hook_register (w_host w) USB_HOOK_REPLY
                              (set_configuration_hook a
                                 (get_wValue_from_setup setup mod 128) (w_brk w))) ph).
  { intros ph. by apply phase_chain_hook. }
  split_and!; try done.
  - exists d. by split_and!.
  - exists a. rewrite Hw', phase_chain_register, decide_True by done.
    unfold phase_chain.
    destruct (hook (w_host w) !! (USB_HOOK_REPLY - 1)) as [chain|] eqn:E; [done|].
    apply lookup_ge_None in E. unfold USB_HOOK_NUM_PHASE, USB_HOOK_REPLY in *.
    simpl in E. lia.
  - intros phase Hphase. by rewrite Hw', phase_chain_register, decide_False.
Qed.

Lemma new_usb_device_fills_in_device_witness :
  USB_HOOK_PASS = USB_HOOK_PASS /\
  (exists d,
     w_dev two_devices !! w_brk one_device = Some d /\
     devnum d = get_wValue_from_setup set_address_5 mod 128 /\
     portno d = last_changed_port (w_host one_device) /\
     bStatus d = UD_STATUS_ADDRESSED /\ handle d = None) /\
  (exists a,
     phase_chain (w_host two_devices) (USB_HOOK_REPLY - 1)
     = phase_chain (w_host one_device) (USB_HOOK_REPLY - 1)
       ++ [set_configuration_hook a (get_wValue_from_setup set_address_5 mod 128)
                                  (w_brk one_device)]) /\
  (forall phase, phase <> USB_HOOK_REPLY - 1 ->
     phase_chain (w_host two_devices) phase = phase_chain (w_host one_device) phase) /\
  last_changed_port (w_host two_devices) = last_changed_port (w_host one_device).
Proof.
  apply (new_usb_device_fills_in_device one_device [4096%N] set_address_5 keyboard_answers
           USB_HOOK_PASS two_devices).
  - exact one_device_ok.
  - exact one_device_heap_ok.
  - intros q d Hq Hd. apply list_elem_of_singleton in Hq. subst q.
    vm_compute in Hd. injection Hd as <-. split; discriminate.
  - unfold USB_HOOK_NUM_PHASE. simpl. lia.
  - vm_compute. reflexivity.
Defined.

(** ** Looking a device up *)

Lemma scan_chain_head (w : world) (P : usb_device -> bool) (p : N) (d : usb_device)
    (fuel : nat) :
  p <> NULL -> w_dev w !! p = Some d -> P d = true -> 0 < fuel ->
  scan_chain fuel w P p = Ok p.
Proof.
  intros Hp Hd HP Hfuel. destruct fuel as [|fuel]; [lia|].
  simpl. rewrite decide_False by done. unfold deref. rewrite Hd. simpl. by rewrite HP.
Qed.

Lemma dchain_head (m : gmap N usb_device) before p l :
  dchain m before p l -> p = hd NULL l.
Proof. by destruct 1. Qed.

(** X17: the device new_usb_device has linked is the one a lookup by its
    address finds, and the one a lookup by the last-changed port finds. *)
Theorem new_usb_device_is_found
    (w : world) (l : list N) (setup : list byte) (io : responses)
    (v : hook_verdict) (w' : world) :
  registry_ok w l ->
  heap_ok w ->
  no_collision w l (set_address_devadr setup) ->
  new_usb_device w setup io = Ok (v, w') ->
  get_device_by_address w' (set_address_devadr setup) = Ok (w_brk w) /\
  get_device_by_port w' (last_changed_port (w_host w)) = Ok (w_brk w).
Proof.
  intros Hreg Hheap Hno H.
  destruct (new_usb_device_effect w l setup io v w' Hreg Hheap Hno H)
    as (_ & [Hc Hm] & (d & Hd & D1 & D2 & _) & _).
  pose proof (dchain_head _ _ _ _ Hc) as Hhead. cbn [hd] in Hhead.
  pose proof (dchain_length _ _ _ _ Hc) as Hlen. cbn [length] in Hlen.
  destruct Hheap as (Hnn & _).
  unfold get_device_by_address, get_device_by_port. rewrite Hhead.
  split; apply (scan_chain_head _ _ _ d); try done; try lia;
    by apply bool_decide_eq_true.
Qed.

Lemma new_usb_device_is_found_witness :
  get_device_by_address two_devices (set_address_devadr set_address_5)
    = Ok (w_brk one_device) /\
  get_device_by_port two_devices (last_changed_port (w_host one_device))
    = Ok (w_brk one_device).
Proof.
  apply (new_usb_device_is_found one_device [4096%N] set_address_5 keyboard_answers
           USB_HOOK_PASS two_devices).
  - exact one_device_ok.
  - exact one_device_heap_ok.
  - intros q d Hq Hd. apply list_elem_of_singleton in Hq. subst q.
    vm_compute in Hd. injection Hd as <-. split; discriminate.
  - vm_compute. reflexivity.
Defined.

(** ** Unique addresses and ports *)

(** X18: when no two devices of the chain share an address or a port and
    SET_ADDRESS meets no device with the same address or port, the chain
    new_usb_device returns has no two such devices either. *)
Theorem new_usb_device_keeps_ids_unique
    (w : world) (l : list N) (setup : list byte) (io : responses)
    (v : hook_verdict) (w' : world) :
  registry_ok w l ->
  heap_ok w ->
  no_collision w l (set_address_devadr setup) ->
  unique_ids w l ->
  new_usb_device w setup io = Ok (v, w') ->
  unique_ids w' (w_brk w :: l).
Proof.
  intros Hreg Hheap Hno Huniq H.
  destruct (new_usb_device_effect w l setup io v w' Hreg Hheap Hno H)
    as (_ & _ & (d & Hd & D1 & D2 & _) & Hids & _).
  assert (Hold : forall q dq', q ∈ l -> w_dev w' !! q = Some dq' ->
             q <> w_brk w /\
             exists dq, w_dev w !! q = Some dq /\ ident dq = ident dq').
  { intros q dq' Hq Hdq'.
    assert (Hne : q <> w_brk w).
    { intros ->. destruct Hreg as [Hc _].
      destruct (dchain_lookup _ _ _ _ _ Hc Hq) as [_ Hs].
      destruct Hheap as (_ & Hdev & _). apply Hdev in Hs. lia. }
    split; [done|]. by apply (ident_lookup _ _ _ _ (Hids q Hne)). }
  intros p q dp dq Hp Hq Hpq Hdp Hdq.
  apply elem_of_cons in Hp as [->|Hp]; apply elem_of_cons in Hq as [->|Hq].
  - done.
  - destruct (Hold q dq Hq Hdq) as (_ & dq0 & Hdq0 & Hi).
    assert (dp = d) by congruence. subst dp.
    destruct (Hno q dq0 Hq Hdq0) as [Ha Hb].
    unfold ident in Hi. injection Hi as <- <- _ _ _ _.
    rewrite D1, D2. split; congruence.
  - destruct (Hold p dp Hp Hdp) as (_ & dp0 & Hdp0 & Hi).
    assert (dq = d) by congruence. subst dq.
    destruct (Hno p dp0 Hp Hdp0) as [Ha Hb].
    unfold ident in Hi. injection Hi as <- <- _ _ _ _.
    rewrite D1, D2. split; congruence.
  - destruct (Hold p dp Hp Hdp) as (_ & dp0 & Hdp0 & Hi).
    destruct (Hold q dq Hq Hdq) as (_ & dq0 & Hdq0 & Hj).
    destruct (Huniq p q dp0 dq0 Hp Hq Hpq Hdp0 Hdq0) as [Ha Hb].
    unfold ident in Hi, Hj.
    injection Hi as <- <- _ _ _ _. injection Hj as <- <- _ _ _ _. done.
Qed.

Lemma one_device_unique_ids : unique_ids one_device [4096%N].
Proof.
  intros p q dp dq Hp Hq Hpq.
  apply list_elem_of_singleton in Hp. apply list_elem_of_singleton in Hq. congruence.
Qed.

Lemma new_usb_device_keeps_ids_unique_witness :
  unique_ids two_devices (w_brk one_device :: [4096%N]).
Proof.
  apply (new_usb_device_keeps_ids_unique one_device [4096%N] set_address_5
           keyboard_answers USB_HOOK_PASS two_devices).
  - exact one_device_ok.
  - exact one_device_heap_ok.
  - intros q d Hq Hd. apply list_elem_of_singleton in Hq. subst q.
    vm_compute in Hd. injection Hd as <-. split; discriminate.
  - exact one_device_unique_ids.
  - vm_compute. reflexivity.
Defined.

(** X19: free_device gives the address and the port of the device back:
    when no two devices of the chain share an address or a port, a lookup
    by the address or by the port of the freed device finds no device
    afterwards, and the devices left still have addresses and ports of
    their own. *)
Theorem free_device_releases_address_and_port
    (w : world) (l1 l2 : list N) (dev : N) (d : usb_device) :
  registry_ok w (l1 ++ dev :: l2) ->
  w_dev w !! dev = Some d ->
  config_freeable w (config d) ->
  unique_ids w (l1 ++ dev :: l2) ->
  exists w',
    free_device w dev = Ok (0, w') /\
    get_device_by_address w' (devnum d) = Ok NULL /\
    get_device_by_port w' (portno d) = Ok NULL /\
    unique_ids w' (l1 ++ l2).
Proof.
  intros Hreg Hd Hfree Huniq.
  destruct (free_device_effect w l1 l2 dev d Hreg Hd Hfree)
    as (w' & Hw' & Hreg' & Hgone & Hids & _).
  assert (Hin : forall q, q ∈ l1 ++ l2 -> q ∈ l1 ++ dev :: l2 /\ q <> dev).
  { intros q Hq. split.
    - apply elem_of_app in Hq as [Hq|Hq]; apply elem_of_app; [by left|right].
      by apply list_elem_of_further.
    - intros ->. destruct Hreg as [Hc _].
      pose proof (dchain_NoDup _ _ _ _ Hc) as Hnd.
      apply NoDup_app in Hnd as (_ & Hsep & Hnd2).
      apply NoDup_cons in Hnd2 as [Hdev2 _].
      apply elem_of_app in Hq as [Hq|Hq]; [|done].
      apply (Hsep _ Hq), list_elem_of_here. }
  assert (Hdevin : dev ∈ l1 ++ dev :: l2)
    by (apply elem_of_app; right; apply list_elem_of_here).
  assert (Hold : forall q dq', q ∈ l1 ++ l2 -> w_dev w' !! q = Some dq' ->
             exists dq, w_dev w !! q = Some dq /\ ident dq = ident dq').
  { intros q dq' Hq Hdq'. destruct (Hin q Hq) as [_ Hne].
    by apply (ident_lookup _ _ _ _ (Hids q Hne)). }
  exists w'. split_and!; try done.
  - apply (get_device_by_address_none w' _ (l1 ++ l2) Hreg').
    intros q dq' Hq Hdq'. destruct (Hold q dq' Hq Hdq') as (dq & Hdq & Hi).
    destruct (Hin q Hq) as [Hq' Hne].
    destruct (Huniq q dev dq d Hq' Hdevin Hne Hdq Hd) as [Ha _].
    unfold ident in Hi. by injection Hi as <- _ _ _ _ _.
  - apply (get_device_by_port_none w' _ (l1 ++ l2) Hreg').
    intros q dq' Hq Hdq'. destruct (Hold q dq' Hq Hdq') as (dq & Hdq & Hi).
    destruct (Hin q Hq) as [Hq' Hne].
    destruct (Huniq q dev dq d Hq' Hdevin Hne Hdq Hd) as [_ Hb].
    unfold ident in Hi. by injection Hi as _ <- _ _ _ _.
  - intros p q dp' dq' Hp Hq Hpq Hdp' Hdq'.
    destruct (Hold p dp' Hp Hdp') as (dp & Hdp & Hi).
    destruct (Hold q dq' Hq Hdq') as (dq & Hdq & Hj).
    destruct (Hin p Hp) as [Hp' _]. destruct (Hin q Hq) as [Hq' _].
    destruct (Huniq p q dp dq Hp' Hq' Hpq Hdp Hdq) as [Ha Hb].
    unfold ident in Hi, Hj.
    injection Hi as <- <- _ _ _ _. injection Hj as <- <- _ _ _ _. done.
Qed.

Lemma two_devices_unique_ids : unique_ids two_devices ([8194%N] ++ 4096%N :: []).
Proof.
  intros p q dp dq Hp Hq Hpq Hdp Hdq.
  apply elem_of_cons in Hp as [->|Hp]; [|apply list_elem_of_singleton in Hp; subst p];
    (apply elem_of_cons in Hq as [->|Hq]; [|apply list_elem_of_singleton in Hq; subst q]);
    try done;
    vm_compute in Hdp; vm_compute in Hdq;
    injection Hdp as <-; injection Hdq as <-; split; discriminate.
Qed.

Lemma free_device_releases_address_and_port_witness :
  exists w',
    free_device two_devices 4096%N = Ok (0, w') /\
    get_device_by_address w' (devnum (set_prev 8194%N mouse)) = Ok NULL /\
    get_device_by_port w' (portno (set_prev 8194%N mouse)) = Ok NULL /\
    unique_ids w' ([8194%N] ++ []).
Proof.
  apply (free_device_releases_address_and_port two_devices [8194%N] [] 4096%N
           (set_prev 8194%N mouse)).
  - exact two_devices_ok.
  - reflexivity.
  - left. reflexivity.
  - exact two_devices_unique_ids.
Defined.

(** ** A device is linked and freed again *)

Lemma filter_Forall_id {A} (P : A -> Prop) `{!forall x, Decision (P x)} (l : list A) :
  Forall P l -> filter P l = l.
Proof.
  induction 1 as [|a l Ha Hl IH]; [reflexivity|].
  by rewrite filter_cons, decide_True, IH.
Qed.

(** X20: a device that new_usb_device has linked and free_device frees
    again leaves the registry as it was before: the same chain with the
    same head, every device with the fields it had apart from its links,
    the same hooks on every chain in the same order, and the same
    last-changed port. *)
Theorem new_usb_device_then_free_device
    (w : world) (l : list N) (setup : list byte) (io : responses)
    (v : hook_verdict) (w' : world) (d : usb_device) :
  registry_ok w l ->
  heap_ok w ->
  no_collision w l (set_address_devadr setup) ->
  hooks_distinct (w_host w) ->
  hooks_in_heap w ->
  new_usb_device w setup io = Ok (v, w') ->
  w_dev w' !! w_brk w = Some d ->
  config_freeable w' (config d) ->
  exists w'',
    free_device w' (w_brk w) = Ok (0, w'') /\
    registry_ok w'' l /\
    device (w_host w'') = device (w_host w) /\
    same_ids (w_dev w) (w_dev w'') /\
    (forall phase, phase < USB_HOOK_NUM_PHASE ->
       phase_chain (w_host w'') phase = phase_chain (w_host w) phase) /\
    last_changed_port (w_host w'') = last_changed_port (w_host w).
Proof.
  intros Hreg Hheap Hno Hnd Hhooks H Hd Hfree.
  destruct (new_usb_device_effect w l setup io v w' Hreg Hheap Hno H)
    as (_ & Hreg' & _ & Hids & (a & Ha & _ & Hhook) & Hport & _).
  destruct (free_device_effect w' [] l (w_brk w) d Hreg' Hd Hfree)
    as (w'' & Hw'' & Hreg'' & Hgone & Hids' & Hhook' & Hport' & _).
  cbn [app] in Hreg''.
  set (hk := set_configuration_hook a (set_address_devadr setup) (w_brk w)) in *.
  assert (Hw' : forall ph,
             phase_chain (w_host w') ph
             = phase_chain (usb_hook_register (w_host w) USB_HOOK_REPLY hk) ph).
  { intros ph. by apply phase_chain_hook. }
  assert (Hchain : forall ph,
             NoDup (hk_addr <$> phase_chain (w_host w') ph) /\
             filter (fun x => hk_dev x <> w_brk w) (phase_chain (w_host w') ph)
             = phase_chain (w_host w) ph).
  { intros ph. rewrite Hw', phase_chain_register.
    assert (Hkeep : filter (fun x => hk_dev x <> w_brk w) (phase_chain (w_host w) ph)
                    = phase_chain (w_host w) ph).
    { apply filter_Forall_id, Forall_forall. intros x Hx.
      destruct (Hhooks ph x Hx) as [_ Hlt]. lia. }
    destruct (decide (ph = USB_HOOK_REPLY - 1)) as [->|Hne]; [|by split].
    pose proof (Hnd (USB_HOOK_REPLY - 1)) as Hnd2.
    pose proof (Hhooks (USB_HOOK_REPLY - 1)) as Hh2.
    unfold phase_chain in Hnd2, Hkeep, Hh2 |- *.
    destruct (hook (w_host w) !! (USB_HOOK_REPLY - 1)) as [chain|] eqn:E;
      cbn [default from_option id] in *; [|split; [apply NoDup_nil_2|done]].
    split.
    - rewrite fmap_app. apply NoDup_app. split; [done|]. split.
      + intros x Hx Hx'. apply list_elem_of_singleton in Hx'.
        apply list_elem_of_fmap in Hx as (y & -> & Hy).
        destruct (Hh2 y Hy) as [Hlt _]. cbn in Hx'. lia.
      + apply NoDup_singleton.
    - rewrite filter_app, Hkeep.
      rewrite filter_cons, decide_False by (intros Hne; by apply Hne).
      by rewrite filter_nil, app_nil_r. }
  exists w''. split_and!; try done.
  - destruct Hreg as [Hc _]. destruct Hreg'' as [Hc'' _].
    by rewrite (dchain_head _ _ _ _ Hc), (dchain_head _ _ _ _ Hc'').
  - intros q. destruct (decide (q = w_brk w)) as [->|Hne].
    + rewrite Hgone. destruct (w_dev w !! w_brk w) as [d0|] eqn:E; [|done].
      destruct Hheap as (_ & Hdev & _).
      assert (0 < w_brk w < w_brk w)%N by (apply Hdev; eauto). lia.
    + by rewrite Hids', Hids.
  - intros phase Hphase.
    rewrite <- (proj2 (Hchain phase)).
    rewrite <- (unhook_device_chain (w_brk w) (w_host w')); [|intros ph; apply Hchain|done].
    by apply phase_chain_hook.
  - by rewrite Hport'.
Qed.

Lemma one_device_hooks : hooks_distinct (w_host one_device) /\ hooks_in_heap one_device.
Proof.
  split.
  - intros [|[|[|phase]]]; cbn; try apply NoDup_nil_2.
    apply (bool_decide_unpack _). vm_compute. exact I.
  - intros [|[|[|phase]]] hk Hhk; cbn in Hhk; try (by apply elem_of_nil in Hhk).
    apply elem_of_cons in Hhk as [->|Hhk];
      [|apply list_elem_of_singleton in Hhk; subst hk]; split; reflexivity.
Qed.

Lemma new_usb_device_then_free_device_witness :
  exists w'',
    free_device two_devices (w_brk one_device) = Ok (0, w'') /\
    registry_ok w'' [4096%N] /\
    device (w_host w'') = device (w_host one_device) /\
    same_ids (w_dev one_device) (w_dev w'') /\
    (forall phase, phase < USB_HOOK_NUM_PHASE ->
       phase_chain (w_host w'') phase = phase_chain (w_host one_device) phase) /\
    last_changed_port (w_host w'') = last_changed_port (w_host one_device).
Proof.
  apply (new_usb_device_then_free_device one_device [4096%N] set_address_5
           keyboard_answers USB_HOOK_PASS two_devices keyboard).
  - exact one_device_ok.
  - exact one_device_heap_ok.
  - intros q d Hq Hd. apply list_elem_of_singleton in Hq. subst q.
    vm_compute in Hd. injection Hd as <-. split; discriminate.
  - exact (proj1 one_device_hooks).
  - exact (proj2 one_device_hooks).
  - vm_compute. reflexivity.
  - reflexivity.
  - left. reflexivity.
Defined.

(** ** The collision on the port *)

(** X21: when no device has the address of the SET_ADDRESS packet but one
    sits on the last-changed port, new_usb_device finds that device and then
    hands free_device the address number in place of it; no device lives at
    that number, so the call faults and the incumbent stays. *)
Theorem new_usb_device_port_collision
    (w : world) (l : list N) (setup : list byte) (io : responses) :
  registry_ok w l ->
  (forall q d, q ∈ l -> w_dev w !! q = Some d -> devnum d <> set_address_devadr setup) ->
  (exists q d, q ∈ l /\ w_dev w !! q = Some d /\ portno d = last_changed_port (w_host w)) ->
  w_dev w !! N.of_nat (set_address_devadr setup) = None ->
  (exists q, get_device_by_port w (last_changed_port (w_host w)) = Ok q /\ q ∈ l) /\
  new_usb_device w setup io = Fault.
Proof.
  intros Hreg Hadr Hex Hnone.
  destruct (get_device_by_port_first w _ l Hreg Hex)
    as (l1 & q & l2 & d & -> & Hd & Hport & _ & Hnn & Hs).
  split.
  - exists q. split; [done|]. apply elem_of_app. right. apply list_elem_of_here.
  - unfold new_usb_device. fold (set_address_devadr setup).
    unfold evict_collisions.
    rewrite (get_device_by_address_none w _ _ Hreg) by done.
    run. rewrite decide_True by done. run. rewrite Hs. run.
    rewrite decide_False by done.
    by rewrite (free_device_no_object w _ Hnone).
Qed.

Lemma new_usb_device_port_collision_witness :
  (exists q, get_device_by_port two_devices (last_changed_port (w_host two_devices)) = Ok q
             /\ q ∈ [8194%N; 4096%N]) /\
  new_usb_device two_devices (bytes [0; 5; 9; 0; 0; 0; 0; 0]) keyboard_answers = Fault.
Proof.
  apply (new_usb_device_port_collision two_devices [8194%N; 4096%N]
           (bytes [0; 5; 9; 0; 0; 0; 0; 0]) keyboard_answers).
  - exact two_devices_ok.
  - intros q d Hq Hd.
    apply elem_of_cons in Hq as [->|Hq]; [|apply list_elem_of_singleton in Hq; subst q];
      vm_compute in Hd; injection Hd as <-; discriminate.
  - exists 8194%N, keyboard. split; [apply list_elem_of_here|split; reflexivity].
  - reflexivity.
Defined.

(** ** device_state_change *)

(** X22: the SetConfiguration hook changes the state of its device to
    CONFIGURED and nothing else: it returns PASS, the chain, the host and
    the configuration trees are as they were, and so is every other field
    of the device and every other device.  A second SetConfiguration
    changes nothing any more. *)
Theorem device_state_change_marks_configured
    (w : world) (l : list N) (dev : N) (d : usb_device) :
  registry_ok w l ->
  dev ∈ l ->
  w_dev w !! dev = Some d ->
  exists w',
    device_state_change w dev = Ok (USB_HOOK_PASS, w') /\
    w_dev w' = <[dev := set_bStatus UD_STATUS_CONFIGURED d]> (w_dev w) /\
    registry_ok w' l /\
    w_host w' = w_host w /\ w_cfg w' = w_cfg w /\
    device_state_change w' dev = Ok (USB_HOOK_PASS, w').
Proof.
  intros [Hc Hm] Hin Hd.
  destruct (dchain_lookup _ _ _ _ _ Hc Hin) as [Hnn _].
  unfold device_state_change. rewrite decide_False by done.
  unfold deref. rewrite Hd. run.
  eexists. split; [reflexivity|]. cbn [w_dev w_host w_cfg set_dev].
  split_and!; try done.
  - split; [|done]. cbn [w_dev w_host set_dev].
    eapply dchain_same_links; [|exact Hc]. by apply (same_links_insert _ _ d).
  - rewrite decide_False by done. rewrite lookup_insert_eq. run.
    unfold set_dev. cbn [w_dev w_host w_cfg w_brk w_removed].
    by rewrite insert_insert_eq.
Qed.

Lemma device_state_change_marks_configured_witness :
  exists w',
    device_state_change one_device 4096%N = Ok (USB_HOOK_PASS, w') /\
    w_dev w' = <[4096%N := set_bStatus UD_STATUS_CONFIGURED mouse]> (w_dev one_device) /\
    registry_ok w' [4096%N] /\
    w_host w' = w_host one_device /\ w_cfg w' = w_cfg one_device /\
    device_state_change w' 4096%N = Ok (USB_HOOK_PASS, w').
Proof.
  apply (device_state_change_marks_configured one_device [4096%N] 4096%N mouse).
  - exact one_device_ok.
  - apply list_elem_of_here.
  - reflexivity.
Defined.

(** ** The SetAddress hook *)

(** X23: the hook usb_init_device_monitor registers goes to the end of the
    REPLY chain and has no device as back-link, so it is not among the
    hooks free_device takes off: freeing a device of the chain leaves it on
    the REPLY chain. *)
Theorem usb_init_device_monitor_hook_outlives_devices
    (w : world) (l1 l2 : list N) (dev : N) (d : usb_device) :
  registry_ok w (l1 ++ dev :: l2) ->
  w_dev w !! dev = Some d ->
  config_freeable w (config d) ->
  hooks_distinct (w_host w) ->
  hooks_in_heap w ->
  USB_HOOK_NUM_PHASE <= length (hook (w_host w)) ->
  phase_chain (w_host (usb_init_device_monitor w)) (USB_HOOK_REPLY - 1)
  = phase_chain (w_host w) (USB_HOOK_REPLY - 1)
    ++ [mk_hook (w_brk w) 0 cb_new_usb_device NULL] /\
  exists w',
    free_device (usb_init_device_monitor w) dev = Ok (0, w') /\
    phase_chain (w_host w') (USB_HOOK_REPLY - 1)
    = filter (fun hk => hk_dev hk <> dev) (phase_chain (w_host w) (USB_HOOK_REPLY - 1))
      ++ [mk_hook (w_brk w) 0 cb_new_usb_device NULL].
Proof.
  intros Hreg Hd Hfree Hnd Hhooks Hlen.
  set (hk := mk_hook (w_brk w) 0 cb_new_usb_device NULL).
  set (w0 := usb_init_device_monitor w).
  assert (Hnn : dev <> NULL).
  { destruct Hreg as [Hc _]. eapply (dchain_lookup _ _ _ _ dev Hc).
    apply elem_of_app. right. apply list_elem_of_here. }
  assert (Hchain : forall ph,
             phase_chain (w_host w0) ph
             = if decide (ph = USB_HOOK_REPLY - 1)
               then phase_chain (w_host w) ph ++ [hk]
               else phase_chain (w_host w) ph).
  { intros ph. unfold w0, usb_init_device_monitor. cbn [w_host].
    rewrite phase_chain_register.
    destruct (decide (ph = USB_HOOK_REPLY - 1)) as [->|]; [|done].
    unfold phase_chain.
    destruct (hook (w_host w) !! (USB_HOOK_REPLY - 1)) as [chain|] eqn:E; [done|].
    apply lookup_ge_None in E. unfold USB_HOOK_NUM_PHASE, USB_HOOK_REPLY in *.
    simpl in E. lia. }
  assert (Hnd0 : hooks_distinct (w_host w0)).
  { intros ph. rewrite Hchain.
    destruct (decide (ph = USB_HOOK_REPLY - 1)) as [->|]; [|apply Hnd].
    rewrite fmap_app. apply NoDup_app. split; [apply Hnd|]. split.
    - intros x Hx Hx'. apply list_elem_of_singleton in Hx'.
      apply list_elem_of_fmap in Hx as (y & -> & Hy).
      destruct (Hhooks _ y Hy) as [Hlt _]. cbn in Hx'. lia.
    - apply NoDup_singleton. }
  assert (Hreg0 : registry_ok w0 (l1 ++ dev :: l2))
    by (by eapply registry_ok_frame; [| | |exact Hreg]).
  destruct (free_device_effect w0 l1 l2 dev d Hreg0 Hd Hfree)
    as (w' & Hw' & _ & _ & _ & Hhook & _).
  split; [by rewrite Hchain, decide_True|].
  exists w'. split; [done|].
  rewrite (phase_chain_hook _ _ _ Hhook).
  rewrite (unhook_device_chain dev (w_host w0) Hnd0)
    by (unfold USB_HOOK_NUM_PHASE, USB_HOOK_REPLY; simpl; lia).
  rewrite Hchain, decide_True by done.
  rewrite filter_app, filter_cons, decide_True by (cbn; congruence).
  by rewrite filter_nil.
Qed.

Lemma usb_init_device_monitor_hook_outlives_devices_witness :
  phase_chain (w_host (usb_init_device_monitor two_devices)) (USB_HOOK_REPLY - 1)
  = phase_chain (w_host two_devices) (USB_HOOK_REPLY - 1)
    ++ [mk_hook (w_brk two_devices) 0 cb_new_usb_device NULL] /\
  exists w',
    free_device (usb_init_device_monitor two_devices) 4096%N = Ok (0, w') /\
    phase_chain (w_host w') (USB_HOOK_REPLY - 1)
    = filter (fun hk => hk_dev hk <> 4096%N)
             (phase_chain (w_host two_devices) (USB_HOOK_REPLY - 1))
      ++ [mk_hook (w_brk two_devices) 0 cb_new_usb_device NULL].
Proof.
  apply (usb_init_device_monitor_hook_outlives_devices two_devices [8194%N] [] 4096%N
           (set_prev 8194%N mouse)).
  - exact two_devices_ok.
  - reflexivity.
  - left. reflexivity.
  - exact two_devices_hooks_distinct.
  - intros [|[|[|phase]]] hk Hhk; cbn in Hhk; try (by apply elem_of_nil in Hhk).
    repeat (apply elem_of_cons in Hhk as [->|Hhk]; [split; reflexivity|]).
    by apply elem_of_nil in Hhk.
  - unfold USB_HOOK_NUM_PHASE. simpl. lia.
Defined.

(** ** dprintf_port *)

Lemma port_of_path_loop (i : nat) (port acc : N) :
  fold_left (fun acc t => match t with
                          | port_number n => (acc * 256 + n)%N
                          | port_dash => acc
                          end) (dprintf_port_loop i port) acc
  = (acc * 256 ^ N.of_nat i + port mod 256 ^ N.of_nat i)%N.
Proof.
  revert acc. induction i as [|i IH]; intros acc.
  - cbn [dprintf_port_loop fold_left]. change (N.of_nat 0) with 0%N.
    rewrite N.pow_0_r, N.mod_1_r. lia.
  - cbn [dprintf_port_loop fold_left]. rewrite fold_left_app.
    assert (Hdash : forall a,
               fold_left (fun acc t => match t with
                                       | port_number n => (acc * 256 + n)%N
                                       | port_dash => acc
                                       end) (if decide (i ≠ 0) then [port_dash] else []) a
               = a) by (intros a; by destruct (decide (i ≠ 0))).
    rewrite Hdash, IH.
    assert (Hbyte : N.land (N.shiftr port (USB_HUB_SHIFT * N.of_nat i)) 255
                    = ((port / 256 ^ N.of_nat i) mod 256)%N).
    { change 255%N with (N.ones 8). rewrite N.land_ones, N.shiftr_div_pow2.
      unfold USB_HUB_SHIFT. rewrite N.pow_mul_r. reflexivity. }
    rewrite Hbyte.
    replace (N.of_nat (S i)) with (N.succ (N.of_nat i)) by lia.
    rewrite N.pow_succ_r', (N.mul_comm 256 (256 ^ N.of_nat i)).
    rewrite N.Div0.mod_mul_r. lia.
Qed.

Lemma path_numbers_loop (i : nat) (port : N) :
  length (path_numbers (dprintf_port_loop i port)) = i /\
  Forall (fun n => (n < 256)%N) (path_numbers (dprintf_port_loop i port)).
Proof.
  induction i as [|i [IHl IHf]]; [by split|].
  cbn [dprintf_port_loop]. unfold path_numbers in *. cbn [omap list_omap].
  rewrite omap_app.
  replace (omap _ (if decide (i ≠ 0) then [port_dash] else [])) with (@nil N)
    by (by destruct (decide (i ≠ 0))).
  cbn [app length]. split; [by rewrite IHl|].
  constructor; [|done].
  change 255%N with (N.ones 8). rewrite N.land_ones.
  apply N.mod_lt. discriminate.
Qed.



(** With five turns the identifier 0x0201 is printed as 0-0-0-2-1. *)
Example dprintf_port_of_hub_port :
  dprintf_port 5 513%N
  = [port_number 0; port_dash; port_number 0; port_dash; port_number 0; port_dash;
     port_number 2; port_dash; port_number 1].
Proof. reflexivity. Qed.

(** ** The walk comes to an end *)

(** X1: for every buffer and every length, extract_config_descriptors comes
    to an end: each turn of its loop moves on by at least one byte.  It
    either faults, on a read outside the buffer or outside an array, or
    returns the length it was given with the tree and the bucket. *)
Theorem extract_config_descriptors_ends (buf : list byte) (len : nat) :
  extract_config_descriptors buf len = Fault \/
  exists t o, extract_config_descriptors buf len = Ok (len, t, o).
Proof.
  destruct (extract_config_descriptors buf len) as [[[l t] o]| |] eqn:E.
  - right. exists t, o. by rewrite (extract_config_descriptors_len _ _ _ _ _ E).
  - by left.
  - by apply extract_config_descriptors_returns in E.
Qed.

(** ** A tree is installed and freed again *)

(** X25: the tree parse_descriptor installs for a CONFIG record, an
    INTERFACE record and the ENDPOINT records its bNumEndpoints counts can
    be freed again: free_device on the device succeeds and leaves no
    configuration array of the device behind, neither the installed one
    nor the one the device had before. *)
Theorem parse_config_then_free_device
    (w : world) (l1 l2 : list N) (dev : N) (d : usb_device)
    (cfg itf : desc_record) (eps : list desc_record) :
  registry_ok w (l1 ++ dev :: l2) ->
  w_dev w !! dev = Some d ->
  heap_ok w ->
  config_freeable w (config d) ->
  Forall valid_record (cfg :: itf :: eps) ->
  u8 (r_type cfg) = 2 -> r_len cfg <= USB_DT_CONFIG_SIZE ->
  u8 (r_type itf) = 4 -> r_len itf <= USB_DT_INTERFACE_SIZE ->
  Forall (fun r => u8 (r_type r) = 5 /\ r_len r <= USB_DT_ENDPOINT_SIZE) eps ->
  eps <> [] ->
  byte_at (wire itf) 4 = length eps ->
  exists w' w'',
    parse_descriptor w USB_DT_CONFIG (stream (cfg :: itf :: eps))
                     (length (stream (cfg :: itf :: eps))) dev
      = Ok (USB_HOOK_PASS, w') /\
    is_Some (w_cfg w' !! w_brk w) /\
    free_device w' dev = Ok (0, w'') /\
    w_cfg w'' = delete (config d) (w_cfg w) /\
    registry_ok w'' (l1 ++ l2).
Proof.
  intros Hreg Hd Hheap Hold Hv Hc Hcl Hi Hil Heps Hne Hnum.
  set (rs := cfg :: itf :: eps) in *.
  set (cimg := image_of_record USB_DT_CONFIG_SIZE cfg).
  set (iimg := image_of_record USB_DT_INTERFACE_SIZE itf).
  set (eps' := map endpoint_of_record eps).
  set (t := [mk_config cimg (mk_interface [mk_interface_descriptor iimg eps' [] 0] 1) [] 0]).
  assert (Hx : extract_config_descriptors (stream rs) (length (stream rs))
               = Ok (length (stream rs), t, [])).
  { rewrite <- (app_nil_r (stream rs)) at 1. rewrite extract_exact by done.
    change (feed_all rs extract_init) with (feed_all ([cfg; itf] ++ eps) extract_init).
    rewrite feed_all_app, feed_config_interface by done. run. fold cimg iimg.
    destruct (feed_endpoints_append cimg iimg eps [] 4 (r_len cfg + r_len itf) Heps)
      as (last' & p' & ->).
    run. reflexivity. }
  assert (Hitf : 4 < r_len itf).
  { destruct (decide (4 < r_len itf)) as [|Hge]; [done|]. exfalso.
    destruct eps as [|e eps0]; [done|]. cbn [length] in Hnum.
    unfold byte_at in Hnum. rewrite nth_overflow in Hnum by (rewrite length_wire; lia).
    discriminate Hnum. }
  assert (Hnum' : byte_at iimg 4 = length eps').
  { unfold eps'. rewrite length_map, <- Hnum. unfold iimg, image_of_record, byte_at.
    by rewrite app_nth1 by (rewrite length_wire; lia). }
  assert (Hne' : eps' <> []) by (unfold eps'; by destruct eps).
  set (e0 := set_wMaxPacketSize (bMaxPacketSize0 (descriptor d))
               zalloc_usb_endpoint_descriptor).
  set (t' := [mk_config cimg
                (mk_interface [mk_interface_descriptor iimg (e0 :: eps') [] 0] 1) [] 0]).
  assert (Hep : add_endpoint0 (bMaxPacketSize0 (descriptor d)) t = Ok t').
  { destruct (add_endpoint0_first (bMaxPacketSize0 (descriptor d)) t cimg iimg eps')
      as (t0 & -> & -> & _); try done.
    by eexists _, [], _, []. }
  assert (Hcomplete : ~ (bNumInterfaces (mk_config cimg
                            (mk_interface [mk_interface_descriptor iimg eps' [] 0] 1) [] 0)
                         <> 0 /\ length (stream rs) <= USB_DT_CONFIG_SIZE)).
  { intros [Hn Hlen]. unfold bNumInterfaces in Hn. cbn [c_image] in Hn.
    apply byte_at_image in Hn.
    unfold rs in Hlen. rewrite !length_stream_cons in Hlen.
    unfold USB_DT_CONFIG_SIZE in Hlen. lia. }
  pose proof (parse_descriptor_config_cases w _ _ dev d _ _ _ Hd Hheap Hx)
    as [_ Hinstall].
  specialize (Hinstall Hcomplete Hold t' Hep).
  destruct Hheap as (Hnn & Hdevs & Hcfgs).
  set (w' := mk_world (w_host w) (<[dev := set_config (w_brk w) d]> (w_dev w))
                      (<[w_brk w := t']> (delete (config d) (w_cfg w)))
                      (N.succ (w_brk w)) (w_removed w)) in *.
  assert (Hreg' : registry_ok w' (l1 ++ dev :: l2)).
  { destruct Hreg as [Hcn Hm]. split; [|done]. cbn [w_dev w_host w'].
    eapply dchain_same_links; [|exact Hcn]. by apply (same_links_insert _ _ d). }
  destruct (free_device_effect w' l1 l2 dev (set_config (w_brk w) d) Hreg')
    as (w'' & Hw'' & Hreg'' & _ & _ & _ & _ & Hcfg & _).
  { apply lookup_insert_eq. }
  { right. exists t'. split; [apply lookup_insert_eq|]. split; [simpl; lia|].
    unfold t'. cbn [take free_each_config interface altsetting num_altsetting]. run.
    unfold free_interface_descriptors. cbn [length]. rewrite decide_True by done.
    cbn [take free_each_interface endpoint]. unfold free_endpoint_descriptors.
    unfold bNumEndpoints. cbn [i_image length]. rewrite Hnum'.
    rewrite decide_True by lia. reflexivity. }
  exists w', w''. split_and!; try done.
  - cbn [w_cfg w']. rewrite lookup_insert_eq. eauto.
  - rewrite Hcfg. cbn [config set_config w_cfg w'].
    rewrite decide_False by done.
    apply delete_insert_id.
    destruct (delete (config d) (w_cfg w) !! w_brk w) as [x|] eqn:E; [|done].
    apply lookup_delete_Some in E as [_ E].
    assert (0 < w_brk w < w_brk w)%N by (apply Hcfgs; eauto). lia.
Qed.

Lemma parse_config_then_free_device_witness :
  exists w' w'',
    parse_descriptor one_device USB_DT_CONFIG
      (stream (record 2 [25; 0; 1; 1; 0; 128; 50] :: record 4 [0; 0; 1; 3; 1; 2; 0]
               :: [record 5 [129; 3; 4; 0; 10]]))
      (length (stream (record 2 [25; 0; 1; 1; 0; 128; 50] :: record 4 [0; 0; 1; 3; 1; 2; 0]
                       :: [record 5 [129; 3; 4; 0; 10]])))
      4096%N
      = Ok (USB_HOOK_PASS, w') /\
    is_Some (w_cfg w' !! w_brk one_device) /\
    free_device w' 4096%N = Ok (0, w'') /\
    w_cfg w'' = delete (config mouse) (w_cfg one_device) /\
    registry_ok w'' ([] ++ []).
Proof.
  apply (parse_config_then_free_device one_device [] [] 4096%N mouse
           (record 2 [25; 0; 1; 1; 0; 128; 50]) (record 4 [0; 0; 1; 3; 1; 2; 0])
           [record 5 [129; 3; 4; 0; 10]]).
  - exact one_device_ok.
  - reflexivity.
  - exact one_device_heap_ok.
  - left. reflexivity.
  - repeat constructor; vm_compute; lia.
  - reflexivity.
  - vm_compute; lia.
  - reflexivity.
  - vm_compute; lia.
  - repeat constructor; vm_compute; lia.
  - discriminate.
  - reflexivity.
Defined.

(** ** From the connect to the device *)

(** X26: the last-changed port is what ties a connect to the device that
    SET_ADDRESS brings: after handle_connect_status has seen a connect on a
    port with no device, the device new_usb_device links at the next
    SET_ADDRESS has that port, counted from 1, as its port. *)
Theorem connect_then_set_address_gives_the_port
    (w : world) (l : list N) (portno_ : N) (status : N)
    (setup : list byte) (io : responses) :
  registry_ok w l ->
  heap_ok w ->
  N.land status 1 <> 0%N ->
  (forall q d, q ∈ l -> w_dev w !! q = Some d ->
     devnum d <> set_address_devadr setup /\ portno d <> u64_add portno_ 1) ->
  exists w1,
    handle_connect_status w portno_ status = Ok (0, w1) /\
    last_changed_port (w_host w1) = u64_add portno_ 1 /\
    forall v w',
      new_usb_device w1 setup io = Ok (v, w') ->
      registry_ok w' (w_brk w :: l) /\
      exists d,
        w_dev w' !! w_brk w = Some d /\
        portno d = u64_add portno_ 1 /\
        devnum d = set_address_devadr setup.
Proof.
  intros Hreg Hheap Hbit Hno.
  set (w1 := set_host (set_last_changed_port (u64_add portno_ 1) (w_host w)) w).
  assert (Hw1 : handle_connect_status w portno_ status = Ok (0, w1)).
  { unfold handle_connect_status.
    assert (Hfirst : (if decide (N.land status 2 = 0%N) then Ok w
                      else dev ← get_device_by_port w (u64_add portno_ 1);
                           if decide (dev = NULL) then Ok w
                           else '(_, w') ← free_device w dev; Ok w') = Ok w).
    { destruct (decide (N.land status 2 = 0%N)); [done|].
      rewrite (get_device_by_port_none w _ l Hreg); [done|].
      intros q d Hq Hd. by apply (Hno q d). }
    rewrite Hfirst. run. by rewrite decide_False. }
  assert (Hreg1 : registry_ok w1 l) by (by eapply registry_ok_frame; [| | |exact Hreg]).
  exists w1. split; [done|]. split; [done|].
  intros v w' H.
  destruct (new_usb_device_effect w1 l setup io v w' Hreg1 Hheap) as
    (_ & Hreg' & (d & Hd & D1 & D2 & _) & _); [|done|].
  { intros q d Hq Hd. by apply (Hno q d). }
  split; [done|]. exists d. by split_and!.
Qed.

Lemma connect_then_set_address_gives_the_port_witness :
  exists w1,
    handle_connect_status empty_host 0%N 1%N = Ok (0, w1) /\
    last_changed_port (w_host w1) = u64_add 0 1 /\
    forall v w',
      new_usb_device w1 set_address_3 mouse_answers = Ok (v, w') ->
      registry_ok w' (w_brk empty_host :: []) /\
      exists d,
        w_dev w' !! w_brk empty_host = Some d /\
        portno d = u64_add 0 1 /\
        devnum d = set_address_devadr set_address_3.
Proof.
  apply (connect_then_set_address_gives_the_port empty_host [] 0%N 1%N
           set_address_3 mouse_answers).
  - split; [apply dchain_nil|]. intros b Hb. injection Hb as <-. reflexivity.
  - split; [done|]. split; intros p [x Hx]; simpl in Hx; by rewrite lookup_empty in Hx.
  - discriminate.
  - intros q d Hq. by apply elem_of_nil in Hq.
Defined.

(** ** A device that does not answer *)

(** X27: when both GetDescriptor requests fail (a return value of 0 or
    less), new_usb_device parses nothing and still links the device: it
    returns PASS, the new device has a cleared device descriptor and no
    configuration tree, and no configuration array is made or freed. *)
Theorem new_usb_device_without_answers
    (w : world) (l : list N) (setup : list byte) (io : responses) :
  registry_ok w l ->
  heap_ok w ->
  no_collision w l (set_address_devadr setup) ->
  (ret (device18 io) <= 0)%Z ->
  (ret (config255 io) <= 0)%Z ->
  exists w',
    new_usb_device w setup io = Ok (USB_HOOK_PASS, w') /\
    w_dev w' !! w_brk w
    = Some (mk_device (set_address_devadr setup) (last_changed_port (w_host w))
                      UD_STATUS_ADDRESSED (replicate USB_DT_DEVICE_SIZE x00)
                      NULL None (device (w_host w)) NULL) /\
    w_cfg w' = w_cfg w /\
    registry_ok w' (w_brk w :: l).
Proof.
  intros Hreg Hheap Hno Hr18 Hr255.
  destruct (link_new_device_ok w l (set_address_devadr setup) Hreg Hheap)
    as (w2 & Hlink & _).
  destruct (link_new_device_effect _ _ _ _ Hheap Hlink)
    as (_ & Hd2 & _ & _ & _ & _ & Hcfg2 & _).
  assert (H : exists w', new_usb_device w setup io = Ok (USB_HOOK_PASS, w') /\
                         w_dev w' = w_dev w2 /\ w_cfg w' = w_cfg w2).
  { unfold new_usb_device. fold (set_address_devadr setup).
    rewrite (evict_collisions_none w l _ Hreg Hno). run.
    rewrite Hlink. run. unfold fetch_descriptor.
    rewrite !decide_False by lia. run.
    eexists. split; [reflexivity|]. done. }
  destruct H as (w' & Hw' & Hdev & Hcfg).
  exists w'. split_and!; try done.
  - by rewrite Hdev.
  - by rewrite Hcfg.
  - by destruct (new_usb_device_effect w l setup io _ w' Hreg Hheap Hno Hw') as (_ & ? & _).
Qed.

Lemma new_usb_device_without_answers_witness :
  exists w',
    new_usb_device one_device set_address_5
      (mk_responses (mk_response 0 []) (mk_response (-1) []) (mk_response 0 []))
      = Ok (USB_HOOK_PASS, w') /\
    w_dev w' !! w_brk one_device
    = Some (mk_device (set_address_devadr set_address_5)
                      (last_changed_port (w_host one_device))
                      UD_STATUS_ADDRESSED (replicate USB_DT_DEVICE_SIZE x00)
                      NULL None (device (w_host one_device)) NULL) /\
    w_cfg w' = w_cfg one_device /\
    registry_ok w' (w_brk one_device :: [4096%N]).
Proof.
  apply (new_usb_device_without_answers one_device [4096%N] set_address_5
           (mk_responses (mk_response 0 []) (mk_response (-1) []) (mk_response 0 []))).
  - exact one_device_ok.
  - exact one_device_heap_ok.
  - intros q d Hq Hd. apply list_elem_of_singleton in Hq. subst q.
    vm_compute in Hd. injection Hd as <-. split; discriminate.
  - simpl. lia.
  - simpl. lia.
Defined.

(** ** A length that ends inside a record *)

(** The loop compares [parsed] with [len] only between two records. *)
Lemma extract_loop_inside_last (rs : list desc_record) :
  forall (pre post : list byte) (len fuel : nat) (st : extract_state),
    rs <> [] ->
    Forall valid_record rs ->
    parsed st = length pre ->
    length pre + length (stream (removelast rs)) < len ->
    length rs <= fuel ->
    extract_loop fuel (pre ++ stream rs ++ post) len st
    = (if decide (len <= length pre + length (stream rs)) then feed_all rs st
       else extract_loop fuel (pre ++ stream rs ++ post) len st).
Proof.
  induction rs as [|r rs IH]; intros pre post len fuel st Hne Hv Hp Hlo Hfuel; [done|].
  destruct (decide (len <= length pre + length (stream (r :: rs)))) as [Hhi|]; [|done].
  destruct fuel as [|fuel]; [simpl in Hfuel; lia|].
  apply Forall_cons in Hv as [Hr Hv].
  rewrite length_stream_cons in Hhi. simpl in Hfuel.
  cbn [extract_loop feed_all].
  replace (stream (r :: rs) ++ post) with (wire r ++ (stream rs ++ post))
    by (unfold stream; simpl; by rewrite <- app_assoc).
  rewrite extract_step_record by done.
  destruct (feed r st) as [st1| |] eqn:Hfeed; try reflexivity.
  cbv beta iota delta [mbind result_bind].
  pose proof (feed_parsed _ _ _ Hfeed) as Hp1.
  destruct rs as [|r2 rs].
  - change (length (stream [])) with 0 in Hhi.
    rewrite decide_False by lia. reflexivity.
  - change (removelast (r :: r2 :: rs)) with (r :: removelast (r2 :: rs)) in Hlo.
    rewrite length_stream_cons in Hlo.
    rewrite decide_True by lia.
    rewrite app_assoc.
    rewrite IH; [|done|done| | |lia].
    + rewrite decide_True; [reflexivity|]. rewrite length_app, length_wire. lia.
    + rewrite length_app, length_wire. lia.
    + rewrite length_app, length_wire. lia.
Qed.

(** X28: the walk compares the bytes walked with the length only between
    two records.  A length that ends inside the last record of the
    response does not cut that record: the record is read to its end,
    beyond the length, and the tree and the bucket are those of the whole
    response. *)
Theorem walk_finishes_the_last_record
    (rs : list desc_record) (post : list byte) (len : nat)
    (l : nat) (t : list usb_config_descriptor) (o : list byte) :
  rs <> [] ->
  Forall valid_record rs ->
  length (stream (removelast rs)) < len ->
  len <= length (stream rs) ->
  extract_config_descriptors (stream rs ++ post) (length (stream rs)) = Ok (l, t, o) ->
  extract_config_descriptors (stream rs ++ post) len = Ok (len, t, o).
Proof.
  intros Hne Hv Hlo Hhi Hx.
  rewrite extract_exact in Hx by done. bind_inv Hx. injection Hx as _ <- <-.
  unfold extract_config_descriptors.
  rewrite decide_False by lia.
  rewrite (extract_loop_inside_last rs [] post); try done.
  - cbn [length]. rewrite decide_True by (simpl; lia). by rewrite Hx0.
  - pose proof (length_stream_ge (removelast rs)) as Hge.
    destruct rs as [|r1 rs]; [done|].
    assert (length (removelast (r1 :: rs)) = length rs).
    { clear. revert r1. induction rs as [|a rs IH]; intros r1; [done|].
      change (removelast (r1 :: a :: rs)) with (r1 :: removelast (a :: rs)).
      cbn [length]. by rewrite IH. }
    cbn [length]. lia.
Qed.

Lemma walk_finishes_the_last_record_witness :
  extract_config_descriptors (stream mouse_config ++ []) 30
  = Ok (30,
        [mk_config (wire (record 2 [34; 0; 1; 1; 0; 128; 50]))
           (mk_interface
              [mk_interface_descriptor (wire (record 4 [0; 0; 1; 3; 1; 2; 0]))
                 [endpoint_of_record (record 5 [129; 3; 4; 0; 10])]
                 (wire (record 33 [16; 1; 0; 1; 34; 52; 0])) 9] 1) [] 0],
        []).
Proof.
  apply (walk_finishes_the_last_record mouse_config [] 30
           (length (stream mouse_config))).
  - discriminate.
  - repeat constructor; vm_compute; lia.
  - vm_compute. lia.
  - vm_compute. lia.
  - vm_compute. reflexivity.
Defined.

(** ** Endpoint 0, whatever surrounds the endpoints *)

Lemma feed_other_config_open cimg (r : desc_record) (st : extract_state) :
  other_type r -> config_open cimg st ->
  exists st', feed r st = Ok st' /\ config_open cimg st'.
Proof.
  intros (H2 & H4 & H5) ((cex & Hcd) & Hcp & Hip & Hnc & Hni & Hol & Hlast).
  destruct st as [cd od ol cp ip nc ni ne last p]. cbn in Hcd, Hcp, Hip, Hnc, Hni, Hol, Hlast.
  subst cd cp ip nc ni ol.
  unfold feed. rewrite on_record_other by done. unfold on_other. proj.
  destruct last as [|[|[|[|[|[|last]]]]]]; try done; run; proj;
    cbn [lookup list_lookup]; run; proj;
    try rewrite tack_on_all; run; proj;
    (eexists; split; [reflexivity|]);
    (split; [|by split_and!; proj; try rewrite length_app]); proj.
  all: try by exists cex.
  exists (cex ++ wire r). cbn [alter list_alter]. unfold set_c_extra. proj.
  by rewrite length_app.
Qed.

Lemma feed_all_config_open cimg (rs : list desc_record) :
  forall st,
    Forall other_type rs -> config_open cimg st ->
    exists st', feed_all rs st = Ok st' /\ config_open cimg st'.
Proof.
  induction rs as [|r rs IH]; intros st Hrs Hst; [by exists st|].
  apply Forall_cons in Hrs as [Hr Hrs].
  destruct (feed_other_config_open cimg r st Hr Hst) as (st1 & Hf & Hst1).
  destruct (IH st1 Hrs Hst1) as (st' & Hf' & Hst').
  exists st'. cbn [feed_all]. rewrite Hf. by run.
Qed.

Lemma feed_config_opens (cfg : desc_record) :
  u8 (r_type cfg) = 2 -> r_len cfg <= USB_DT_CONFIG_SIZE ->
  exists st, feed cfg extract_init = Ok st /\
             config_open (image_of_record USB_DT_CONFIG_SIZE cfg) st.
Proof.
  intros Hc Hl. unfold feed. rewrite Hc. cbn [on_record]. unfold on_config. run.
  rewrite struct_of_wire_image by done. run.
  unfold extract_init. proj. rewrite (tack_on_all []). run.
  eexists. split; [reflexivity|]. split; [by exists []|]. by split_and!.
Qed.

Lemma feed_interface_opens cimg (itf : desc_record) (st : extract_state) :
  u8 (r_type itf) = 4 -> r_len itf <= USB_DT_INTERFACE_SIZE ->
  config_open cimg st ->
  exists st', feed itf st = Ok st' /\
              first_altsetting_open cimg (image_of_record USB_DT_INTERFACE_SIZE itf) [] st'.
Proof.
  intros Hi Hl ((cex & Hcd) & Hcp & Hip & Hnc & Hni & Hol & Hlast).
  destruct st as [cd od ol cp ip nc ni ne last p]. cbn in Hcd, Hcp, Hip, Hnc, Hni, Hol, Hlast.
  subst cd cp ip nc ni ol.
  unfold feed. rewrite Hi. cbn [on_record]. unfold on_interface. proj.
  cbn [lookup list_lookup]. run.
  rewrite struct_of_wire_image by done. run. proj.
  rewrite (tack_on_all []). run.
  eexists. split; [reflexivity|]. split; [|by split_and!].
  exists cex, []. proj. cbn [alter list_alter]. reflexivity.
Qed.

Lemma feed_other_first_altsetting_open cimg iimg eps (r : desc_record)
    (st : extract_state) :
  other_type r -> first_altsetting_open cimg iimg eps st ->
  exists st', feed r st = Ok st' /\ first_altsetting_open cimg iimg eps st'.
Proof.
  intros (H2 & H4 & H5) ((cex & iex & Hcd) & Hcp & Hip & Hnc & Hni & Hne & Hol).
  destruct st as [cd od ol cp ip nc ni ne last p]. cbn in Hcd, Hcp, Hip, Hnc, Hni, Hne, Hol.
  subst cd cp ip nc ni ne ol.
  unfold feed. rewrite on_record_other by done. unfold on_other. proj.
  destruct last as [|[|[|[|[|[|last]]]]]]; run; proj;
    unfold deref_idescp; proj; cbn [lookup list_lookup]; run; proj;
    cbn [lookup list_lookup]; run; proj;
    try rewrite tack_on_all; run; proj;
    (eexists; split; [reflexivity|]);
    (split; [|by split_and!; proj; try rewrite length_app]); proj.
  all: try by exists cex, iex.
  - exists (cex ++ wire r), iex. cbn [alter list_alter]. unfold set_c_extra. proj.
    by rewrite length_app.
  - exists cex, (iex ++ wire r). unfold update_idescp. proj.
    cbn [alter list_alter]. unfold set_alts, set_i_extra. proj.
    cbn [alter list_alter]. proj. by rewrite length_app.
Qed.

Lemma feed_endpoint_first_altsetting_open cimg iimg eps (r : desc_record)
    (st : extract_state) :
  u8 (r_type r) = 5 -> r_len r <= USB_DT_ENDPOINT_SIZE ->
  first_altsetting_open cimg iimg eps st ->
  exists st', feed r st = Ok st' /\
              first_altsetting_open cimg iimg (eps ++ [endpoint_of_record r]) st'.
Proof.
  intros H5 Hl ((cex & iex & Hcd) & Hcp & Hip & Hnc & Hni & Hne & Hol).
  destruct st as [cd od ol cp ip nc ni ne last p]. cbn in Hcd, Hcp, Hip, Hnc, Hni, Hne, Hol.
  subst cd cp ip nc ni ne ol.
  unfold feed. rewrite H5. cbn [on_record]. unfold on_endpoint. proj.
  unfold deref_idescp. proj. cbn [lookup list_lookup]. run. proj.
  cbn [lookup list_lookup]. run.
  rewrite struct_of_wire_image by done. run. proj.
  rewrite tack_on_all. run.
  eexists. split; [reflexivity|]. split; [|split_and!; proj; try done].
  - exists cex, iex. unfold update_idescp. proj.
    cbn [alter list_alter]. unfold set_alts, set_endpoint. proj.
    cbn [alter list_alter]. proj. reflexivity.
  - rewrite length_app. cbn [length]. lia.
Qed.

Lemma feed_all_first_altsetting_open cimg iimg (rs : list desc_record) :
  forall eps st,
    Forall (fun r => u8 (r_type r) = 5 /\ r_len r <= USB_DT_ENDPOINT_SIZE
                     \/ other_type r) rs ->
    first_altsetting_open cimg iimg eps st ->
    exists st', feed_all rs st = Ok st' /\
                first_altsetting_open cimg iimg (eps ++ endpoints_of rs) st'.
Proof.
  induction rs as [|r rs IH]; intros eps st Hrs Hst.
  - exists st. split; [done|]. unfold endpoints_of. cbn. by rewrite app_nil_r.
  - apply Forall_cons in Hrs as [Hr Hrs]. cbn [feed_all].
    unfold endpoints_of. rewrite filter_cons.
    destruct Hr as [[H5 Hl]|Ho].
    + destruct (feed_endpoint_first_altsetting_open _ _ _ r st H5 Hl Hst)
        as (st1 & -> & Hst1). run.
      destruct (IH _ st1 Hrs Hst1) as (st' & Hf & Hst').
      exists st'. split; [done|]. rewrite decide_True by done.
      cbn [map]. by rewrite <- app_assoc in Hst'.
    + destruct (feed_other_first_altsetting_open _ _ _ r st Ho Hst)
        as (st1 & -> & Hst1). run.
      destruct (IH _ st1 Hrs Hst1) as (st' & Hf & Hst').
      exists st'. split; [done|]. destruct Ho as (_ & _ & Ho).
      by rewrite decide_False.
Qed.

Lemma first_altsetting_open_first cimg iimg eps st :
  first_altsetting_open cimg iimg eps st ->
  first_altsetting (x_cdesc st) cimg iimg eps.
Proof.
  intros ((cex & iex & Hcd) & _). rewrite Hcd. by eexists _, [], _, [].
Qed.

(** An INTERFACE record takes the cursor off the first alternate setting. *)
Lemma feed_interface_leaves_open cimg iimg eps (r : desc_record)
    (st st' : extract_state) :
  u8 (r_type r) = 4 ->
  first_altsetting_open cimg iimg eps st ->
  feed r st = Ok st' ->
  past_first_altsetting cimg iimg eps st'.
Proof.
  intros H4 ((cex & iex & Hcd) & Hcp & Hip & Hnc & Hni & Hne & Hol) H.
  destruct st as [cd od ol cp ip nc ni ne last p]. cbn in Hcd, Hcp, Hip, Hnc, Hni, Hne, Hol.
  subst cd cp ip nc ni ne ol.
  unfold feed in H. rewrite H4 in H. cbn [on_record] in H.
  unfold on_interface in H.
  cbn [cdescp x_cdesc n_idesc lookup list_lookup altsetting interface] in H.
  cbv beta iota delta [mbind result_bind of_option] in H.
  destruct (struct_of_wire _ _) as [img| |] eqn:Himg; try discriminate.
  unfold tack_on in H. cbn [length n_idesc] in H.
  rewrite decide_True in H by done.
  cbv beta iota delta [mbind result_bind of_option] in H. injection H as <-.
  split; [|split; [|split]]; cbn; try lia; try done.
  eexists _, [], _, _. split; [reflexivity|]. cbn. by split_and!.
Qed.

Lemma first_altsetting_unique t cimg img eps cimg' img' eps' :
  first_altsetting t cimg img eps -> first_altsetting t cimg' img' eps' ->
  cimg' = cimg /\ img' = img /\ eps' = eps.
Proof.
  intros (c & cs & i & alts & -> & Ha & <- & <- & <-)
         (c' & cs' & i' & alts' & Heq & Ha' & <- & <- & <-).
  injection Heq as <- <-. rewrite Ha in Ha'. by injection Ha' as <- <-.
Qed.

(** The tree of the walk over a CONFIG record, records of other types, an
    INTERFACE record, then ENDPOINT records and records of other types in
    any order, and then nothing or an INTERFACE record and whatever
    follows: the endpoints of the first alternate setting are those
    ENDPOINT records, in wire order. *)
Lemma walk_first_altsetting_endpoints
    (cfg itf : desc_record) (pre body rest : list desc_record) (st : extract_state) :
  u8 (r_type cfg) = 2 -> r_len cfg <= USB_DT_CONFIG_SIZE ->
  Forall other_type pre ->
  u8 (r_type itf) = 4 -> r_len itf <= USB_DT_INTERFACE_SIZE ->
  Forall (fun r => u8 (r_type r) = 5 /\ r_len r <= USB_DT_ENDPOINT_SIZE
                   \/ other_type r) body ->
  (rest = [] \/ exists r rest', rest = r :: rest' /\ u8 (r_type r) = 4) ->
  feed_all (cfg :: pre ++ itf :: body ++ rest) extract_init = Ok st ->
  first_altsetting (x_cdesc st) (image_of_record USB_DT_CONFIG_SIZE cfg)
                   (image_of_record USB_DT_INTERFACE_SIZE itf) (endpoints_of body).
Proof.
  intros Hc Hcl Hpre Hi Hil Hbody Hrest H.
  destruct (feed_config_opens cfg Hc Hcl) as (st1 & Hf1 & Hst1).
  destruct (feed_all_config_open _ pre st1 Hpre Hst1) as (st2 & Hf2 & Hst2).
  destruct (feed_interface_opens _ itf st2 Hi Hil Hst2) as (st3 & Hf3 & Hst3).
  destruct (feed_all_first_altsetting_open _ _ body [] st3 Hbody Hst3)
    as (st4 & Hf4 & Hst4).
  cbn [app] in Hst4.
  cbn [feed_all] in H. rewrite Hf1 in H.
  cbv beta iota delta [mbind result_bind] in H.
  rewrite feed_all_app, Hf2 in H.
  cbv beta iota delta [mbind result_bind] in H.
  cbn [feed_all] in H. rewrite Hf3 in H.
  cbv beta iota delta [mbind result_bind] in H.
  rewrite feed_all_app, Hf4 in H.
  cbv beta iota delta [mbind result_bind] in H.
  destruct Hrest as [->|(r & rest' & -> & Hr)].
  - injection H as <-. by apply first_altsetting_open_first.
  - cbn [feed_all] in H. bind_inv H.
    apply (feed_interface_leaves_open _ _ _ _ _ _ Hr Hst4) in H0.
    by apply (past_first_feed_all _ _ _ _ _ _ H0) in H as [? _].
Qed.

(** C2, amended: for every CONFIG response from which the walk returns a
    tree that is installed (it is not dropped as incomplete, and the old
    tree of the device can be freed): when the first alternate setting of
    the first configuration has parsed endpoints and its bNumEndpoints is
    not more than their number, index 0 of its endpoint array in the
    installed tree is a made-up endpoint whose wMaxPacketSize is
    bMaxPacketSize0 of the device descriptor, and the first bNumEndpoints
    parsed endpoints follow it in their order (all of them when
    bNumEndpoints is their number).  The installed tree is the parsed tree
    with that one endpoint array replaced: no other alternate setting gets
    such an endpoint.  When the response is a CONFIG record, records of
    other types, an INTERFACE record, then ENDPOINT records and records of
    other types in any order, and then nothing or another INTERFACE record
    and whatever follows, the parsed endpoints of that alternate setting
    are those ENDPOINT records in wire order. *)
Theorem endpoint0_in_first_altsetting
    (w : world) (dev : N) (d : usb_device) (buf : list byte) (len : nat)
    (l : nat) (t : list usb_config_descriptor) (o : list byte)
    (cimg img : list byte) (eps : list usb_endpoint_descriptor)
    (cfg itf : desc_record) (pre body rest : list desc_record) (post : list byte) :
  extract_config_descriptors buf len = Ok (l, t, o) ->
  first_altsetting t cimg img eps ->
  eps <> [] ->
  byte_at img 4 <= length eps ->
  ~ (byte_at cimg 4 <> 0 /\ len <= USB_DT_CONFIG_SIZE) ->
  w_dev w !! dev = Some d ->
  heap_ok w ->
  config_freeable w (config d) ->
  (exists w' t' e0,
     parse_descriptor w USB_DT_CONFIG buf len dev = Ok (USB_HOOK_PASS, w') /\
     w_dev w' !! dev = Some (set_config (w_brk w) d) /\
     w_cfg w' !! w_brk w = Some t' /\
     first_altsetting t' cimg img (e0 :: take (byte_at img 4) eps) /\
     wMaxPacketSize e0 = bMaxPacketSize0 (descriptor d) /\
     t' = update_idescp (set_endpoint (e0 :: take (byte_at img 4) eps)) (0, 0) t) /\
  (buf = stream (cfg :: pre ++ itf :: body ++ rest) ++ post ->
   len = length (stream (cfg :: pre ++ itf :: body ++ rest)) ->
   Forall valid_record (cfg :: pre ++ itf :: body ++ rest) ->
   u8 (r_type cfg) = 2 -> r_len cfg <= USB_DT_CONFIG_SIZE ->
   Forall other_type pre ->
   u8 (r_type itf) = 4 -> r_len itf <= USB_DT_INTERFACE_SIZE ->
   Forall (fun r => u8 (r_type r) = 5 /\ r_len r <= USB_DT_ENDPOINT_SIZE
                    \/ other_type r) body ->
   (rest = [] \/ exists r rest', rest = r :: rest' /\ u8 (r_type r) = 4) ->
   cimg = image_of_record USB_DT_CONFIG_SIZE cfg /\
   img = image_of_record USB_DT_INTERFACE_SIZE itf /\
   eps = endpoints_of body).
Proof.
  intros Hx Hfirst Hne Hnum Hcomplete Hd Hheap Hold. split.
  - destruct (add_endpoint0_take (bMaxPacketSize0 (descriptor d)) t cimg img eps
                Hfirst Hne) as [Hep _].
    specialize (Hep Hnum).
    destruct Hfirst as (c & cs & i & alts & -> & Ha & Hc & Hi & He).
    pose proof (parse_descriptor_config_cases w _ _ dev d _ _ _ Hd Hheap Hx)
      as [_ Hinstall].
    eexists _, _, _. split.
    { apply Hinstall; [|done|exact Hep].
      unfold bNumInterfaces. by rewrite Hc. }
    cbn [w_dev w_cfg].
    split; [apply lookup_insert_eq|]. split; [apply lookup_insert_eq|].
    split; [|split; [apply wMaxPacketSize_endpoint0, u8_bounded|reflexivity]].
    unfold update_idescp. cbn [fst snd alter list_alter].
    eexists _, cs, _, alts. split; [reflexivity|].
    proj. rewrite Ha. cbn [alter list_alter]. by split_and!.
  - intros -> -> Hv Hc Hcl Hpre Hi Hil Hbody Hrest.
    rewrite extract_exact in Hx by done. bind_inv Hx. injection Hx as _ <- _.
    pose proof (walk_first_altsetting_endpoints cfg itf pre body rest r
                  Hc Hcl Hpre Hi Hil Hbody Hrest Hx0) as Hwalk.
    destruct (first_altsetting_unique _ _ _ _ _ _ _ Hwalk Hfirst) as (-> & -> & ->).
    done.
Qed.

Lemma endpoint0_in_first_altsetting_witness :
  (exists w' t' e0,
     parse_descriptor one_device USB_DT_CONFIG (stream mouse_config ++ [])
                      (length (stream mouse_config)) 4096%N
       = Ok (USB_HOOK_PASS, w') /\
     w_dev w' !! 4096%N = Some (set_config (w_brk one_device) mouse) /\
     w_cfg w' !! w_brk one_device = Some t' /\
     first_altsetting t' (wire (record 2 [34; 0; 1; 1; 0; 128; 50]))
       (wire (record 4 [0; 0; 1; 3; 1; 2; 0]))
       (e0 :: take (byte_at (wire (record 4 [0; 0; 1; 3; 1; 2; 0])) 4)
                   [endpoint_of_record (record 5 [129; 3; 4; 0; 10])]) /\
     wMaxPacketSize e0 = bMaxPacketSize0 (descriptor mouse) /\
     t' = update_idescp
            (set_endpoint
               (e0 :: take (byte_at (wire (record 4 [0; 0; 1; 3; 1; 2; 0])) 4)
                           [endpoint_of_record (record 5 [129; 3; 4; 0; 10])]))
            (0, 0)
            [mk_config (wire (record 2 [34; 0; 1; 1; 0; 128; 50]))
               (mk_interface
                  [mk_interface_descriptor (wire (record 4 [0; 0; 1; 3; 1; 2; 0]))
                     [endpoint_of_record (record 5 [129; 3; 4; 0; 10])]
                     (wire (record 33 [16; 1; 0; 1; 34; 52; 0])) 9] 1) [] 0]) /\
  (wire (record 2 [34; 0; 1; 1; 0; 128; 50])
   = image_of_record USB_DT_CONFIG_SIZE (record 2 [34; 0; 1; 1; 0; 128; 50]) /\
   wire (record 4 [0; 0; 1; 3; 1; 2; 0])
   = image_of_record USB_DT_INTERFACE_SIZE (record 4 [0; 0; 1; 3; 1; 2; 0]) /\
   [endpoint_of_record (record 5 [129; 3; 4; 0; 10])]
   = endpoints_of [record 33 [16; 1; 0; 1; 34; 52; 0]; record 5 [129; 3; 4; 0; 10]]).
Proof.
  destruct (endpoint0_in_first_altsetting one_device 4096%N mouse
              (stream mouse_config ++ []) (length (stream mouse_config))
              (length (stream mouse_config))
              [mk_config (wire (record 2 [34; 0; 1; 1; 0; 128; 50]))
                 (mk_interface
                    [mk_interface_descriptor (wire (record 4 [0; 0; 1; 3; 1; 2; 0]))
                       [endpoint_of_record (record 5 [129; 3; 4; 0; 10])]
                       (wire (record 33 [16; 1; 0; 1; 34; 52; 0])) 9] 1) [] 0]
              []
              (wire (record 2 [34; 0; 1; 1; 0; 128; 50]))
              (wire (record 4 [0; 0; 1; 3; 1; 2; 0]))
              [endpoint_of_record (record 5 [129; 3; 4; 0; 10])]
              (record 2 [34; 0; 1; 1; 0; 128; 50]) (record 4 [0; 0; 1; 3; 1; 2; 0])
              [] [record 33 [16; 1; 0; 1; 34; 52; 0]; record 5 [129; 3; 4; 0; 10]] [] [])
    as [Hinstalled Hwire].
  - vm_compute. reflexivity.
  - eexists _, [], _, []. split; [reflexivity|]. split; [reflexivity|].
    split; [reflexivity|]. split; reflexivity.
  - discriminate.
  - vm_compute. lia.
  - intros [_ Hlen]. vm_compute in Hlen. lia.
  - reflexivity.
  - exact one_device_heap_ok.
  - left. reflexivity.
  - split; [exact Hinstalled|].
    apply Hwire.
    + reflexivity.
    + reflexivity.
    + repeat constructor; vm_compute; lia.
    + reflexivity.
    + vm_compute. lia.
    + constructor.
    + reflexivity.
    + vm_compute. lia.
    + apply Forall_cons. split; [right; vm_compute; split_and!; lia|].
      apply Forall_cons. split; [left; split; [reflexivity|vm_compute; lia]|].
      constructor.
    + by left.
Defined.

(** ** The length the incomplete test looks at *)

